(** * CGRtools: the dual-state graph container and its record codec

    A shallow embedding of [CGRtools/files/CGRrw.py] (record decoder, graph
    assembler, graph encoder) and of [CGRtools/containers/cgr.py] (derived
    algorithms on the dual-state graph), followed by the properties the
    specification states about them.

    Python objects are modelled by the data the code keeps in them:
    integers are [Z], [float]s are IEEE binary64 primitive floats, [str] is
    [string], a raised exception is a [Raise] result, and a dictionary is a
    finite map where it is only looked up and an association list where the
    code iterates over it. *)

From Stdlib Require Import ZArith Ascii String PrimFloat Floats DecimalString.
From Stdlib Require Import DecimalPos DecimalZ.
From stdpp Require Import base option list gmap strings.

Local Open Scope string_scope.
Local Open Scope Z_scope.
Local Open Scope list_scope.
#[local] Set Warnings "-register-all,-inexact-float".

(** ** Part I. Python values, exceptions and string primitives *)

Module Py.

(** The exceptions the modelled code can raise. [MapError] is the
    [Exception("MapError")] of the reader; [NetworkXError] is raised by the
    graph substrate when a node to remove is absent. *)
Inductive exn : Set :=
| KeyError | ValueError | TypeError | IndexError | AttributeError
| MapError | NetworkXError.

(** A computation that returns or raises. *)
Inductive result (A : Type) : Type :=
| Ok (a : A)
| Raise (e : exn).
Global Arguments Ok {A} a.
Global Arguments Raise {A} e.

Definition bind {A B} (m : result A) (f : A → result B) : result B :=
  match m with Ok a => f a | Raise e => Raise e end.

Definition of_option {A} (e : exn) (o : option A) : result A :=
  match o with Some a => Ok a | None => Raise e end.

(** [for x in xs: acc = body(acc, x)], stopping at the first exception. *)
Fixpoint for_each {A S} (body : S → A → result S) (xs : list A) (s : S) : result S :=
  match xs with
  | [] => Ok s
  | x :: xs' => bind (body s x) (for_each body xs')
  end.

(** [[f(x) for x in xs]], stopping at the first exception. *)
Fixpoint map_result {A B} (f : A → result B) (xs : list A) : result (list B) :=
  match xs with
  | [] => Ok []
  | x :: xs' => bind (f x) (λ y, bind (map_result f xs') (λ ys, Ok (y :: ys)))
  end.

(** Values stored in attribute dictionaries. *)
Inductive value : Type :=
| VNone
| VInt (z : Z)
| VFloat (f : float)
| VStr (s : string)
| VList (l : list value)
| VTuple (l : list value).

(** Truth value of an object in a condition. *)
Definition truthy (v : value) : bool :=
  match v with
  | VNone => false
  | VInt z => negb (z =? 0)
  | VFloat f => negb (PrimFloat.eqb f 0%float)
  | VStr s => negb (String.eqb s "")
  | VList l | VTuple l => match l with [] => false | _ => true end
  end.

(** [len(set(l)) == len(l)] *)
Definition all_distinct {A} `{EqDecision A} (l : list A) : bool :=
  bool_decide (length (remove_dups l) = length l).

(** [l[i]] on a list, a negative index counting from the end. *)
Definition index {A} (l : list A) (i : Z) : result A :=
  let n := Z.of_nat (length l) in
  if bool_decide (0 ≤ i) then of_option IndexError (l !! Z.to_nat i)
  else if bool_decide (0 ≤ n + i) then of_option IndexError (l !! Z.to_nat (n + i))
  else Raise IndexError.

(** [l[start::2]] for [start] 0 or 1. *)
Fixpoint every_other {A} (l : list A) : list A :=
  match l with
  | x :: _ :: r => x :: every_other r
  | [x] => [x]
  | [] => []
  end.

(** A dictionary that keeps its insertion order. *)
Fixpoint dict_get {V} (k : Z) (d : list (Z * V)) : option V :=
  match d with
  | [] => None
  | (k', v) :: r => if bool_decide (k' = k) then Some v else dict_get k r
  end.

(** [d[k] = v]: in place when the key is there, at the end otherwise. *)
Fixpoint dict_set {V} (k : Z) (v : V) (d : list (Z * V)) : list (Z * V) :=
  match d with
  | [] => [(k, v)]
  | (k', v') :: r =>
      if bool_decide (k' = k) then (k, v) :: r else (k', v') :: dict_set k v r
  end.

(** [del d[k]] for a key that is there. *)
Definition dict_del {V} (k : Z) (d : list (Z * V)) : list (Z * V) :=
  filter (λ e, e.1 ≠ k) d.

(** *** Strings *)

(** [s.split(sep)] for a one-character separator: never empty. *)
Fixpoint split (sep : ascii) (s : string) : list string :=
  match s with
  | "" => [""]
  | String c r =>
      if Ascii.eqb c sep then "" :: split sep r
      else match split sep r with
           | h :: t => String c h :: t
           | [] => [String c ""]
           end
  end.

(** [sep.join(l)] *)
Fixpoint join (sep : string) (l : list string) : string :=
  match l with
  | [] => ""
  | [x] => x
  | x :: r => x +:+ sep +:+ join sep r
  end.

(** White space among the ASCII characters, as [str.isspace] has it. *)
Definition is_space (c : ascii) : bool :=
  let n := nat_of_ascii c in
  ((9 <=? n) && (n <=? 13) || (28 <=? n) && (n <=? 32))%nat.

Definition is_digit (c : ascii) : bool :=
  let n := nat_of_ascii c in ((48 <=? n) && (n <=? 57))%nat.

Fixpoint lstrip (s : string) : string :=
  match s with
  | String c r => if is_space c then lstrip r else s
  | "" => ""
  end.

Fixpoint rstrip (s : string) : string :=
  match s with
  | "" => ""
  | String c r =>
      let r' := rstrip r in
      if is_space c && String.eqb r' "" then "" else String c r'
  end.

Definition strip (s : string) : string := rstrip (lstrip s).

(** The digits of an integer literal with its underscores taken out; an
    underscore is accepted only between two digits. [after_digit] tells
    whether the previous character was a digit. *)
Fixpoint literal_digits (after_digit : bool) (s : string) : option string :=
  match s with
  | "" => if after_digit then Some "" else None
  | String c r =>
      if is_digit c then String c <$> literal_digits true r
      else if Ascii.eqb c "_" && after_digit then literal_digits false r
      else None
  end.

(** [int(s)] in base ten: white space around, an optional sign, decimal
    digits with single underscores between them. Anything else is a
    [ValueError]. *)
Definition int (s : string) : result Z :=
  let t := strip s in
  let '(neg, body) :=
    match t with
    | String "+" r => (false, r)
    | String "-" r => (true, r)
    | _ => (false, t)
    end in
  of_option ValueError
    (ds ← literal_digits false body;
     u ← NilEmpty.uint_of_string ds;
     Some (if neg : bool then - Z.of_uint u else Z.of_uint u)).

(** [str(z)], which is also ['%s' % z] and ['%d' % z]. *)
Definition str_int (z : Z) : string := NilZero.string_of_int (Z.to_int z).

(** ['%+d' % z] *)
Definition fmt_plus_d (z : Z) : string :=
  match Z.to_int z with
  | Decimal.Pos d => String "+" (NilZero.string_of_uint d)
  | Decimal.Neg d => String "-" (NilZero.string_of_uint d)
  end.

(** [s.startswith(p)] *)
Definition startswith (s p : string) : bool := String.prefix p s.

(** [s[a:b]] for [0 <= a <= b]: shorter when the text ends before [b]. *)
Definition slice (a b : nat) (s : string) : string := String.substring a (b - a) s.

(** [s[a:]] *)
Fixpoint slice_from (a : nat) (s : string) : string :=
  match a, s with
  | O, _ => s
  | S a', String _ r => slice_from a' r
  | S _, "" => ""
  end.

(** [s[n]] *)
Definition char_at (n : nat) (s : string) : result ascii :=
  of_option IndexError (String.get n s).

(** [sub in s] *)
Definition contains (sub s : string) : bool :=
  match String.index 0 sub s with Some _ => true | None => false end.

(** [s.split()]: the words between the runs of white space. *)
Fixpoint words (s : string) : list string :=
  match s with
  | "" => []
  | String c r =>
      if is_space c then words r
      else match r with
           | "" => [String c ""]
           | String c' _ =>
               if is_space c' then String c "" :: words r
               else match words r with
                    | h :: t => String c h :: t
                    | [] => [String c ""]
                    end
           end
  end.

(** [s.lower()] on ASCII text. *)
Definition lower_char (c : ascii) : ascii :=
  let n := nat_of_ascii c in
  if ((65 <=? n) && (n <=? 90))%nat then ascii_of_nat (n + 32) else c.

Fixpoint lower (s : string) : string :=
  match s with
  | "" => ""
  | String c r => String (lower_char c) (lower r)
  end.

(** [s.replace(c, '')] for a character [c]. *)
Fixpoint remove_char (c : ascii) (s : string) : string :=
  match s with
  | "" => ""
  | String c' r => if Ascii.eqb c' c then remove_char c r else String c' (remove_char c r)
  end.

(** [sorted(l)] on integers. *)
Fixpoint insert_sorted (x : Z) (l : list Z) : list Z :=
  match l with
  | [] => [x]
  | y :: r => if bool_decide (x ≤ y) then x :: l else y :: insert_sorted x r
  end.

Definition sorted (l : list Z) : list Z := foldr insert_sorted [] l.

(** [' ' * n] *)
Fixpoint spaces (n : nat) : string :=
  match n with
  | O => ""
  | S n' => String " " (spaces n')
  end.

(** ['%3d' % z]: the number, moved to the right of three columns. *)
Definition fmt_3d (z : Z) : string :=
  let s := str_int z in spaces (3 - String.length s) +:+ s.

(** The line feed. *)
Definition nl : string := String (ascii_of_nat 10) "".

End Py.

Declare Scope py_scope.
Delimit Scope py_scope with py.
Notation "x ←! m ; f" := (Py.bind m (λ x, f))
  (at level 20, m at level 100, f at level 200, only parsing) : py_scope.
Notation "' x ←! m ; f" := (Py.bind m (λ x, f))
  (at level 20, x pattern, m at level 100, f at level 200, only parsing) : py_scope.
Local Open Scope py_scope.

(** ** Part II. [CGRtools/files/CGRrw.py] *)

(** What the module takes from outside the repository: the [float]
    constructor on strings, and the periodic table. [isotopes sym] lists
    [(a[x].abundance, x)] for [x] in [a.isotopes] where
    [a = elements.symbol(sym)], and raises when the symbol is unknown;
    [mendeleyset] holds every element symbol. *)
Class Externals := {
  py_float : string → Py.result float;
  isotopes : string → Py.result (list (float * Z));
  mendeleyset : list string;
}.

Module CGRrw.
Import Py.

Abbreviation attrs := (gmap string value).

(** [d.update(e)]: the entries of [e] win. *)
Definition update (d e : attrs) : attrs := e ∪ d.

(** *** Module tables *)

Definition toMDL : gmap Z Z :=
  list_to_map [(-3, 7); (-2, 6); (-1, 5); (0, 0); (1, 3); (2, 2); (3, 1)].

Definition fromMDL : gmap Z Z :=
  list_to_map [(0, 0); (1, 3); (2, 2); (3, 1); (4, 0); (5, -1); (6, -2); (7, -3)].

(** A decoded token: [None], a number or a stereo symbol. *)
Inductive label : Set :=
| LNone
| LInt (z : Z)
| LStr (s : string).

#[global] Instance label_eq_dec : EqDecision label.
Proof. solve_decision. Defined.

Definition label_value (l : label) : value :=
  match l with
  | LNone => VNone
  | LInt z => VInt z
  | LStr s => VStr s
  end.

Definition bondlabels : gmap string label :=
  list_to_map [("0", LNone); ("1", LInt 1); ("2", LInt 2); ("3", LInt 3);
               ("4", LInt 4); ("9", LInt 9); ("n", LNone); ("s", LInt 9)].

Definition stereolabels : gmap string label :=
  list_to_map [("e", LStr "e"); ("z", LStr "z"); ("u", LStr "u"); ("r", LStr "r");
               ("s", LStr "s"); ("re", LStr "re"); ("si", LStr "si"); ("n", LNone)].

(** [__marks[name]] *)
Definition marks (name : string) : result (string * string * string) :=
  if bool_decide (name ∈ ["neighbors"; "hyb"; "bond"])
  then Ok ("s_" +:+ name, "p_" +:+ name, "sp_" +:+ name)
  else Raise KeyError.

(** [__cgrkeys]: the number of atoms a record of each type names. *)
Definition cgrkeys : gmap string Z :=
  list_to_map [("extrabond", 2); ("dynbond", 2); ("dynatom", 1); ("atomnotlist", 1);
               ("atomlist", 1); ("isotope", 1); ("atomhyb", 1); ("atomneighbors", 1);
               ("dynatomhyb", 1); ("dynatomneighbors", 1)].

(** *** Parsed input *)

(** One entry of [molecule['atoms']]. *)
Record atom := {
  a_map : Z;
  a_element : string;
  a_isotope : Z;
  a_charge : Z;
  a_mark : string;
  a_x : float;
  a_y : float;
  a_z : float;
}.

(** The value of a collected record: the text of an [M  SED] or [M  ISO]
    line, or the symbol list of an [M  ALS] line. *)
Inductive dat_value : Type :=
| DStr (s : string)
| DList (l : list string).

(** One entry of [molecule['CGR_DAT']]. *)
Record dat := {
  d_atoms : list Z;
  d_type : string;
  d_value : dat_value;
}.

(** A parsed molecule block; a bond is [(k, l, order, stereo)]. *)
Record molecule := {
  atoms : list atom;
  bonds : list (Z * Z * Z * Z);
  CGR_DAT : list dat;
}.

(** *** Token decoding: [__parsedyn] and [__parselist] *)

(** The decoded form of one symbol of a token (the conditional expression
    both parsers share). *)
Definition token_label (name s : string) : result label :=
  if bool_decide (name = "bond") then of_option KeyError (bondlabels !! s)
  else if bool_decide (name = "stereo") then of_option KeyError (stereolabels !! s)
  else if bool_decide (s = "n") then Ok LNone
  else z ←! int s; Ok (if bool_decide (z = 0) then LNone else LInt z).

(** [s, *_, p = x.split('>')] *)
Definition token_ends (x : string) : result (string * string) :=
  match split ">" x with
  | s :: r => match last r with
              | Some p => Ok (s, p)
              | None => Raise ValueError
              end
  | [] => Raise ValueError
  end.

(** The body of the loop of [__parsedyn]. *)
Definition parsedyn_step (name : string) (acc : list label * list label) (x : string)
  : result (list label * list label) :=
  let '(tmp0, tmp1) := acc in
  '(s, p) ←! token_ends x;
  if bool_decide (s ≠ p) then
    a ←! token_label name s;
    b ←! token_label name p;
    Ok (tmp0 ++ [a], tmp1 ++ [b])
  else Ok (tmp0, tmp1).

Definition pair_value (ab : label * label) : value :=
  VTuple [label_value ab.1; label_value ab.2].

Definition parsedyn (name value : string) : result (option attrs) :=
  '(tmp0, tmp1) ←! for_each (parsedyn_step name) (split "," value) ([], []);
  '(s, p, sp) ←! marks name;
  match tmp0 with
  | [] => Ok None
  | [a] =>
      b ←! index tmp1 0;
      let out : attrs := {[ sp := pair_value (a, b) ]} in
      let out := if bool_decide (a ≠ LNone) then <[ s := label_value a ]> out else out in
      let out := if bool_decide (b ≠ LNone) then <[ p := label_value b ]> out else out in
      Ok (Some out)
  | _ =>
      let tmp2 := zip tmp0 tmp1 in
      if all_distinct tmp2
      then Ok (Some (list_to_map [(s, VList (label_value <$> tmp0));
                                  (p, VList (label_value <$> tmp1));
                                  (sp, VList (pair_value <$> tmp2))]))
      else Ok None
  end.

(** [dict.fromkeys(__marks[name], v)] *)
Definition fromkeys_marks (name : string) (v : value) : result attrs :=
  '(s, p, sp) ←! marks name;
  Ok (list_to_map [(s, v); (p, v); (sp, v)]).

Definition parselist (name value : string) : result (option attrs) :=
  tmp ←! map_result (token_label name) (split "," value);
  match tmp with
  | [a] => if bool_decide (a ≠ LNone)
           then d ←! fromkeys_marks name (label_value a); Ok (Some d)
           else Ok None
  | _ => if all_distinct tmp
         then d ←! fromkeys_marks name (VList (label_value <$> tmp)); Ok (Some d)
         else Ok None
  end.

(** *** Record decoding: [__cgr_atom_dat] and [__cgr_dat] *)

Section decoder.
Context `{!Externals}.

Definition charge_dict (s p sp : value) : attrs :=
  list_to_map [("s_charge", s); ("p_charge", p); ("sp_charge", sp)].

Definition int_pair_value (sp : Z * Z) : value := VTuple [VInt sp.1; VInt sp.2].

(** [__cgr_atom_dat] on a text value. *)
Definition cgr_atom_dat (value : string) (charge : Z) : result (option attrs) :=
  match value with
  | "" => Raise IndexError
  | String key rest =>
      if Ascii.eqb key "c" then
        diff ←! map_result int (split "," rest);
        match diff with
        | [] => Raise IndexError
        | [tmp] =>
            if bool_decide (tmp ≠ 0) then
              let p := charge + tmp in
              Ok (Some (charge_dict (VInt charge) (VInt p) (int_pair_value (charge, p))))
            else Ok None
        | d0 :: _ =>
            if bool_decide (d0 = 0) then
              let tmp := (λ x, charge + x) <$> diff in
              if all_distinct tmp then
                let v := VList (VInt <$> tmp) in Ok (Some (charge_dict v v v))
              else Ok None
            else if bool_decide (Z.of_nat (length diff) `mod` 2 = 1) then
              let s := charge :: ((λ x, charge + x) <$> every_other (tail diff)) in
              let p := (λ x, charge + x) <$> every_other diff in
              let tmp := zip s p in
              if all_distinct tmp then
                Ok (Some (charge_dict (VList (VInt <$> s)) (VList (VInt <$> p))
                                      (VList (int_pair_value <$> tmp))))
              else Ok None
            else Ok None
        end
      else if Ascii.eqb key "x" then
        xyz ←! map_result py_float (split "," rest);
        match xyz with
        | [x; y; z] =>
            Ok (Some (list_to_map [("p_x", VFloat x); ("p_y", VFloat y); ("p_z", VFloat z)]))
        | _ => Raise ValueError
        end
      else if Ascii.eqb key "z" then
        dz ←! int rest; Ok (Some {[ "dz" := VInt dz ]})
      else Ok None
  end.

(** [__cgr_atom_dat] on whatever the record holds: a symbol list has no
    [split], and is no argument for [int]. *)
Definition cgr_atom_dat_value (v : dat_value) (charge : Z) : result (option attrs) :=
  match v with
  | DStr s => cgr_atom_dat s charge
  | DList [] => Raise IndexError
  | DList (key :: _) =>
      if bool_decide (key = "c") || bool_decide (key = "x") then Raise AttributeError
      else if bool_decide (key = "z") then Raise TypeError
      else Ok None
  end.

(** [value.split] and the like need a text value. *)
Definition text (v : dat_value) : result string :=
  match v with
  | DStr s => Ok s
  | DList _ => Raise AttributeError
  end.

(** The members of a record value when it is iterated over. *)
Definition members (v : dat_value) : list string :=
  match v with
  | DStr s => (λ c, String c "") <$> list_ascii_of_string s
  | DList l => l
  end.

Definition cgr_dat (type : string) (v : dat_value) : result (option attrs) :=
  if bool_decide (type = "dynbond") then s ←! text v; parsedyn "bond" s
  else if bool_decide (type = "extrabond") then s ←! text v; parselist "bond" s
  else if bool_decide (type = "atomlist") then
    Ok (Some {[ "element" := match v with
                             | DStr s => VStr s
                             | DList l => VList (VStr <$> l)
                             end ]})
  else if bool_decide (type = "atomnotlist") then
    Ok (Some {[ "element" :=
                  VList (VStr <$> filter (λ e, e ∉ members v) mendeleyset) ]})
  else if bool_decide (type = "atomhyb") then s ←! text v; parselist "hyb" s
  else if bool_decide (type = "atomneighbors") then s ←! text v; parselist "neighbors" s
  else if bool_decide (type = "dynatomhyb") then s ←! text v; parsedyn "hyb" s
  else if bool_decide (type = "dynatomneighbors") then s ←! text v; parsedyn "neighbors" s
  else if bool_decide (type = "isotope") then
    s ←! text v;
    let tmp := split "," s in
    match tmp with
    | [x] => z ←! int x; Ok (Some {[ "isotope" := VInt z ]})
    | _ => zs ←! map_result int tmp; Ok (Some {[ "isotope" := VList (VInt <$> zs) ]})
    end
  else Ok None.

(** *** The graph under assembly *)

(** The molecule container as the assembler uses it: attribute
    dictionaries per node and per pair of neighbours. *)
Record graph := {
  node : gmap Z attrs;
  adj : gmap Z (gmap Z attrs);
}.

Definition empty_graph : graph := {| node := ∅; adj := ∅ |}.

(** [g.add_node(n, **attr)] *)
Definition add_node (n : Z) (attr : attrs) (g : graph) : graph :=
  match node g !! n with
  | None => {| node := <[ n := attr ]> (node g); adj := <[ n := ∅ ]> (adj g) |}
  | Some old => {| node := <[ n := update old attr ]> (node g); adj := adj g |}
  end.

(** A node created by [add_edge] has no attributes. *)
Definition touch_node (n : Z) (g : graph) : graph :=
  match node g !! n with
  | None => {| node := <[ n := ∅ ]> (node g); adj := <[ n := ∅ ]> (adj g) |}
  | Some _ => g
  end.

(** [g.add_edge(u, v, **attr)] *)
Definition add_edge (u v : Z) (attr : attrs) (g : graph) : graph :=
  let g := touch_node v (touch_node u g) in
  let nbrs n := default ∅ (adj g !! n) in
  let datadict := update (default ∅ (nbrs u !! v)) attr in
  let adj1 := <[ u := <[ v := datadict ]> (nbrs u) ]> (adj g) in
  let adj2 := <[ v := <[ u := datadict ]> (default ∅ (adj1 !! v)) ]> adj1 in
  {| node := node g; adj := adj2 |}.

(** [g.node[n][key] = v] *)
Definition set_node_attr (n : Z) (key : string) (v : value) (g : graph) : result graph :=
  old ←! of_option KeyError (node g !! n);
  Ok {| node := <[ n := <[ key := v ]> old ]> (node g); adj := adj g |}.

(** [g.node[n].get(key)], nothing when the node is absent. *)
Definition node_attr (gr : graph) (n : Z) (key : string) : option value :=
  node gr !! n ≫= (λ a, a !! key).

(** [g.adj[u].get(v)], nothing when [u] has no adjacency. *)
Definition edge_attr (gr : graph) (u v : Z) : option attrs :=
  adj gr !! u ≫= (λ nbrs, nbrs !! v).

(** Only the nodes have an adjacency. *)
Definition adj_in_nodes (gr : graph) : Prop :=
  ∀ n, node gr !! n = None → adj gr !! n = None.

(** A step that leaves the adjacency and the set of nodes as they are. *)
Definition same_shape (gr gr' : graph) : Prop :=
  adj gr' = adj gr ∧ ∀ n, is_Some (node gr' !! n) ↔ is_Some (node gr !! n).

(** *** [__parse_molecule] *)

(** The first loop: decode the records into per-atom and per-bond tables. *)
Definition collect_dat (m : molecule)
    (acc : gmap Z attrs * gmap Z (gmap Z attrs)) (k : dat)
  : result (gmap Z attrs * gmap Z (gmap Z attrs)) :=
  let '(cgr_dat_atom, cgr_dat_bond) := acc in
  if bool_decide (d_type k = "dynatom") then
    a0 ←! index (d_atoms k) 0;
    l ←! index (atoms m) (a0 - 1);
    val ←! cgr_atom_dat_value (d_value k) (a_charge l);
    match val with
    | None => Raise TypeError
    | Some val =>
        Ok (<[ a0 := update (default ∅ (cgr_dat_atom !! a0)) val ]> cgr_dat_atom,
            cgr_dat_bond)
    end
  else
    val ←! cgr_dat (d_type k) (d_value k);
    match val with
    | None => Ok acc
    | Some val =>
        if bool_decide (val = ∅) then Ok acc else
        arity ←! of_option KeyError (cgrkeys !! d_type k);
        if bool_decide (arity = 2) then
          match d_atoms k with
          | [a1; a2] =>
              let b1 := <[ a1 := <[ a2 := val ]> (default ∅ (cgr_dat_bond !! a1)) ]>
                          cgr_dat_bond in
              let b2 := <[ a2 := <[ a1 := val ]> (default ∅ (b1 !! a2)) ]> b1 in
              Ok (cgr_dat_atom, b2)
          | _ => Raise ValueError
          end
        else
          a0 ←! index (d_atoms k) 0;
          Ok (<[ a0 := update (default ∅ (cgr_dat_atom !! a0)) val ]> cgr_dat_atom,
              cgr_dat_bond)
    end.

Definition dat_tables (m : molecule) : result (gmap Z attrs * gmap Z (gmap Z attrs)) :=
  for_each (collect_dat m) (CGR_DAT m) (∅, ∅).

(** [(a, x) > (b, y)] on tuples of a float and an integer. *)
Definition tuple_gt (ax bx : float * Z) : bool :=
  if PrimFloat.eqb ax.1 bx.1 then bx.2 <? ax.2 else PrimFloat.ltb bx.1 ax.1.



(** [max(items)]: the first item no later item is greater than. *)
Definition py_max (items : list (float * Z)) : result (float * Z) :=
  match items with
  | [] => Raise ValueError
  | x :: r => Ok (foldl (λ best item, if tuple_gt item best then item else best) x r)
  end.

(** [max((a[x].abundance, x) for x in a.isotopes)[1]] for
    [a = elements.symbol(sym)]. *)
Definition most_abundant (sym : string) : result Z :=
  tbl ←! isotopes sym;
  best ←! py_max tbl;
  Ok best.2.

(** [atom_dat[key] += d] *)
Definition add_float (key : string) (d : float) (atom_dat : attrs) : result attrs :=
  old ←! of_option KeyError (atom_dat !! key);
  match old with
  | VFloat f => Ok (<[ key := VFloat (f + d)%float ]> atom_dat)
  | _ => Raise TypeError
  end.

(** The state the assembler threads through its loops over atoms and
    bonds. [atom_dz] is iterated over at the end, so it keeps its order. *)
Record asm := {
  g : graph;
  atom_dz : list (Z * value);
  mdl_s_stereo : bool;
  mdl_p_stereo : bool;
}.

(** The atom's own keyword arguments of [add_node]. *)
Definition legacy_attrs (l : atom) : attrs :=
  list_to_map [("mark", VStr (a_mark l)); ("s_x", VFloat (a_x l));
               ("s_y", VFloat (a_y l)); ("s_z", VFloat (a_z l))].

(** An atom with a record: the charge defaults to the legacy one, and the
    coordinate shift, when there is one, is added to the legacy
    coordinates. *)
Definition merge_record (l : atom) (atom_dat : attrs) : result attrs :=
  let atom_dat :=
    if bool_decide (is_Some (atom_dat !! "sp_charge")) then atom_dat
    else update atom_dat (charge_dict (VInt (a_charge l)) (VInt (a_charge l))
                                      (VInt (a_charge l))) in
  if bool_decide (is_Some (atom_dat !! "p_x")) then
    d ←! add_float "p_x" (a_x l) atom_dat;
    d ←! add_float "p_y" (a_y l) d;
    add_float "p_z" (a_z l) d
  else
    Ok (update atom_dat
          (list_to_map [("p_x", VFloat (a_x l)); ("p_y", VFloat (a_y l));
                        ("p_z", VFloat (a_z l))])).

(** The threshold under which a product-side z switches the product-side
    stereo inference off. *)
Definition z_threshold : float := 0.0001%float.

(** The node of an atom with a record (merged already): a depth mark is
    put aside, the node is added, and the product-side z is tested. The
    keyword arguments may not repeat the atom's own; [p_z] holds a float. *)
Definition node_from_record (atom_map : Z) (l : atom) (atom_dat : attrs) (st : asm)
  : result asm :=
  let '(atom_dat, dz) :=
    match atom_dat !! "dz" with
    | Some v => (delete "dz" atom_dat, dict_set atom_map v (atom_dz st))
    | None => (atom_dat, atom_dz st)
    end in
  if bool_decide (Forall (λ key, atom_dat !! key = None) ["mark"; "s_x"; "s_y"; "s_z"])
  then
    p_z ←! of_option KeyError (atom_dat !! "p_z");
    match p_z with
    | VFloat z =>
        Ok {| g := add_node atom_map (update (legacy_attrs l) atom_dat) (g st);
              atom_dz := dz;
              mdl_s_stereo := mdl_s_stereo st;
              mdl_p_stereo := if PrimFloat.ltb z z_threshold then false else mdl_p_stereo st |}
    | _ => Raise TypeError
    end
  else Raise TypeError.

(** The node of an atom without a record. *)
Definition node_from_legacy (atom_map : Z) (l : atom) (st : asm) : asm :=
  {| g := add_node atom_map
            (update (legacy_attrs l)
               (list_to_map [("p_x", VFloat (a_x l)); ("p_y", VFloat (a_y l));
                             ("p_z", VFloat (a_z l));
                             ("s_charge", VInt (a_charge l));
                             ("p_charge", VInt (a_charge l));
                             ("sp_charge", VInt (a_charge l))]))
            (g st);
     atom_dz := atom_dz st;
     mdl_s_stereo := mdl_s_stereo st;
     mdl_p_stereo := mdl_p_stereo st |}.

(** The legacy element, unless a record gave one or it is a wildcard. *)
Definition legacy_element (atom_map : Z) (l : atom) (gr : graph) : result graph :=
  cur ←! of_option KeyError (node gr !! atom_map);
  if bool_decide (cur !! "element" = None) && negb (bool_decide (a_element l ∈ ["A"; "*"]))
  then set_node_attr atom_map "element" (VStr (a_element l)) gr
  else Ok gr.

(** The legacy isotope field, unless a record gave an isotope. *)
Definition legacy_isotope (atom_map : Z) (l : atom) (gr : graph) : result graph :=
  cur ←! of_option KeyError (node gr !! atom_map);
  if bool_decide (cur !! "isotope" = None) && negb (a_isotope l =? 0)
  then
    base ←! most_abundant (a_element l);
    set_node_attr atom_map "isotope" (VInt (base + a_isotope l)) gr
  else Ok gr.

(** The body of the loop over [enumerate(molecule['atoms'], start=1)]. *)
Definition assemble_atom (mapping : gmap Z Z) (cgr_dat_atom : gmap Z attrs)
    (st : asm) (kl : Z * atom) : result asm :=
  let '(k, l) := kl in
  atom_map ←! of_option KeyError (mapping !! k);
  st ←!
    match cgr_dat_atom !! k with
    | Some atom_dat =>
        atom_dat ←! merge_record l atom_dat;
        node_from_record atom_map l atom_dat st
    | None => Ok (node_from_legacy atom_map l st)
    end;
  gr ←! legacy_element atom_map l (g st);
  gr ←! legacy_isotope atom_map l gr;
  Ok {| g := gr;
        atom_dz := atom_dz st;
        mdl_s_stereo :=
          if negb (PrimFloat.eqb (a_z l) 0%float) then false else mdl_s_stereo st;
        mdl_p_stereo := mdl_p_stereo st |}.

(** The body of the loop over [molecule['bonds']]; the flags and [atom_dz]
    are only read here. *)
Definition assemble_bond (mapping : gmap Z Z) (cgr_dat_bond : gmap Z (gmap Z attrs))
    (st : asm) (gr : graph) (b : Z * Z * Z * Z) : result graph :=
  let '(k, l, m, s) := b in
  mk ←! of_option KeyError (mapping !! k);
  ml ←! of_option KeyError (mapping !! l);
  let gr :=
    match cgr_dat_bond !! k ≫= (λ d, d !! l) with
    | Some d => add_edge mk ml d gr
    | None => add_edge mk ml (list_to_map [("s_bond", VInt m); ("p_bond", VInt m);
                                            ("sp_bond", VInt m)]) gr
    end in
  if bool_decide (s ∈ [1; 6]) then
    let s_mark := if bool_decide (s = 1) then 1 else -1 in
    gr ←! (if mdl_s_stereo st then set_node_attr ml "s_dz" (VInt s_mark) gr else Ok gr);
    if mdl_p_stereo st && bool_decide (ml ∉ (atom_dz st).*1)
    then set_node_attr ml "p_dz" (VInt s_mark) gr
    else Ok gr
  else Ok gr.

(** The body of the closing loop over [atom_dz.items()]. *)
Definition apply_dz (gr : graph) (e : Z * value) : result graph :=
  if truthy e.2 then set_node_attr e.1 "p_dz" e.2 gr else Ok gr.

(** [enumerate(l, start=1)] *)
Definition enumerate1 {A} (l : list A) : list (Z * A) :=
  zip (seqZ 1 (Z.of_nat (length l))) l.

(** [__parse_molecule(molecule, mapping)] with [meta] and [colors] left at
    their default [None]: the graph carries no metadata and the closing
    [if colors:] block is skipped. *)
Definition parse_molecule (m : molecule) (mapping : gmap Z Z) : result graph :=
  '(cgr_dat_atom, cgr_dat_bond) ←! dat_tables m;
  st ←! for_each (assemble_atom mapping cgr_dat_atom) (enumerate1 (atoms m))
          {| g := empty_graph; atom_dz := []; mdl_s_stereo := true; mdl_p_stereo := true |};
  gr ←! for_each (assemble_bond mapping cgr_dat_bond st) (bonds m) (g st);
  if mdl_p_stereo st then for_each apply_dz (atom_dz st) gr else Ok gr.

(** The product-side z the atom loop derives and tests for the [k]-th
    atom [l]: there is one for an atom with a record only. *)
Definition recorded_product_z (cgr_dat_atom : gmap Z attrs) (k : Z) (l : atom)
  : option float :=
  atom_dat ← cgr_dat_atom !! k;
  match merge_record l atom_dat with
  | Ok atom_dat => match atom_dat !! "p_z" with
                   | Some (VFloat z) => Some z
                   | _ => None
                   end
  | Raise _ => None
  end.

End decoder.

(** *** The keys the decoders and the assembler write *)

(** The keys a dynamic-atom record can set. *)
Definition atom_record_keys : list string :=
  ["s_charge"; "p_charge"; "sp_charge"; "p_x"; "p_y"; "p_z"; "dz"].

(** The keys a record of the given type can set. *)
Definition record_keys (type : string) : list string :=
  if bool_decide (type ∈ ["dynbond"; "extrabond"]) then ["s_bond"; "p_bond"; "sp_bond"]
  else if bool_decide (type ∈ ["atomlist"; "atomnotlist"]) then ["element"]
  else if bool_decide (type ∈ ["atomhyb"; "dynatomhyb"]) then ["s_hyb"; "p_hyb"; "sp_hyb"]
  else if bool_decide (type ∈ ["atomneighbors"; "dynatomneighbors"])
       then ["s_neighbors"; "p_neighbors"; "sp_neighbors"]
  else if bool_decide (type = "isotope") then ["isotope"]
  else [].

(** The keys [merge_record] can set. *)
Definition merged_keys : list string :=
  ["s_charge"; "p_charge"; "sp_charge"; "p_x"; "p_y"; "p_z"].

(** The keys the loop over the atoms can write at a node. *)
Definition assembled_keys : list string :=
  atom_record_keys ++ ["mark"; "s_x"; "s_y"; "s_z"; "element"; "isotope"].

(** *** Atom-map resolution: [_get_reaction] *)

(** [[y['map'] for x in role for y in x['atoms']]] *)
Definition role_maps (role : list molecule) : list Z :=
  role ≫= (λ m, a_map <$> atoms m).

(** [max(l, default=0)] *)
Definition max_default0 (l : list Z) : Z :=
  match l with
  | [] => 0
  | x :: r => foldl Z.max x r
  end.

(** [[j or next(length) for j in maps]], threading the counter [length]. *)
Fixpoint fill_maps (maps : list Z) (length : Z) : list Z * Z :=
  match maps with
  | [] => ([], length)
  | j :: r =>
      if bool_decide (j ≠ 0)
      then let '(r', c) := fill_maps r length in (j :: r', c)
      else let '(r', c) := fill_maps r (length + 1) in (length :: r', c)
  end.

(** One round of the loop that maps the unmapped atoms of a role and
    rejects repeated numbers. *)
Definition map_role (maps : list Z) (length : Z) : result (list Z * Z) :=
  let '(maps, length) :=
    if bool_decide (0 ∈ maps) then fill_maps maps length else (maps, length) in
  if bool_decide (List.length maps ≠ List.length (remove_dups maps))
  then Raise MapError
  else Ok (maps, length).

(** [sorted(set(range(1, n)).difference(products).difference(substrats),
    reverse=True)] *)
Definition lost_maps (n : Z) (substrats products : list Z) : list Z :=
  reverse (filter (λ i, (i ∉ products) ∧ (i ∉ substrats)) (seqZ 1 (n - 1))).

(** [for i in lose: maps = [j if j < i else j - 1 for j in maps]] *)
Definition close_gaps (lose : list Z) (maps : list Z) : list Z :=
  foldl (λ maps i, (λ j, if bool_decide (j < i) then j else j - 1) <$> maps) maps lose.

(** The map numbers of both roles as [_get_reaction] settles them before
    it builds the graphs. *)
Definition resolve_maps (remap : bool) (substrats products : list molecule)
  : result (list Z * list Z) :=
  let ms := role_maps substrats in
  let mp := role_maps products in
  let length := Z.max (max_default0 mp) (max_default0 ms) + 1 in
  '(ms, length) ←! map_role ms length;
  '(mp, length) ←! map_role mp length;
  if remap then
    let lose := lost_maps length ms mp in
    Ok (close_gaps lose ms, close_gaps lose mp)
  else Ok (ms, mp).

(** What the loop over the lost numbers makes of one map number. *)
Definition shifted (lose : list Z) (j : Z) : Z :=
  foldl (λ j i, if bool_decide (j < i) then j else j - 1) j lose.

(** The numbers the unmapped atoms of a role were given: the entries of
    [after] at the places where [before] holds 0. *)
Definition assigned (before after : list Z) : list Z :=
  zip before after ≫= (λ jj, if bool_decide (jj.1 = 0) then [jj.2] else []).

(** How many of the numbers [used] lie between 1 and [j]. *)
Definition rank (used : list Z) (j : Z) : Z :=
  Z.of_nat (List.length (filter (λ i, i ∈ used) (seqZ 1 j))).

(** [{x: y for x, y in enumerate(l, start=1)}] *)
Definition remapped (l : list Z) : gmap Z Z := list_to_map (enumerate1 l).

(** The identifiers [_get_molecule] gives the atoms of a molecule: their
    places when [remap] is set; their map numbers otherwise, the unmapped
    atoms numbered from above the largest map number. [max] of no atom
    raises, and no number is rejected. *)
Definition molecule_maps (remap : bool) (m : molecule) : result (list Z) :=
  match a_map <$> atoms m with
  | [] => Raise ValueError
  | x :: r =>
      let length := foldl Z.max x r + 1 in
      Ok (if remap then seqZ 1 (Z.of_nat (List.length (atoms m)))
          else (fill_maps (x :: r) length).1)
  end.

Section reader.
Context `{!Externals}.

(** The loop over the molecules of one role: each takes its slice of the
    role's map numbers. *)
Fixpoint parse_role (role : list molecule) (maps : list Z) : result (list graph) :=
  match role with
  | [] => Ok []
  | j :: r =>
      let atom_len := List.length (atoms j) in
      gr ←! parse_molecule j (remapped (take atom_len maps));
      rest ←! parse_role r (drop atom_len maps);
      Ok (gr :: rest)
  end.

(** [_get_reaction] for a reaction without colours; the metadata, which is
    copied into the container as it is, is left out. The result holds the
    reactant graphs and the product graphs. *)
Definition get_reaction (remap : bool) (substrats products : list molecule)
  : result (list graph * list graph) :=
  '(ms, mp) ←! resolve_maps remap substrats products;
  gs ←! parse_role substrats ms;
  gp ←! parse_role products mp;
  Ok (gs, gp).

(** [_get_molecule] for a molecule without colours; the metadata is left
    out. *)
Definition get_molecule (remap : bool) (m : molecule) : result graph :=
  ids ←! molecule_maps remap m;
  parse_molecule m (remapped ids).

End reader.

(** *** The encoder *)

(** A record for the data-group section of the output. *)
Record sgroup := {
  sg_value : string;
  sg_type : string;
  sg_atoms : list Z;
}.

(** ['%s' % rep.get(x, x)] with [rep = {None: 0}] *)
Definition rep_str (x : option Z) : string := str_int (default 0 x).

Definition ways : list (option Z) := [None; Some 0; Some 1; Some 2; Some 3; Some 4; Some 9].

(** The entries [__to_cgr] stores: the bond code for the legacy block,
    the record value and the record type ([None] for [False]). *)
Definition to_cgr : list (option Z * option Z * (string * option string * option string)) :=
  '(x, y) ← list_prod ways ways;
  [(x, y,
    if bool_decide (x ≠ y) then ("8", Some (rep_str x +:+ ">" +:+ rep_str y), Some "dynbond")
    else if bool_decide (x = Some 9) then ("8", Some "s", Some "extrabond")
    else (rep_str x, None, None))].

(** [self.__cgr[s][p]] *)
Definition cgr_lookup (s p : option Z) : result (string * option string * option string) :=
  of_option KeyError ((λ ie, ie.2.2) <$> list_find (λ e, e.1 = (s, p)) to_cgr).

(** What the loop over the edges adds for one edge whose endpoints were
    renumbered to [i] and [l]: the records it appends and the bond line. *)
Definition encode_bond (i l : Z) (s_bond p_bond : option Z)
  : result (list sgroup * (Z * Z * string)) :=
  '(bond, cbond, btype) ←! cgr_lookup s_bond p_bond;
  Ok (match btype, cbond with
      | Some t, Some v => [{| sg_value := v; sg_type := t; sg_atoms := [i; l] |}]
      | _, _ => []
      end, (i, l, bond)).

(** The charge of one side of an atom as the graph holds it. *)
Inductive charge : Type :=
| CNone
| CInt (z : Z)
| CList (l : list Z).

#[global] Instance charge_eq_dec : EqDecision charge.
Proof. solve_decision. Defined.

(** [__charge(s, p)]: the charge for the legacy block ([None] when the
    graph has none and the format keeps it) and the dynamic-atom record. *)
Definition encode_charge (is_mdl : bool) (s p : charge)
  : result (option Z * option (string * string)) :=
  let legacy (c : option Z) :=
    if is_mdl then Some (default 0 (c ≫= (λ c, toMDL !! c))) else c in
  match s with
  | CList sl =>
      match sl with
      | [] => Raise IndexError
      | c :: s1 =>
          meta ←!
            (if bool_decide (p = CList sl) then
               Ok (match s1 with
                   | [] => None
                   | _ => Some ("c0" +:+ join "," (str_int <$> s1), "dynatom")
                   end)
             else match p with
                  | CList [] => Raise IndexError
                  | CList (p0 :: p1) =>
                      if bool_decide (c ≠ p0) then
                        Ok (Some ("c" +:+ join ","
                                    (fmt_plus_d (p0 - c) ::
                                     ((λ xy, fmt_plus_d (xy.1 - c) +:+ "," +:+ fmt_plus_d (xy.2 - c))
                                        <$> filter (λ xy, xy.1 ≠ xy.2) (zip s1 p1))),
                                  "dynatom"))
                      else Ok None
                  | _ => Raise TypeError
                  end);
          Ok (legacy (Some c), meta)
      end
  | CInt sz =>
      meta ←!
        match p with
        | CInt pz => Ok (if bool_decide (pz ≠ sz)
                         then Some ("c" +:+ fmt_plus_d (pz - sz), "dynatom") else None)
        | _ => Raise TypeError
        end;
      Ok (legacy (Some sz), meta)
  | CNone =>
      meta ←! match p with CNone => Ok None | _ => Raise TypeError end;
      Ok (legacy None, meta)
  end.

(** The records the loop over the nodes appends for the charge of the
    [n]-th node. *)
Definition encode_atom_charge (is_mdl : bool) (n : Z) (s p : charge)
  : result (option Z * list sgroup) :=
  '(c, meta) ←! encode_charge is_mdl s p;
  Ok (c, match meta with
         | Some (v, t) => [{| sg_value := v; sg_type := t; sg_atoms := [n] |}]
         | None => []
         end).

(** The bond orders the table of [__to_cgr] tells apart when they are read
    back: no bond, and the orders 1, 2, 3, 4 and 9. *)
Definition proper_orders : list (option Z) :=
  [None; Some 1; Some 2; Some 3; Some 4; Some 9].

(** The attributes of an edge whose orders on the two sides are [x] and
    [y]: a side without a bond has no key, and the pair is a single value
    when the bond does not change. *)
Definition bond_attrs (x y : option Z) : attrs :=
  let v (o : option Z) := from_option VInt VNone o in
  list_to_map
    (("sp_bond", if bool_decide (x = y) then v x else VTuple [v x; v y])
       :: from_option (λ z, [("s_bond", VInt z)]) [] x
       ++ from_option (λ z, [("p_bond", VInt z)]) [] y).

(** *** [__get_state] *)

(** The truth value of a mark in a condition. *)
Definition label_truthy (x : label) : bool := truthy (label_value x).

(** ['%s' % (x or 'n')], which is also [x and str(x) or 'n']. *)
Definition label_text (x : label) : string :=
  match x with
  | LInt z => if label_truthy x then str_int z else "n"
  | LStr s => if label_truthy x then s else "n"
  | LNone => "n"
  end.

(** The value of a record of [__get_state]: a text it built, or the mark
    itself when the two sides hold the same. *)
Inductive state_value : Type :=
| SText (s : string)
| SMark (x : label).

(** ['%s' % value], the form in which the record is written. *)
Definition state_text (v : state_value) : string :=
  match v with
  | SText s => s
  | SMark (LInt z) => str_int z
  | SMark (LStr s) => s
  | SMark LNone => "None"
  end.

Definition state_truthy (v : state_value) : bool :=
  match v with
  | SText s => negb (String.eqb s "")
  | SMark x => label_truthy x
  end.

(** [__get_state(s, p, t1, t2)] for marks that are no lists: the value and
    the type of the record, [None] standing for the false value that is
    returned in place of a record. *)
Definition get_state (s p : label) (t1 t2 : string) : option (state_value * string) :=
  let '(val, type) :=
    if bool_decide (s ≠ p)
    then (SText (label_text s +:+ ">" +:+ label_text p), t2)
    else (SMark s, t1) in
  if state_truthy val then Some (val, type) else None.

(** *** The property lines: [_collect] and [_get_collected] *)

(** A key of [self.__prop]: columns 3 to 10 of an [M  ALS] or [M  ISO]
    line, or the number of a data group. *)
Inductive pkey : Set :=
| KText (s : string)
| KNum (z : Z).

#[global] Instance pkey_eq_dec : EqDecision pkey.
Proof. solve_decision. Defined.

(** A value of [self.__prop]: a dictionary that holds some of the keys
    [atoms], [type] and [value]. *)
Record entry := {
  e_atoms : option (list Z);
  e_type : option string;
  e_value : option dat_value;
}.

Definition empty_entry : entry := {| e_atoms := None; e_type := None; e_value := None |}.

(** [self.__prop], in the order in which its keys came in. *)
Definition table : Type := list (pkey * entry).

Fixpoint prop_get (k : pkey) (t : table) : option entry :=
  match t with
  | [] => None
  | (k', v) :: r => if bool_decide (k' = k) then Some v else prop_get k r
  end.

Fixpoint prop_set (k : pkey) (v : entry) (t : table) : table :=
  match t with
  | [] => [(k, v)]
  | (k', v') :: r =>
      if bool_decide (k' = k) then (k, v) :: r else (k', v') :: prop_set k v r
  end.

Definition prop_del (k : pkey) (t : table) : table := filter (λ e, e.1 ≠ k) t.

(** [int(line[7:10]) in self.__prop], the second half of the test of the
    branches for [M  SAL], [M  SDT] and [M  SED]: the number of the group
    when it is declared. *)
Definition declared (line : string) (prop : table) : result (option Z) :=
  k ←! int (slice 7 10 line);
  Ok (match prop_get (KNum k) prop with Some _ => Some k | None => None end).

(** [_collect(line)]: the table after the call. *)
Definition collect (line : string) (prop : table) : result table :=
  if startswith line "M  ALS" then
    a ←! int (slice 7 10 line);
    c ←! char_at 14 line;
    n ←! int (slice 10 13 line);
    Ok (prop_set (KText (slice 3 10 line))
          {| e_atoms := Some [a];
             e_type := Some (if Ascii.eqb c "F" then "atomlist" else "atomnotlist");
             e_value := Some (DList ((λ x, strip (slice (16 + x * 4) (20 + x * 4) line))
                                       <$> seq 0 (Z.to_nat n))) |}
          prop)
  else if startswith line "M  ISO" then
    a ←! int (slice 10 13 line);
    Ok (prop_set (KText (slice 3 10 line))
          {| e_atoms := Some [a]; e_type := Some "isotope";
             e_value := Some (DStr (strip (slice 14 17 line))) |}
          prop)
  else if startswith line "M  STY" then
    c ←! char_at 8 line;
    n ←! int (String c "");
    for_each (λ prop i,
                if contains "DAT" (slice (10 + 8 * i) (17 + 8 * i) line) then
                  k ←! int (slice (10 + 8 * i) (13 + 8 * i) line);
                  Ok (prop_set (KNum k) empty_entry prop)
                else Ok prop)
             (seq 0 (Z.to_nat n)) prop
  else
    sal ←! (if startswith line "M  SAL" then declared line prop else Ok None);
    match sal with
    | Some k =>
        n ←! int (slice 10 13 line);
        key ←! map_result (λ i, int (slice (14 + 4 * i) (17 + 4 * i) line))
                 (seq 0 (Z.to_nat n));
        old ←! of_option KeyError (prop_get (KNum k) prop);
        Ok (prop_set (KNum k)
              {| e_atoms := Some (sorted key); e_type := e_type old; e_value := e_value old |}
              prop)
    | None =>
    sdt ←! (if startswith line "M  SDT" then declared line prop else Ok None);
    match sdt with
    | Some k =>
        key ←! of_option IndexError (last (words line));
        let key := lower key in
        if bool_decide (cgrkeys !! key = None) then Ok (prop_del (KNum k) prop)
        else
          old ←! of_option KeyError (prop_get (KNum k) prop);
          Ok (prop_set (KNum k)
                {| e_atoms := e_atoms old; e_type := Some key; e_value := e_value old |}
                prop)
    | None =>
    sed ←! (if startswith line "M  SED" then declared line prop else Ok None);
    match sed with
    | Some k =>
        old ←! of_option KeyError (prop_get (KNum k) prop);
        Ok (prop_set (KNum k)
              {| e_atoms := e_atoms old; e_type := e_type old;
                 e_value := Some (DStr (lower (remove_char "/" (strip (slice_from 10 line))))) |}
              prop)
    | None => Ok prop
    end end end.

(** [_get_collected()]: the list it returns and the table after the
    call. *)
Definition get_collected (prop : table) : result (list entry * table) :=
  out ←! for_each (λ out i,
                     atoms ←! of_option KeyError (e_atoms i);
                     type ←! of_option KeyError (e_type i);
                     arity ←! of_option KeyError (cgrkeys !! type);
                     Ok (if bool_decide (Z.of_nat (List.length atoms) = arity)
                         then out ++ [i] else out))
            prop.*2 [];
  Ok (out, []).

(** A collected entry that holds all three keys, as [__parse_molecule]
    reads it. *)
Definition entry_dat (e : entry) : option dat :=
  a ← e_atoms e; t ← e_type e; v ← e_value e;
  Some {| d_atoms := a; d_type := t; d_value := v |}.

(** *** The data-group lines of [__get_mol] *)

(** The line that declares the groups of the [j]-th block of eight, of
    which [sty] are there. *)
Definition sty_line (j sty : Z) : string :=
  "M  STY  " +:+ str_int sty +:+ " "
    +:+ join " " ((λ x, fmt_3d (x + j * 8) +:+ " DAT") <$> seqZ 1 sty) +:+ nl.

Definition sal_line (i : Z) (atoms : list Z) : string :=
  "M  SAL " +:+ fmt_3d i +:+ fmt_3d (Z.of_nat (List.length atoms)) +:+ " "
    +:+ join " " (fmt_3d <$> atoms) +:+ nl.

Definition sdt_line (i : Z) (type : string) : string :=
  "M  SDT " +:+ fmt_3d i +:+ " " +:+ type +:+ nl.

Definition sed_line (i : Z) (value : string) : string :=
  "M  SED " +:+ fmt_3d i +:+ " " +:+ value +:+ nl.

(** The line of an isotope of the list [extended]. *)
Definition iso_line (atom value : Z) : string :=
  "M  ISO  1 " +:+ fmt_3d atom +:+ " " +:+ fmt_3d value +:+ nl.

(** The types of the records that [get_formatted_cgr] makes of stereo
    marks: the two of [__atomprop] for the atoms, and the two for the
    bonds. *)
Definition stereo_types : list string :=
  ["atomstereo"; "dynatomstereo"; "bondstereo"; "dynbondstereo"].

(** What [_collect] makes of the text of an [M  SED] line. *)
Definition read_value (value : string) : string :=
  lower (remove_char "/" (strip value)).

End CGRrw.

(** ** Part III. [CGRtools/containers/cgr.py] *)

Module CGR.
Import Py.

(** *** Attributes and the graph substrate *)

(** Modelled from the spec: the attributes module is not part of the
    sources at hand. One side of an atom (AtomState): element, isotope,
    charge and multiplicity, the stereo mark, and the two classification
    fields that only the classification algorithm fills. *)
Record Atom := {
  element : string;
  isotope : option Z;
  charge : Z;
  multiplicity : option Z;
  stereo : option Z;
  neighbors : option Z;
  hybridization : option Z;
}.

(** Modelled from the spec: one side of a bond (BondState): its order,
    [None] when the bond is absent on that side, and its stereo mark. *)
Record Bond := {
  order : option Z;
  bond_stereo : option Z;
}.

(** Modelled from the spec: a dual-state attribute holds a reagent view
    and a product view. [x.attr] reads the reagent view and [x.p_attr] the
    product view. *)
Record Dyn (T : Type) := {
  reagent : T;
  product : T;
}.
Global Arguments reagent {T} d.
Global Arguments product {T} d.

Abbreviation DynAtom := (Dyn Atom).
Abbreviation DynBond := (Dyn Bond).

#[global] Instance Atom_eq_dec : EqDecision Atom.
Proof. solve_decision. Defined.
#[global] Instance Bond_eq_dec : EqDecision Bond.
Proof. solve_decision. Defined.
#[global] Instance Dyn_eq_dec {T} `{EqDecision T} : EqDecision (Dyn T).
Proof. solve_decision. Defined.

(** [x] in a condition, for an order or a mark. *)
Definition nonzero (x : option Z) : bool :=
  match x with
  | Some z => negb (z =? 0)
  | None => false
  end.

(** Modelled from the spec: the graph substrate, with the node table, the
    adjacency index and the cache of derived results that
    [flush_cache] empties. *)
Record Graph (A B : Type) := {
  _node : list (Z * A);
  _adj : list (Z * list (Z * B));
  cache : gmap string (list Z);
}.
Global Arguments _node {A B} g.
Global Arguments _adj {A B} g.
Global Arguments cache {A B} g.

Abbreviation CGRContainer := (Graph DynAtom DynBond).
Abbreviation MoleculeContainer := (Graph Atom Bond).

Section substrate.
Context {A B : Type}.

Definition empty : Graph A B := {| _node := []; _adj := []; cache := ∅ |}.

(** Modelled from the spec: [self.flush_cache()], the invalidation of the
    cached derived results, is defined in the base container. *)
Definition flush_cache (gr : Graph A B) : Graph A B :=
  {| _node := _node gr; _adj := _adj gr; cache := ∅ |}.

(** Modelled from the spec: [self.copy()] is defined in the base
    container; it gives a clone, a new container with the same nodes and
    edges and no derived results yet. *)
Definition copy (gr : Graph A B) : Graph A B :=
  {| _node := _node gr; _adj := _adj gr; cache := ∅ |}.

(** [self._adj[u][v]] *)
Definition adj_get (gr : Graph A B) (u v : Z) : option B :=
  dict_get u (_adj gr) ≫= dict_get v.

(** [self.edges(data=True)] of the graph library: every edge once, from
    the endpoint that comes first in the node order. *)
Fixpoint edges_from (adj : list (Z * list (Z * B))) (seen : list Z) : list (Z * Z * B) :=
  match adj with
  | [] => []
  | (n, nbrs) :: r =>
      ((λ e, (n, e.1, e.2)) <$> filter (λ e, e.1 ∉ seen) nbrs) ++ edges_from r (n :: seen)
  end.

Definition edges (gr : Graph A B) : list (Z * Z * B) := edges_from (_adj gr) [].

(** Adding a node, as the graph library does it: a new node gets an empty
    neighbourhood, a node that is there takes the new attributes. *)
Definition add_node (n : Z) (a : A) (gr : Graph A B) : Graph A B :=
  {| _node := dict_set n a (_node gr);
     _adj := match dict_get n (_adj gr) with
             | Some _ => _adj gr
             | None => dict_set n [] (_adj gr)
             end;
     cache := cache gr |}.

(** Adding an edge creates the endpoints that are missing, with the
    attributes [fresh] the substrate gives a node of its own making. *)
Definition add_edge (fresh : A) (u v : Z) (b : B) (gr : Graph A B) : Graph A B :=
  let ensure n gr :=
    match dict_get n (_node gr) with Some _ => gr | None => add_node n fresh gr end in
  let gr := ensure v (ensure u gr) in
  let adj1 := dict_set u (dict_set v b (default [] (dict_get u (_adj gr)))) (_adj gr) in
  let adj2 := dict_set v (dict_set u b (default [] (dict_get v adj1))) adj1 in
  {| _node := _node gr; _adj := adj2; cache := cache gr |}.

(** [self.remove_node(n)] of the graph library. *)
Definition remove_node (n : Z) (gr : Graph A B) : result (Graph A B) :=
  match dict_get n (_node gr) with
  | None => Raise NetworkXError
  | Some _ =>
      Ok {| _node := dict_del n (_node gr);
            _adj := (λ e, (e.1, dict_del n e.2)) <$> dict_del n (_adj gr);
            cache := cache gr |}
  end.

(** The graph without the nodes [removed] and without the edges at them. *)
Definition without (removed : list Z) (gr : Graph A B) : Graph A B :=
  {| _node := filter (λ e, e.1 ∉ removed) (_node gr);
     _adj := (λ e, (e.1, filter (λ mb, mb.1 ∉ removed) e.2))
               <$> filter (λ e, e.1 ∉ removed) (_adj gr);
     cache := cache gr |}.

(** The invariant the substrate keeps: the nodes are distinct, the
    adjacency index has an entry for every node, in the same order, the
    neighbours of a node are distinct nodes, and an edge is entered under
    both of its endpoints. *)
Definition well_formed `{EqDecision B} (gr : Graph A B) : bool :=
  bool_decide (NoDup (_node gr).*1)
  && bool_decide ((_adj gr).*1 = (_node gr).*1)
  && forallb (λ e,
       bool_decide (NoDup e.2.*1)
       && forallb (λ mb,
            bool_decide (mb.1 ∈ (_node gr).*1)
            && bool_decide (adj_get gr mb.1 e.1 = Some mb.2)) e.2)
       (_adj gr).

End substrate.

(** Whether the edge [e] joins [x] and [y], in either direction. *)
Definition joins {T} (e : Z * Z * T) (x y : Z) : Prop :=
  (e.1.1 = x ∧ e.1.2 = y) ∨ (e.1.1 = y ∧ e.1.2 = x).

#[global] Instance joins_dec {T} (e : Z * Z * T) (x y : Z) : Decision (joins e x y).
Proof. unfold joins. apply _. Defined.

(** *** [CGRContainer] *)

Section container.

(** The comparisons [!=] of two atom views and of two bond views belong to
    the attribute classes; [get_implicit_h] is the valence function of the
    periodic table; [fresh_atom] and [fresh_dyn] are the attributes a
    molecule and a dual-state graph give a node they create for an edge. *)
Variable atom_ne : Atom → Atom → bool.
Variable bond_ne : Bond → Bond → bool.
Variable get_implicit_h : Atom → list Z → Z.
Variable fresh_atom : Atom.

Definition dynamic_atom (with_stereo : bool) (atom : DynAtom) : bool :=
  atom_ne (reagent atom) (product atom)
  || with_stereo && bool_decide (stereo (reagent atom) ≠ stereo (product atom)).

Definition dynamic_bond (with_stereo : bool) (bond : DynBond) : bool :=
  bond_ne (reagent bond) (product bond)
  || with_stereo && bool_decide (bond_stereo (reagent bond) ≠ bond_stereo (product bond)).

Definition get_center_atoms (with_stereo : bool) (self : CGRContainer) : list Z :=
  let nodes : gset Z :=
    foldl (λ nodes na, if dynamic_atom with_stereo na.2 then nodes ∪ {[ na.1 ]} else nodes)
          ∅ (_node self) in
  let nodes : gset Z :=
    foldl (λ nodes nmb,
             if dynamic_bond with_stereo nmb.2 then nodes ∪ {[ nmb.1.1; nmb.1.2 ]} else nodes)
          nodes (edges self) in
  elements nodes.

(** [decompose]: the pair of the reagent molecule and the product molecule. *)
Definition decompose (self : CGRContainer) : MoleculeContainer * MoleculeContainer :=
  let reagents := foldl (λ gr na, add_node na.1 (reagent na.2) gr) empty (_node self) in
  let products := foldl (λ gr na, add_node na.1 (product na.2) gr) empty (_node self) in
  let nmb := edges self in
  let reagents :=
    foldl (λ gr e, add_edge fresh_atom e.1.1 e.1.2 (reagent e.2) gr) reagents
          (filter (λ e, nonzero (order (reagent e.2)) = true) nmb) in
  let products :=
    foldl (λ gr e, add_edge fresh_atom e.1.1 e.1.2 (product e.2) gr) products
          (filter (λ e, nonzero (order (product e.2)) = true) nmb) in
  (reagents, products).

(** One of the two molecules of [decompose], for the views [va] of the
    atoms and [vb] of the bonds. *)
Definition side_molecule (va : DynAtom → Atom) (vb : DynBond → Bond)
    (self : CGRContainer) : MoleculeContainer :=
  foldl (λ gr e, add_edge fresh_atom e.1.1 e.1.2 (vb e.2) gr)
        (foldl (λ gr na, add_node na.1 (va na.2) gr) empty (_node self))
        (filter (λ e, nonzero (order (vb e.2)) = true) (edges self)).

(** The update of one side's hybridization class by one bond order:
    1 is sp3, 2 is sp2, 3 is sp, 4 is aromatic. *)
Definition hyb_step (hybridization : Z) (order : Z) : Z :=
  if bool_decide (hybridization ∉ [3; 4]) then
    if bool_decide (order = 4) then 4
    else if bool_decide (order = 3) then 3
    else if bool_decide (order = 2) then
      if bool_decide (hybridization = 2) then 3 else 2
    else hybridization
  else hybridization.

(** The class a side ends with when the bonds of an atom are scanned in
    the given order. *)
Definition classify (orders : list Z) : Z := foldl hyb_step 1 orders.

(** The orders on one side of the bonds of an atom that count for that
    side, in the order of the scan. *)
Definition side_orders (side : DynBond → Bond) (nbrs : list (Z * DynBond)) : list Z :=
  omap (λ jb, if nonzero (order (side jb.2)) then order (side jb.2) else None) nbrs.

(** The marks of one side while the bonds of an atom are scanned. *)
Definition side_step (isnth : bool) (o : option Z) (nh : Z * Z) : Z * Z :=
  if nonzero o
  then ((if isnth then nh.1 + 1 else nh.1), hyb_step nh.2 (default 0 o))
  else nh.

(** Modelled from the spec: [g._node[j] != 'H'] compares the attribute
    object of the neighbour, not its element, with a string. The class of
    that object is not part of the sources at hand; it holds the two views
    of an atom and is no string, so the two differ whatever the element
    is, and the test holds for every neighbour, a hydrogen too. *)
Definition not_hydrogen (atom : DynAtom) : bool := true.

(** The inner loop of [reset_query_marks] over [g._adj[i].items()]; the
    state is [((neighbors, hybridization), (p_neighbors, p_hybridization))]. *)
Definition scan_bond (gr : CGRContainer) (st : (Z * Z) * (Z * Z)) (jb : Z * DynBond)
  : result ((Z * Z) * (Z * Z)) :=
  other ←! of_option KeyError (dict_get jb.1 (_node gr));
  let isnth := not_hydrogen other in
  Ok (side_step isnth (order (reagent jb.2)) st.1,
      side_step isnth (order (product jb.2)) st.2).

Definition set_marks (atom : DynAtom) (st : (Z * Z) * (Z * Z)) : DynAtom :=
  let side (a : Atom) (nh : Z * Z) :=
    {| element := element a; isotope := isotope a; charge := charge a;
       multiplicity := multiplicity a; stereo := stereo a;
       neighbors := Some nh.1; hybridization := Some nh.2 |} in
  {| reagent := side (reagent atom) st.1; product := side (product atom) st.2 |}.

(** The outer loop of [reset_query_marks] over [g._node.items()]. *)
Definition reset_atom (gr : CGRContainer) (ia : Z * DynAtom) : result (Z * DynAtom) :=
  nbrs ←! of_option KeyError (dict_get ia.1 (_adj gr));
  st ←! for_each (scan_bond gr) nbrs ((0, 1), (0, 1));
  Ok (ia.1, set_marks ia.2 st).

Definition reset_marks (gr : CGRContainer) : result CGRContainer :=
  nodes ←! map_result (reset_atom gr) (_node gr);
  Ok {| _node := nodes; _adj := _adj gr; cache := cache gr |}.

(** [reset_query_marks(copy)]: what the call returns ([None] or the graph)
    and the receiver after the call. *)
Definition reset_query_marks (copy_flag : bool) (self : CGRContainer)
  : result (option CGRContainer * CGRContainer) :=
  let gr := if copy_flag then copy self else self in
  gr ←! reset_marks gr;
  if copy_flag then Ok (Some gr, self)
  else Ok (None, flush_cache gr).

(** Modelled from the spec: [self.atom(n)] is defined in the base
    container; it gives the two views of a node. *)
Definition atom (self : CGRContainer) (n : Z) : result (Atom * Atom) :=
  a ←! of_option KeyError (dict_get n (_node self));
  Ok (reagent a, product a).

(** [any(self_n[x].get(side) for x in h)], which stops at the first hit. *)
Fixpoint any_bond (side : DynBond → option Z) (self_n : list (Z * DynBond)) (h : list Z)
  : result bool :=
  match h with
  | [] => Ok false
  | x :: r =>
      b ←! of_option KeyError (dict_get x self_n);
      if nonzero (side b) then Ok true else any_bond side self_n r
  end.

(** The orders on one side of the bonds of an atom to the neighbours
    outside [h]. *)
Definition side_bonds (side : DynBond → option Z) (self_n : list (Z * DynBond)) (h : list Z)
  : list Z :=
  (λ xy, default 0 (side xy.2))
    <$> filter (λ xy, (xy.1 ∉ h) ∧ nonzero (side xy.2) = true) self_n.

(** [explicit[m].append(n)] on a [defaultdict(list)] *)
Definition append_to (m n : Z) (explicit : list (Z * list Z)) : list (Z * list Z) :=
  dict_set m (default [] (dict_get m explicit) ++ [n]) explicit.

(** The first loop of [implicify_hydrogens]: the hydrogens of every heavy
    atom, and the hydrogens bound to a hydrogen. *)
Definition collect_hydrogens (self : CGRContainer)
    (acc : list (Z * list Z) * gset Z) (na : Z * DynAtom)
  : result (list (Z * list Z) * gset Z) :=
  if String.eqb (element (reagent na.2)) "H" then
    nbrs ←! of_option NetworkXError (dict_get na.1 (_adj self));
    for_each (λ acc m,
                other ←! of_option KeyError (dict_get m (_node self));
                if negb (String.eqb (element (reagent other)) "H")
                then Ok (append_to m na.1 acc.1, acc.2)
                else Ok (acc.1, acc.2 ∪ {[ m ]} ∪ {[ na.1 ]}))
             nbrs.*1 acc
  else Ok acc.

(** The second loop: which hydrogens are kept and which are listed for
    removal. *)
Definition schedule (self : CGRContainer)
    (acc : gset Z * list Z) (nh : Z * list Z) : result (gset Z * list Z) :=
  let '(n, h) := nh in
  '(s_atom, p_atom) ←! atom self n;
  self_n ←! of_option KeyError (dict_get n (_adj self));
  let s_implicit := get_implicit_h s_atom (side_bonds (λ b, order (reagent b)) self_n h) in
  let p_implicit := get_implicit_h p_atom (side_bonds (λ b, order (product b)) self_n h) in
  let keep := Ok (acc.1 ∪ list_to_set h, acc.2) in
  s_any ←! (if s_implicit =? 0 then any_bond (λ b, order (reagent b)) self_n h else Ok false);
  if s_any then keep else
  p_any ←! (if p_implicit =? 0 then any_bond (λ b, order (product b)) self_n h else Ok false);
  if p_any then keep else Ok (acc.1, acc.2 ++ h).

(** [implicify_hydrogens]: the number of removed hydrogens and the
    receiver after the call. *)
Definition implicify_hydrogens (self : CGRContainer) : result (Z * CGRContainer) :=
  '(explicit, hydrogens) ←! for_each (collect_hydrogens self) (_node self) ([], ∅);
  '(hydrogens, for_remove) ←! for_each (schedule self) explicit (hydrogens, []);
  '(gr, c) ←! for_each (λ gc x,
                          if bool_decide (x ∉ hydrogens)
                          then gr ←! remove_node x gc.1; Ok (gr, gc.2 + 1)
                          else Ok gc)
                       for_remove (self, 0);
  Ok (c, flush_cache gr).

(** Modelled from the spec: [self._adj[atom]] in [atom_implicit_h], where
    [atom] has just been rebound to the attribute object of the node. A
    dictionary hashes the key it is asked for before it compares it with
    its own keys; the attribute object, whose class is not part of the
    sources at hand, is a mutable mapping and has no hash, so the look-up
    raises [TypeError] whatever the adjacency index holds. *)
Definition adj_of_attributes (self : CGRContainer) (a : DynAtom)
  : result (list (Z * DynBond)) :=
  Raise TypeError.

Definition atom_implicit_h (self : CGRContainer) (n : Z) : result (Z * Z) :=
  a ←! of_option KeyError (dict_get n (_node self));
  nbrs ←! adj_of_attributes self a;
  let ri := get_implicit_h (reagent a) ((λ x, default 0 (order (reagent x))) <$> nbrs.*2) in
  nbrs ←! adj_of_attributes self a;
  let pi := get_implicit_h (product a) ((λ x, default 0 (order (product x))) <$> nbrs.*2) in
  Ok (ri, pi).

(** [zip_longest(repeat(1, si), repeat(1, pi))] *)
Definition padded_marks (si pi : Z) : list (option Z * option Z) :=
  (λ i, (if bool_decide (i < si) then Some 1 else None,
         if bool_decide (i < pi) then Some 1 else None))
    <$> seqZ 0 (Z.max si pi).

(** Modelled from the spec: [self.add_bond(n, self.add_atom(H()), s, p)]
    adds one hydrogen under the next free identifier and binds it to [n]
    with the given order on each side. *)
Definition add_hydrogen (fresh_dyn : DynAtom) (n : Z) (sp : option Z * option Z)
    (gr : CGRContainer) : CGRContainer :=
  let h := {| element := "H"; isotope := None; charge := 0; multiplicity := None;
              stereo := None; neighbors := None; hybridization := None |} in
  let m := foldl Z.max 0 (_node gr).*1 + 1 in
  add_edge fresh_dyn n m
    {| reagent := {| order := sp.1; bond_stereo := None |};
       product := {| order := sp.2; bond_stereo := None |} |}
    (add_node m {| reagent := h; product := h |} gr).

(** [explicify_hydrogens]: the number of added atoms and the receiver
    after the call. *)
Definition explicify_hydrogens (fresh_dyn : DynAtom) (self : CGRContainer)
  : result (Z * CGRContainer) :=
  tmp ←! for_each (λ tmp na,
                     if negb (String.eqb (element (reagent na.2)) "H") then
                       '(si, pi) ←! atom_implicit_h self na.1;
                       if negb (si =? 0) || negb (pi =? 0)
                       then Ok (tmp ++ ((λ sp, (na.1, sp)) <$> padded_marks si pi))
                       else Ok tmp
                     else Ok tmp)
                  (_node self) [];
  let gr := foldl (λ gr nsp, add_hydrogen fresh_dyn nsp.1 nsp.2 gr) self tmp in
  Ok (Z.of_nat (length tmp), flush_cache gr).




(** A node of the graph that is a hydrogen. *)
Definition hydrogen_of (self : CGRContainer) (x : Z) : Prop :=
  ∃ a, (x, a) ∈ _node self ∧ element (reagent a) = "H".

(** *** Calling the algorithms with or without a [copy] argument *)

Inductive algorithm : Set :=
| ResetQueryMarks
| ImplicifyHydrogens
| ExplicifyHydrogens.

(** What a call returns: [None], a graph or a count. *)
Inductive returned : Type :=
| RNone
| RGraph (gr : CGRContainer)
| RCount (c : Z).

(** A call [self.<algorithm>(copy=<flag>)], or [self.<algorithm>()] when
    no flag is passed. Only [reset_query_marks] declares the parameter;
    the other two raise [TypeError] on a keyword they do not have. *)
Definition call (fresh_dyn : DynAtom) (m : algorithm) (copy_flag : option bool)
    (self : CGRContainer) : result (returned * CGRContainer) :=
  match m, copy_flag with
  | ResetQueryMarks, _ =>
      '(r, self) ←! reset_query_marks (default false copy_flag) self;
      Ok (match r with Some gr => RGraph gr | None => RNone end, self)
  | ImplicifyHydrogens, None =>
      '(c, self) ←! implicify_hydrogens self; Ok (RCount c, self)
  | ExplicifyHydrogens, None =>
      '(c, self) ←! explicify_hydrogens fresh_dyn self; Ok (RCount c, self)
  | _, Some _ => Raise TypeError
  end.

End container.

End CGR.

(** ** Worked inputs *)

Module Examples.
Import Py CGRrw.

(** A carbon at the origin with the given map number. *)
Definition carbon (m : Z) : atom :=
  {| a_map := m; a_element := "C"; a_isotope := 0; a_charge := 0; a_mark := "0";
     a_x := 0; a_y := 0; a_z := 0 |}.

Definition block (maps : list Z) : molecule :=
  {| atoms := carbon <$> maps; bonds := []; CGR_DAT := [] |}.

(** Two carbons joined by a single bond drawn as an up wedge. *)
Definition wedge (records : list dat) : molecule :=
  {| atoms := [carbon 1; carbon 2]; bonds := [(1, 2, 1, 1)]; CGR_DAT := records |}.

(** The same with the first atom raised out of the plane. *)
Definition raised_wedge : molecule :=
  {| atoms := [{| a_map := 1; a_element := "C"; a_isotope := 0; a_charge := 0;
                  a_mark := "0"; a_x := 0; a_y := 0; a_z := 1 |}; carbon 2];
     bonds := [(1, 2, 1, 1)]; CGR_DAT := [] |}.

(** The same with a record on the bond. *)
Definition recorded_bond (type value : string) : molecule :=
  {| atoms := [carbon 1; carbon 2]; bonds := [(1, 2, 1, 0)];
     CGR_DAT := [{| d_atoms := [1; 2]; d_type := type; d_value := DStr value |}] |}.

Definition charge_record (k : Z) : dat :=
  {| d_atoms := [k]; d_type := "dynatom"; d_value := DStr "c+1" |}.

(** A small stand-in for the outside world: no text is a float, and the
    table knows hydrogen and carbon. *)
Definition small_world : Externals :=
  {| py_float := λ _, Raise ValueError;
     isotopes := λ sym,
       if String.eqb sym "H" then Ok [(99.9885%float, 1); (0.0115%float, 2)]
       else if String.eqb sym "C" then Ok [(98.93%float, 12); (1.07%float, 13)]
       else Raise ValueError;
     mendeleyset := ["H"; "C"] |}.




(** Propadiene with its hydrogens left out: C=C=C, a dual-state graph
    whose two sides are the same. *)
Definition plain (sym : string) : CGR.DynAtom :=
  let a := {| CGR.element := sym; CGR.isotope := None; CGR.charge := 0;
              CGR.multiplicity := None; CGR.stereo := None;
              CGR.neighbors := None; CGR.hybridization := None |} in
  {| CGR.reagent := a; CGR.product := a |}.

Definition bond (s p : option Z) : CGR.DynBond :=
  {| CGR.reagent := {| CGR.order := s; CGR.bond_stereo := None |};
     CGR.product := {| CGR.order := p; CGR.bond_stereo := None |} |}.

Definition allene : CGR.CGRContainer :=
  {| CGR._node := [(1, plain "C"); (2, plain "C"); (3, plain "C")];
     CGR._adj := [(1, [(2, bond (Some 2) (Some 2))]);
                  (2, [(1, bond (Some 2) (Some 2)); (3, bond (Some 2) (Some 2))]);
                  (3, [(2, bond (Some 2) (Some 2))])];
     CGR.cache := {[ "center" := [] ]} |}.

(** A bond that is single before and double after, next to one that is
    only there before. *)
Definition changing : CGR.CGRContainer :=
  {| CGR._node := [(1, plain "C"); (2, plain "C"); (3, plain "O")];
     CGR._adj := [(1, [(2, bond (Some 1) (Some 2))]);
                  (2, [(1, bond (Some 1) (Some 2)); (3, bond (Some 1) None)]);
                  (3, [(2, bond (Some 1) None)])];
     CGR.cache := ∅ |}.

(** A carbon with one explicit hydrogen, and two hydrogens bound to each
    other. *)
Definition hydride : CGR.CGRContainer :=
  {| CGR._node := [(1, plain "C"); (2, plain "H")];
     CGR._adj := [(1, [(2, bond (Some 1) (Some 1))]); (2, [(1, bond (Some 1) (Some 1))])];
     CGR.cache := ∅ |}.


(** A stand-in for the valence function: carbon takes hydrogens up to
    four bonds, nothing else takes any. *)
Definition carbon_valence (a : CGR.Atom) (orders : list Z) : Z :=
  if String.eqb (CGR.element a) "C" then Z.max 0 (4 - foldr Z.add 0 orders) else 0.

(** Stand-ins for the comparisons of the attribute classes: the core
    attributes of an atom, the order of a bond. *)
Definition core_ne (a b : CGR.Atom) : bool :=
  negb (bool_decide ((CGR.element a, CGR.isotope a, CGR.charge a, CGR.multiplicity a)
                     = (CGR.element b, CGR.isotope b, CGR.charge b, CGR.multiplicity b))).

Definition order_ne (a b : CGR.Bond) : bool :=
  negb (bool_decide (CGR.order a = CGR.order b)).

End Examples.

(** ** Part IV. Properties of the codec *)

Import Py.

(** A closed membership or other decidable fact, by evaluation. *)
Ltac in_list := apply (bool_decide_unpack _); exact I.

(** *** Integers and their decimal text *)

Section int_text.

Lemma rstrip_no_space s :
  Forall (λ c, is_space c = false) (list_ascii_of_string s) → rstrip s = s.
Proof.
  induction s as [|c r IH]; simpl; [done|].
  intros Hs. apply Forall_cons in Hs as [Hc Hr].
  rewrite IH, Hc by done. done.
Qed.

Lemma digit_not_space c : is_digit c = true → is_space c = false.
Proof.
  unfold is_digit, is_space. generalize (nat_of_ascii c). intros n Hn.
  apply andb_true_iff in Hn as [H1 H2].
  apply Nat.leb_le in H1. apply Nat.leb_le in H2.
  apply orb_false_iff. split; apply andb_false_iff.
  - right. apply Nat.leb_gt. lia.
  - right. apply Nat.leb_gt. lia.
Qed.

(** The printed form of a decimal number holds digits only. *)
Lemma uint_digits d :
  Forall (λ c, is_digit c = true) (list_ascii_of_string (NilEmpty.string_of_uint d)).
Proof. induction d; simpl; constructor; done. Qed.

Lemma literal_digits_id s b :
  s ≠ "" ∨ b = true →
  Forall (λ c, is_digit c = true) (list_ascii_of_string s) →
  literal_digits b s = Some s.
Proof.
  revert b. induction s as [|c r IH]; simpl; intros b Hne Hs.
  - destruct Hne as [?| ->]; done.
  - apply Forall_cons in Hs as [-> Hr]. rewrite IH; auto.
Qed.

Lemma string_of_uint_nonnil d : d ≠ Decimal.Nil → NilEmpty.string_of_uint d ≠ "".
Proof. destruct d; done. Qed.

(** [int] reads back the digits of a number that is not [Nil]. *)
Lemma literal_of_uint d :
  d ≠ Decimal.Nil →
  (ds ← literal_digits false (NilEmpty.string_of_uint d);
   u ← NilEmpty.uint_of_string ds; Some (Z.of_uint u)) = Some (Z.of_uint d).
Proof.
  intros Hd. rewrite literal_digits_id.
  - simpl. rewrite NilEmpty.usu. done.
  - left. by apply string_of_uint_nonnil.
  - apply uint_digits.
Qed.

Lemma strip_signed c d :
  is_space c = false → d ≠ Decimal.Nil →
  strip (String c (NilEmpty.string_of_uint d)) = String c (NilEmpty.string_of_uint d).
Proof.
  intros Hc Hd. unfold strip. simpl. rewrite Hc.
  apply rstrip_no_space. simpl. constructor; [done|].
  eapply Forall_impl; [apply uint_digits|]. intros ?. apply digit_not_space.
Qed.

Lemma nilzero_nonnil d : d ≠ Decimal.Nil → NilZero.string_of_uint d = NilEmpty.string_of_uint d.
Proof. destruct d; done. Qed.

(** [int('%+d' % z) == z] *)
Lemma int_fmt_plus_d z : int (fmt_plus_d z) = Ok z.
Proof.
  unfold fmt_plus_d, int.
  destruct z as [|p|p]; simpl Z.to_int; cbv iota.
  - reflexivity.
  - pose proof (Unsigned.to_uint_nonnil p) as Hp.
    rewrite nilzero_nonnil by done.
    rewrite strip_signed by done.
    pose proof (literal_of_uint _ Hp) as H. simpl in H |- *.
    destruct (literal_digits _ _) as [ds|]; [|done]. simpl in H |- *.
    destruct (NilEmpty.uint_of_string ds) as [u|]; [|done]. simpl in H |- *.
    injection H as ->. unfold Z.of_uint. rewrite Unsigned.of_to. done.
  - pose proof (Unsigned.to_uint_nonnil p) as Hp.
    rewrite nilzero_nonnil by done.
    rewrite strip_signed by done.
    pose proof (literal_of_uint _ Hp) as H. simpl in H |- *.
    destruct (literal_digits _ _) as [ds|]; [|done]. simpl in H |- *.
    destruct (NilEmpty.uint_of_string ds) as [u|]; [|done]. simpl in H |- *.
    injection H as ->. unfold Z.of_uint. rewrite Unsigned.of_to. done.
Qed.

(** A string without the separator is one field. *)
Lemma split_one sep s :
  Forall (λ c, c ≠ sep) (list_ascii_of_string s) → split sep s = [s].
Proof.
  induction s as [|c r IH]; simpl; [done|].
  intros Hs. apply Forall_cons in Hs as [Hc Hr].
  rewrite IH by done. destruct (Ascii.eqb_spec c sep); done.
Qed.

Lemma fmt_plus_d_no_comma z :
  Forall (λ c, c ≠ ","%char) (list_ascii_of_string (fmt_plus_d z)).
Proof.
  assert (Hd : ∀ d, Forall (λ c, c ≠ ","%char)
                      (list_ascii_of_string (NilEmpty.string_of_uint d))).
  { intros d. eapply Forall_impl; [apply uint_digits|].
    intros c Hc ->. done. }
  unfold fmt_plus_d. destruct z as [|p|p]; simpl Z.to_int; cbv iota.
  - repeat constructor; done.
  - rewrite nilzero_nonnil by apply Unsigned.to_uint_nonnil.
    simpl. constructor; [done|apply Hd].
  - rewrite nilzero_nonnil by apply Unsigned.to_uint_nonnil.
    simpl. constructor; [done|apply Hd].
Qed.

End int_text.

(** *** The record decoder and the encoder *)

Import CGRrw.

Section codec.
Context `{!Externals}.

(** **** Atom-map resolution (C1) *)

(** The unmapped atoms of a role take the numbers from the counter on,
    and the counter moves past them; the mapped ones keep theirs. *)
Lemma fill_maps_spec (maps : list Z) (c : Z) :
  c ≤ (fill_maps maps c).2
  ∧ Forall2 (λ j j', if bool_decide (j ≠ 0) then j' = j else c ≤ j' < (fill_maps maps c).2)
            maps (fill_maps maps c).1.
Proof.
  revert c. induction maps as [|j maps IH]; intros c; simpl.
  - split; [lia|constructor].
  - case_bool_decide as Hj.
    + destruct (IH c) as [Hc Hall]. destruct (fill_maps maps c) as [r c'].
      simpl in *. split; [done|]. constructor; [by rewrite bool_decide_true|done].
    + destruct (IH (c + 1)) as [Hc Hall]. destruct (fill_maps maps (c + 1)) as [r c'].
      simpl in *. split; [lia|]. constructor.
      * rewrite bool_decide_false by (intros Hne; by apply Hne). lia.
      * eapply Forall2_impl; [done|]. intros x y. simpl. case_bool_decide; [done|lia].
Qed.

(** C1, as the claim states it, fails: for reactant map numbers 1, 2, 0
    and product map numbers 0, 1, 2 the zero entry of the products is not
    numbered 3. *)
Lemma C1_products_zero_is_not_3 :
  ¬ ∃ remap ms,
      resolve_maps remap [Examples.block [1; 2; 0]] [Examples.block [0; 1; 2]]
      = Ok (ms, [3; 1; 2]).
Proof. intros ([] & ms & Hr); vm_compute in Hr; congruence. Qed.

(** C1 (amended): with reactant map numbers 1, 2, 0 and product map
    numbers 0, 1, 2 the zero entry of the reactants becomes 3 and the zero
    entry of the products becomes 4, the counter above the largest map
    number being shared by both roles; reactant map numbers 1, 1 raise the
    duplicate-map error. *)
Theorem C1_map_assignment (remap : bool) (substrats products : list molecule) :
  (role_maps substrats = [1; 2; 0] → role_maps products = [0; 1; 2] →
   resolve_maps remap substrats products = Ok ([1; 2; 3], [4; 1; 2]))
  ∧ (role_maps substrats = [1; 1] →
     resolve_maps remap substrats products = Raise MapError).
Proof.
  split.
  - intros Hs Hp. unfold resolve_maps. rewrite Hs, Hp. by destruct remap.
  - intros Hs. unfold resolve_maps. rewrite Hs. done.
Qed.

Lemma C1_map_assignment_witness :
  resolve_maps true [Examples.block [1; 2; 0]] [Examples.block [0; 1; 2]]
    = Ok ([1; 2; 3], [4; 1; 2])
  ∧ resolve_maps true [Examples.block [1; 1]] [Examples.block [0; 1; 2]] = Raise MapError.
Proof.
  split.
  - apply (C1_map_assignment true [Examples.block [1; 2; 0]] [Examples.block [0; 1; 2]]);
      reflexivity.
  - apply (C1_map_assignment true [Examples.block [1; 1]] [Examples.block [0; 1; 2]]);
      reflexivity.
Defined.

(** **** Dynamic bonds (C3) *)

(** C3: a bond of reagent order 1 and product order 2 is written as a
    [dynbond] record of value [1>2] (and bond code 8 in the legacy block);
    the decoder turns that record into reagent order 1, product order 2
    and the pair (1, 2), and the assembled edge carries exactly these. *)
Theorem C3_bond_transition_round_trip (i l : Z) :
  encode_bond i l (Some 1) (Some 2)
    = Ok ([{| sg_value := "1>2"; sg_type := "dynbond"; sg_atoms := [i; l] |}], (i, l, "8"))
  ∧ cgr_dat "dynbond" (DStr "1>2")
    = Ok (Some (list_to_map [("s_bond", VInt 1); ("p_bond", VInt 2);
                             ("sp_bond", VTuple [VInt 1; VInt 2])]))
  ∧ (gr ← match parse_molecule (Examples.recorded_bond "dynbond" "1>2") (remapped [1; 2]) with
          | Ok gr => Some gr
          | Raise _ => None
          end;
     adj gr !! 1 ≫= (λ nbrs, nbrs !! 2))
    = Some (list_to_map [("s_bond", VInt 1); ("p_bond", VInt 2);
                         ("sp_bond", VTuple [VInt 1; VInt 2])]).
Proof. repeat split; vm_compute; reflexivity. Qed.

(** **** Charge deltas (C7) *)

(** A delta that is a single number, whatever its spelling, and not zero. *)
Lemma cgr_atom_dat_single_delta (t : string) (base delta : Z) :
  Forall (λ c, c ≠ ","%char) (list_ascii_of_string t) →
  int t = Ok delta → delta ≠ 0 →
  cgr_atom_dat (String "c" t) base
  = Ok (Some (charge_dict (VInt base) (VInt (base + delta))
                (VTuple [VInt base; VInt (base + delta)]))).
Proof.
  intros Ht Hint Hd. unfold cgr_atom_dat.
  change (Ascii.eqb "c" "c") with true. cbv iota.
  rewrite split_one by done. simpl. rewrite Hint. simpl.
  rewrite bool_decide_true by done. done.
Qed.

(** C7 (amended): two different scalar charges are written as the
    [dynatom] record [c] followed by the signed difference product minus
    reagent; a record holding a single delta that is not zero decodes,
    against the base charge, to reagent = base and product = base + delta,
    so the written record decodes to the charges it came from; in
    particular charges 0 and +1 give [c+1], and [c+1] against base 0 gives
    product charge 1. *)
Theorem C7_charge_delta (is_mdl : bool) (base p delta : Z) (t : string) :
  p ≠ base → delta ≠ 0 →
  Forall (λ c, c ≠ ","%char) (list_ascii_of_string t) → int t = Ok delta →
  (∃ legacy, encode_charge is_mdl (CInt base) (CInt p)
             = Ok (legacy, Some (String "c" (fmt_plus_d (p - base)), "dynatom")))
  ∧ cgr_atom_dat (String "c" t) base
    = Ok (Some (charge_dict (VInt base) (VInt (base + delta))
                  (VTuple [VInt base; VInt (base + delta)])))
  ∧ cgr_atom_dat (String "c" (fmt_plus_d (p - base))) base
    = Ok (Some (charge_dict (VInt base) (VInt p) (VTuple [VInt base; VInt p])))
  ∧ encode_charge is_mdl (CInt 0) (CInt 1)
    = Ok (Some 0, Some ("c+1", "dynatom"))
  ∧ cgr_atom_dat "c+1" 0
    = Ok (Some (charge_dict (VInt 0) (VInt 1) (VTuple [VInt 0; VInt 1]))).
Proof.
  intros Hp Hd Ht Hint. split; [|split; [|split; [|split]]].
  - unfold encode_charge. simpl. rewrite bool_decide_true by done. eauto.
  - by apply cgr_atom_dat_single_delta.
  - rewrite (cgr_atom_dat_single_delta _ base (p - base)).
    + by replace (base + (p - base)) with p by lia.
    + apply fmt_plus_d_no_comma.
    + apply int_fmt_plus_d.
    + lia.
  - by destruct is_mdl.
  - reflexivity.
Qed.

(** **** Tokens without a transition (C10) *)

Lemma parsedyn_step_same (name : string) (acc : list label * list label) (x s : string) :
  token_ends x = Ok (s, s) → parsedyn_step name acc x = Ok acc.
Proof.
  intros Hx. unfold parsedyn_step. destruct acc as [tmp0 tmp1].
  rewrite Hx. simpl. rewrite bool_decide_false by (intros Hne; by apply Hne). done.
Qed.

Lemma parsedyn_loop_same (name : string) (acc : list label * list label) (xs : list string) :
  Forall (λ x, ∃ s, token_ends x = Ok (s, s)) xs →
  for_each (parsedyn_step name) xs acc = Ok acc.
Proof.
  induction 1 as [|x xs [s Hx] _ IH]; simpl; [done|].
  by rewrite (parsedyn_step_same _ _ _ _ Hx).
Qed.

(** C10: a token whose first and last symbol are the same is dropped
    before either symbol is interpreted; a dynamic record (bond,
    hybridization or neighbours) made of such tokens only decodes to
    nothing, and the assembler's tables are left as they were. *)
Theorem C10_tokens_without_change_dropped
    (name value : string) (m : molecule)
    (tables : gmap Z attrs * gmap Z (gmap Z attrs)) (ats : list Z) :
  Forall (λ x, ∃ s, token_ends x = Ok (s, s)) (split "," value) →
  (∀ acc x, x ∈ split "," value → parsedyn_step name acc x = Ok acc)
  ∧ (name ∈ ["neighbors"; "hyb"; "bond"] → parsedyn name value = Ok None)
  ∧ (∀ type, type ∈ ["dynbond"; "dynatomhyb"; "dynatomneighbors"] →
       collect_dat m tables {| d_atoms := ats; d_type := type; d_value := DStr value |}
       = Ok tables).
Proof.
  intros Hall.
  assert (Hdyn : ∀ n, n ∈ ["neighbors"; "hyb"; "bond"] → parsedyn n value = Ok None).
  { intros n Hn. unfold parsedyn. rewrite parsedyn_loop_same by done. simpl.
    unfold marks. rewrite bool_decide_true by done. done. }
  split; [|split].
  - intros acc x Hx. rewrite Forall_forall in Hall.
    destruct (Hall x Hx) as [s Hs]. by eapply parsedyn_step_same.
  - apply Hdyn.
  - intros type Htype. unfold collect_dat. destruct tables as [ta tb].
    repeat (apply elem_of_cons in Htype as [->|Htype]);
      [| | |by apply elem_of_nil in Htype];
      simpl; unfold cgr_dat; simpl; rewrite Hdyn by in_list; done.
Qed.

End codec.

(** *** The assembler *)

Section results.
Context {A B : Type}.

Lemma bind_Ok (m : result A) (f : A → result B) (b : B) :
  bind m f = Ok b → ∃ a, m = Ok a ∧ f a = Ok b.
Proof. destruct m as [a|e]; simpl; [eauto|done]. Qed.

Lemma of_option_Ok (e : exn) (o : option A) (a : A) : of_option e o = Ok a → o = Some a.
Proof. destruct o; simpl; congruence. Qed.

End results.

(** Take the successful run of a sequence of steps apart. *)
Ltac invert_run H :=
  repeat match type of H with
         | bind _ _ = Ok _ =>
             let x := fresh "x" in
             let Hx := fresh "Hx" in
             apply bind_Ok in H as (x & Hx & H)
         end.

Section loops.
Context {A S : Type} (body : S → A → result S).

Lemma for_each_app (xs ys : list A) (s : S) :
  for_each body (xs ++ ys) s = bind (for_each body xs s) (for_each body ys).
Proof.
  revert s. induction xs as [|x xs IH]; intros s; simpl; [done|].
  destruct (body s x); simpl; auto.
Qed.

(** A property every successful step keeps holds after the loop. *)
Lemma for_each_inv (P : S → Prop) (xs : list A) (s s' : S) :
  for_each body xs s = Ok s' →
  (∀ s x s', x ∈ xs → body s x = Ok s' → P s → P s') →
  P s → P s'.
Proof.
  revert s. induction xs as [|x xs IH]; simpl; intros s Hrun Hstep Hs.
  - by injection Hrun as <-.
  - apply bind_Ok in Hrun as (s1 & H1 & Hrun).
    eapply IH; [done| |].
    + intros ??? Hin. apply Hstep. by right.
    + eapply Hstep; [by left|done|done].
Qed.

End loops.

Section assembler.
Context `{!Externals}.

(** Split [K ∉ [k1; ...; kn]] into the inequalities. *)
Ltac split_notin H :=
  repeat match type of H with
         | _ ∉ _ :: _ => let H1 := fresh "Hne" in apply not_elem_of_cons in H as [H1 H]
         end.

(** Put them together again for a shorter list. *)
Ltac join_notin :=
  repeat (apply not_elem_of_cons; split; [done|]); apply not_elem_of_nil.

(** Look an unwritten key up in a dictionary built from inserts. *)
Ltac lookup_unwritten :=
  repeat first [ rewrite lookup_insert_ne by done
               | rewrite lookup_delete_ne by done
               | rewrite lookup_empty
               | rewrite lookup_singleton_ne by done ];
  try done.

Lemma charge_dict_lacks (s p sp : value) (K : string) :
  K ∉ atom_record_keys → charge_dict s p sp !! K = None.
Proof.
  intros HK. unfold atom_record_keys in HK. split_notin HK.
  unfold charge_dict. simpl. lookup_unwritten.
Qed.

Lemma cgr_atom_dat_lacks (v : string) (c : Z) (d : attrs) (K : string) :
  cgr_atom_dat v c = Ok (Some d) → K ∉ atom_record_keys → d !! K = None.
Proof.
  intros Hd HK. pose proof (λ s p sp, charge_dict_lacks s p sp K HK) as Hc.
  unfold atom_record_keys in HK. split_notin HK.
  unfold cgr_atom_dat in Hd. destruct v as [|key rest]; [done|].
  destruct (Ascii.eqb key "c").
  { invert_run Hd. destruct x as [|d0 [|d1 r]]; [done| |].
    - case_bool_decide; [|done]. injection Hd as <-. apply Hc.
    - repeat case_match; try done; injection Hd as <-; apply Hc. }
  destruct (Ascii.eqb key "x").
  { invert_run Hd. destruct x as [|x [|y [|z [|? ?]]]]; try done.
    injection Hd as <-. simpl. lookup_unwritten. }
  destruct (Ascii.eqb key "z"); [|done].
  invert_run Hd. injection Hd as <-. lookup_unwritten.
Qed.

Lemma cgr_atom_dat_value_lacks (v : dat_value) (c : Z) (d : attrs) (K : string) :
  cgr_atom_dat_value v c = Ok (Some d) → K ∉ atom_record_keys → d !! K = None.
Proof.
  destruct v as [s|[|key r]]; simpl.
  - apply cgr_atom_dat_lacks.
  - done.
  - repeat case_match; done.
Qed.

Lemma marks_keys (name s p sp : string) :
  marks name = Ok (s, p, sp) → s = "s_" +:+ name ∧ p = "p_" +:+ name ∧ sp = "sp_" +:+ name.
Proof. unfold marks. case_bool_decide; [|done]. intros [= <- <- <-]. done. Qed.

Lemma parsedyn_lacks (name v : string) (d : attrs) (K : string) :
  parsedyn name v = Ok (Some d) →
  K ∉ ["s_" +:+ name; "p_" +:+ name; "sp_" +:+ name] → d !! K = None.
Proof.
  intros Hd HK. split_notin HK. unfold parsedyn in Hd. invert_run Hd.
  destruct x as [tmp0 tmp1]. invert_run Hd. destruct x as [[s p] sp].
  apply marks_keys in Hx0 as (-> & -> & ->).
  destruct tmp0 as [|a [|a' r]]; [done| |].
  - invert_run Hd. injection Hd as <-.
    repeat case_bool_decide; lookup_unwritten.
  - case_match; [|done]. injection Hd as <-. simpl. lookup_unwritten.
Qed.

Lemma parselist_lacks (name v : string) (d : attrs) (K : string) :
  parselist name v = Ok (Some d) →
  K ∉ ["s_" +:+ name; "p_" +:+ name; "sp_" +:+ name] → d !! K = None.
Proof.
  intros Hd HK. split_notin HK. unfold parselist in Hd. invert_run Hd.
  assert (Hf : ∀ val d, fromkeys_marks name val = Ok d → d !! K = None).
  { intros val d' Hk. unfold fromkeys_marks in Hk. invert_run Hk.
    destruct x0 as [[s p] sp]. apply marks_keys in Hx0 as (-> & -> & ->).
    injection Hk as <-. simpl. lookup_unwritten. }
  destruct x as [|a [|a' r]].
  - case_match; [|done]. invert_run Hd. injection Hd as <-. eauto.
  - case_bool_decide; [|done]. invert_run Hd. injection Hd as <-. eauto.
  - case_match; [|done]. invert_run Hd. injection Hd as <-. eauto.
Qed.

(** One branch of [cgr_dat]: the record type is [t]. *)
Ltac record_type type t Hd HK :=
  destruct (decide (type = t)) as [->|?];
  [ let keys := eval vm_compute in (record_keys t) in
    change (record_keys t) with keys in HK;
    unfold cgr_dat in Hd;
    repeat (rewrite bool_decide_false in Hd by done);
    rewrite bool_decide_true in Hd by done
  | ].

Lemma cgr_dat_lacks (type : string) (v : dat_value) (d : attrs) (K : string) :
  cgr_dat type v = Ok (Some d) → K ∉ record_keys type → d !! K = None.
Proof.
  intros Hd HK.
  record_type type "dynbond" Hd HK.
  { invert_run Hd. by eapply parsedyn_lacks. }
  record_type type "extrabond" Hd HK.
  { invert_run Hd. by eapply parselist_lacks. }
  record_type type "atomlist" Hd HK.
  { injection Hd as <-. split_notin HK. lookup_unwritten. }
  record_type type "atomnotlist" Hd HK.
  { injection Hd as <-. split_notin HK. lookup_unwritten. }
  record_type type "atomhyb" Hd HK.
  { invert_run Hd. by eapply parselist_lacks. }
  record_type type "atomneighbors" Hd HK.
  { invert_run Hd. by eapply parselist_lacks. }
  record_type type "dynatomhyb" Hd HK.
  { invert_run Hd. by eapply parsedyn_lacks. }
  record_type type "dynatomneighbors" Hd HK.
  { invert_run Hd. by eapply parsedyn_lacks. }
  record_type type "isotope" Hd HK.
  { split_notin HK. invert_run Hd. destruct (split "," x) as [|y [|y' r]];
      invert_run Hd; injection Hd as <-; lookup_unwritten. }
  unfold cgr_dat in Hd. repeat (rewrite bool_decide_false in Hd by done). done.
Qed.

Lemma update_lacks (d e : attrs) (K : string) :
  d !! K = None → e !! K = None → update d e !! K = None.
Proof. intros Hd He. unfold update. by apply lookup_union_None. Qed.

Lemma update_lookup_r (d e : attrs) (K : string) :
  e !! K = None → update d e !! K = d !! K.
Proof. intros He. unfold update. by rewrite lookup_union_r. Qed.

(** One record leaves the table entry of atom [k] without the key [K],
    unless it is a record for [k] of a type that writes [K]. *)
Lemma collect_dat_lacks (m : molecule) (K : string) (k : Z)
    (acc acc' : gmap Z attrs * gmap Z (gmap Z attrs)) (rec : dat) :
  collect_dat m acc rec = Ok acc' →
  K ∉ atom_record_keys →
  (K ∈ record_keys (d_type rec) → index (d_atoms rec) 0 ≠ Ok k) →
  (∀ d, acc.1 !! k = Some d → d !! K = None) →
  ∀ d, acc'.1 !! k = Some d → d !! K = None.
Proof.
  intros Hrun HK Hrec Hacc d. unfold collect_dat in Hrun.
  destruct acc as [cda cdb]. simpl in Hacc.
  assert (Hins : ∀ a0 val, val !! K = None →
            <[a0 := update (default ∅ (cda !! a0)) val]> cda !! k = Some d →
            d !! K = None).
  { intros a0 val Hval. destruct (decide (a0 = k)) as [->|Hne].
    - rewrite lookup_insert_eq. intros [= <-]. apply update_lacks; [|done].
      destruct (cda !! k) as [old|] eqn:Hold; simpl; [eauto|done].
    - rewrite lookup_insert_ne by done. apply Hacc. }
  case_bool_decide as Htype.
  - apply bind_Ok in Hrun as (a0 & Ha0 & Hrun).
    apply bind_Ok in Hrun as (l & Hl & Hrun).
    apply bind_Ok in Hrun as (val & Hval & Hrun).
    destruct val as [val|]; [|done]. injection Hrun as <-. simpl.
    apply Hins. by eapply cgr_atom_dat_value_lacks.
  - apply bind_Ok in Hrun as (val & Hval & Hrun).
    destruct val as [val|]; [|injection Hrun as <-; apply Hacc].
    case_bool_decide; [injection Hrun as <-; apply Hacc|].
    apply bind_Ok in Hrun as (arity & Harity & Hrun). case_bool_decide.
    + destruct (d_atoms rec) as [|a1 [|a2 [|? ?]]]; try done.
      injection Hrun as <-. apply Hacc.
    + apply bind_Ok in Hrun as (x1 & Hx1 & Hrun). injection Hrun as <-. simpl.
      destruct (decide (x1 = k)) as [->|Hne].
      * destruct (decide (K ∈ record_keys (d_type rec))) as [Hin|Hnin].
        { by destruct (Hrec Hin). }
        apply Hins. by eapply cgr_dat_lacks.
      * rewrite lookup_insert_ne by done. apply Hacc.
Qed.

Lemma dat_tables_lacks (m : molecule) (K : string) (k : Z)
    (cda : gmap Z attrs) (cdb : gmap Z (gmap Z attrs)) :
  dat_tables m = Ok (cda, cdb) →
  K ∉ atom_record_keys →
  Forall (λ rec, K ∈ record_keys (d_type rec) → index (d_atoms rec) 0 ≠ Ok k) (CGR_DAT m) →
  ∀ d, cda !! k = Some d → d !! K = None.
Proof.
  intros Hrun HK Hrecs. unfold dat_tables in Hrun.
  change cda with ((cda, cdb).1).
  eapply (for_each_inv _ (λ acc, ∀ d, acc.1 !! k = Some d → d !! K = None)); [done| |done].
  intros acc rec acc' Hin Hstep Hacc. eapply collect_dat_lacks; [done|done| |done].
  rewrite Forall_forall in Hrecs. by apply Hrecs.
Qed.

(** **** The node table under the graph operations *)

Lemma add_node_lookup (n : Z) (attr : attrs) (gr : graph) :
  node (add_node n attr gr) = <[n := update (default ∅ (node gr !! n)) attr]> (node gr).
Proof.
  unfold add_node. destruct (node gr !! n); simpl; [done|].
  unfold update. by rewrite (right_id_L ∅ (∪)).
Qed.

Lemma set_node_attr_lookup (n : Z) (key : string) (v : value) (gr gr' : graph) :
  set_node_attr n key v gr = Ok gr' →
  ∃ old, node gr !! n = Some old ∧ node gr' = <[n := <[key := v]> old]> (node gr).
Proof.
  unfold set_node_attr. intros Hrun. invert_run Hrun.
  apply of_option_Ok in Hx. injection Hrun as <-. eauto.
Qed.

Lemma touch_node_lookup (n n' : Z) (gr : graph) :
  node (touch_node n gr) !! n' =
  match node gr !! n' with
  | Some a => Some a
  | None => if decide (n = n') then Some ∅ else None
  end.
Proof.
  unfold touch_node. destruct (node gr !! n) as [a|] eqn:Hn; simpl.
  - destruct (node gr !! n') eqn:Hn'; [done|]. case_decide; [congruence|done].
  - destruct (decide (n = n')) as [->|Hne].
    + by rewrite lookup_insert_eq, Hn.
    + rewrite lookup_insert_ne by done. by destruct (node gr !! n').
Qed.

(** An edge gives a node it creates no attributes and leaves the
    attributes of the others alone. *)
Lemma add_edge_lookup (u v : Z) (attr : attrs) (gr : graph) (n : Z) :
  node (add_edge u v attr gr) !! n =
  match node gr !! n with
  | Some a => Some a
  | None => if decide (n = u ∨ n = v) then Some ∅ else None
  end.
Proof.
  unfold add_edge. simpl. rewrite !touch_node_lookup.
  destruct (node gr !! n); [done|].
  repeat case_decide; try done; intuition congruence.
Qed.

(** **** One atom *)

Lemma add_float_lookup (key : string) (f : float) (d d' : attrs) :
  add_float key f d = Ok d' →
  ∃ old, d !! key = Some (VFloat old) ∧ d' = <[key := VFloat (old + f)%float]> d.
Proof.
  unfold add_float. intros Hrun. apply bind_Ok in Hrun as (old & Hold & Hrun).
  apply of_option_Ok in Hold. destruct old; try done. injection Hrun as <-. eauto.
Qed.

Lemma merge_record_lookup (l : atom) (d d' : attrs) (K : string) :
  merge_record l d = Ok d' → K ∉ merged_keys → d' !! K = d !! K.
Proof.
  intros Hrun HK. unfold merged_keys in HK. split_notin HK.
  unfold merge_record in Hrun.
  set (d1 := if bool_decide (is_Some (d !! "sp_charge")) then d else _) in Hrun.
  assert (Hd1 : d1 !! K = d !! K).
  { subst d1. destruct (bool_decide (is_Some (d !! "sp_charge"))); [done|].
    apply update_lookup_r.
    unfold charge_dict. simpl. lookup_unwritten. }
  rewrite <- Hd1. clearbody d1. case_bool_decide.
  - apply bind_Ok in Hrun as (dx & Hdx & Hrun).
    apply bind_Ok in Hrun as (dy & Hdy & Hrun).
    apply add_float_lookup in Hdx as (? & _ & ->).
    apply add_float_lookup in Hdy as (? & _ & ->).
    apply add_float_lookup in Hrun as (? & _ & ->).
    lookup_unwritten.
  - injection Hrun as <-. apply update_lookup_r. simpl. lookup_unwritten.
Qed.

Lemma legacy_attrs_lacks (l : atom) (K : string) :
  K ∉ ["mark"; "s_x"; "s_y"; "s_z"] → legacy_attrs l !! K = None.
Proof. intros HK. split_notin HK. unfold legacy_attrs. simpl. lookup_unwritten. Qed.

Lemma node_from_record_spec (n : Z) (l : atom) (d : attrs) (st st' : asm) :
  node_from_record n l d st = Ok st' →
  ∃ z, d !! "p_z" = Some (VFloat z)
       ∧ g st' = add_node n (update (legacy_attrs l) (delete "dz" d)) (g st)
       ∧ mdl_s_stereo st' = mdl_s_stereo st
       ∧ mdl_p_stereo st' = (if PrimFloat.ltb z z_threshold then false else mdl_p_stereo st).
Proof.
  unfold node_from_record. intros Hrun.
  destruct (d !! "dz") as [v|] eqn:Hdz.
  - case_bool_decide; [|done]. apply bind_Ok in Hrun as (p_z & Hpz & Hrun).
    apply of_option_Ok in Hpz. rewrite lookup_delete_ne in Hpz by done.
    destruct p_z; try done. injection Hrun as <-. simpl. eauto.
  - case_bool_decide; [|done]. apply bind_Ok in Hrun as (p_z & Hpz & Hrun).
    apply of_option_Ok in Hpz.
    destruct p_z; try done. injection Hrun as <-. simpl.
    rewrite delete_id by done. eauto.
Qed.

Lemma legacy_element_spec (n : Z) (l : atom) (gr gr' : graph) :
  legacy_element n l gr = Ok gr' →
  ∃ old new, node gr !! n = Some old ∧ node gr' = <[n := new]> (node gr)
             ∧ ∀ K, K ≠ "element" → new !! K = old !! K.
Proof.
  unfold legacy_element. intros Hrun. apply bind_Ok in Hrun as (cur & Hcur & Hrun).
  apply of_option_Ok in Hcur. exists cur.
  destruct (_ && _).
  - apply set_node_attr_lookup in Hrun as (old & Hold & ->).
    assert (old = cur) as -> by congruence.
    eexists. split; [done|]. split; [done|]. intros K HK. by rewrite lookup_insert_ne.
  - injection Hrun as <-. exists cur. by rewrite insert_id.
Qed.

Lemma legacy_isotope_spec (n : Z) (l : atom) (gr gr' : graph) :
  legacy_isotope n l gr = Ok gr' →
  ∃ old new, node gr !! n = Some old ∧ node gr' = <[n := new]> (node gr)
             ∧ (∀ K, K ≠ "isotope" → new !! K = old !! K)
             ∧ (old !! "isotope" = None → a_isotope l ≠ 0 →
                ∃ base, most_abundant (a_element l) = Ok base
                        ∧ new !! "isotope" = Some (VInt (base + a_isotope l))).
Proof.
  unfold legacy_isotope. intros Hrun. apply bind_Ok in Hrun as (cur & Hcur & Hrun).
  apply of_option_Ok in Hcur. exists cur.
  destruct (bool_decide (cur !! "isotope" = None)) eqn:Hiso;
    destruct (a_isotope l =? 0) eqn:Hz; simpl in Hrun.
  2:{ apply bind_Ok in Hrun as (base & Hbase & Hrun).
      apply set_node_attr_lookup in Hrun as (old & Hold & ->).
      assert (old = cur) as -> by congruence.
      eexists. split; [done|]. split; [done|]. split.
      - intros K HK. by rewrite lookup_insert_ne.
      - intros _ _. exists base. by rewrite lookup_insert_eq. }
  all: injection Hrun as <-; exists cur; rewrite insert_id by done;
    (split; [done|]); (split; [done|]); (split; [done|]); intros Hnone Hne.
  - apply Z.eqb_eq in Hz. done.
  - apply bool_decide_eq_false in Hiso. done.
  - apply bool_decide_eq_false in Hiso. done.
Qed.

(** What one round of the loop over the atoms does: it rewrites the node
    of the atom and the two flags. *)
Lemma assemble_atom_spec (mapping : gmap Z Z) (cda : gmap Z attrs)
    (st st' : asm) (k : Z) (l : atom) :
  assemble_atom mapping cda st (k, l) = Ok st' →
  ∃ n new,
    mapping !! k = Some n
    ∧ node (g st') = <[n := new]> (node (g st))
    ∧ (∀ K, K ∉ assembled_keys → default ∅ (cda !! k) !! K = None →
            new !! K = default ∅ (node (g st) !! n) !! K)
    ∧ (node (g st) !! n = None → default ∅ (cda !! k) !! "isotope" = None →
       a_isotope l ≠ 0 →
       ∃ base, most_abundant (a_element l) = Ok base
               ∧ new !! "isotope" = Some (VInt (base + a_isotope l)))
    ∧ mdl_s_stereo st'
      = (if negb (PrimFloat.eqb (a_z l) 0%float) then false else mdl_s_stereo st)
    ∧ mdl_p_stereo st'
      = match recorded_product_z cda k l with
        | Some z => if PrimFloat.ltb z z_threshold then false else mdl_p_stereo st
        | None => mdl_p_stereo st
        end.
Proof.
  unfold assemble_atom. intros Hrun.
  apply bind_Ok in Hrun as (n & Hn & Hrun). apply of_option_Ok in Hn.
  apply bind_Ok in Hrun as (st1 & Hst1 & Hrun).
  apply bind_Ok in Hrun as (gr1 & Hgr1 & Hrun).
  apply bind_Ok in Hrun as (gr2 & Hgr2 & Hrun).
  injection Hrun as <-. simpl.
  apply legacy_element_spec in Hgr1 as (a0 & a1 & Ha0 & Hn1 & Hkeep1).
  apply legacy_isotope_spec in Hgr2 as (a1' & a2 & Ha1 & Hn2 & Hkeep2 & Hiso).
  assert (a1' = a1) as ->.
  { rewrite Hn1, lookup_insert_eq in Ha1. congruence. }
  exists n, a2. split; [done|].
  (* the node as [add_node] leaves it *)
  assert (∃ own,
    node (g st1) = <[n := update (default ∅ (node (g st) !! n)) own]> (node (g st))
    ∧ (∀ K, K ∉ assembled_keys → default ∅ (cda !! k) !! K = None → own !! K = None)
    ∧ (default ∅ (cda !! k) !! "isotope" = None → own !! "isotope" = None)
    ∧ mdl_s_stereo st1 = mdl_s_stereo st
    ∧ mdl_p_stereo st1
      = match recorded_product_z cda k l with
        | Some z => if PrimFloat.ltb z z_threshold then false else mdl_p_stereo st
        | None => mdl_p_stereo st
        end) as (own & Hnode & Hown & Hown_iso & Hs & Hp).
  { unfold recorded_product_z. destruct (cda !! k) as [d|] eqn:Hd; simpl.
    - apply bind_Ok in Hst1 as (d' & Hd' & Hst1). rewrite Hd'.
      apply node_from_record_spec in Hst1 as (z & Hz & Hg & Hs & Hp).
      rewrite Hz. eexists. rewrite Hg, add_node_lookup.
      split; [done|]. split; [|split; [|done]].
      + intros K HK HdK. unfold assembled_keys, atom_record_keys in HK. simpl in HK.
        split_notin HK. apply update_lacks; [by apply legacy_attrs_lacks; join_notin|].
        rewrite lookup_delete_ne by done.
        rewrite (merge_record_lookup _ _ _ K Hd'); [done|].
        unfold merged_keys. join_notin.
      + intros HdK. apply update_lacks; [by apply legacy_attrs_lacks; join_notin|].
        rewrite lookup_delete_ne by done.
        rewrite (merge_record_lookup _ _ _ "isotope" Hd'); [done|].
        unfold merged_keys. join_notin.
    - injection Hst1 as <-. simpl. eexists. rewrite add_node_lookup.
      split; [done|]. split; [|split; [|done]].
      + intros K HK _. unfold assembled_keys, atom_record_keys in HK. simpl in HK.
        split_notin HK. apply update_lacks; [by apply legacy_attrs_lacks; join_notin|].
        simpl. lookup_unwritten.
      + intros _. apply update_lacks; [by apply legacy_attrs_lacks; join_notin|].
        simpl. lookup_unwritten. }
  rewrite Hnode, lookup_insert_eq in Ha0. injection Ha0 as <-.
  split; [|split; [|split; [|split]]].
  - rewrite Hn2, Hn1, Hnode. by rewrite !insert_insert_eq.
  - intros K HK HdK.
    assert (K ≠ "element" ∧ K ≠ "isotope") as [??].
    { unfold assembled_keys, atom_record_keys in HK. simpl in HK. split_notin HK. done. }
    rewrite Hkeep2, Hkeep1 by done. apply update_lookup_r. by apply Hown.
  - intros Hfresh HdK Hne. apply Hiso; [|done].
    rewrite Hkeep1 by done. rewrite Hfresh. simpl.
    apply update_lacks; [done|]. by apply Hown_iso.
  - by rewrite Hs.
  - done.
Qed.

(** **** The loops *)

Lemma default_lookup (m : gmap Z attrs) (n : Z) (K : string) :
  default ∅ (m !! n) !! K = m !! n ≫= (λ a, a !! K).
Proof. by destruct (m !! n). Qed.

Lemma node_attr_insert (gr gr' : graph) (n0 : Z) (new : attrs) (n : Z) (K : string) :
  node gr' = <[n0 := new]> (node gr) →
  node_attr gr' n K = if decide (n0 = n) then new !! K else node_attr gr n K.
Proof.
  intros Hnode. unfold node_attr. rewrite Hnode. case_decide as Hn.
  - subst. by rewrite lookup_insert_eq.
  - by rewrite lookup_insert_ne.
Qed.

(** A key that neither the loop nor a record writes is at no node after
    the loop over the atoms, nor was it before. *)
Lemma atoms_loop_attr (mapping : gmap Z Z) (cda : gmap Z attrs)
    (xs : list (Z * atom)) (st st' : asm) (K : string) :
  for_each (assemble_atom mapping cda) xs st = Ok st' →
  K ∉ assembled_keys →
  (∀ k d, cda !! k = Some d → d !! K = None) →
  ∀ n, node_attr (g st') n K = node_attr (g st) n K.
Proof.
  intros Hrun HK Hcda.
  eapply (for_each_inv _ (λ s, ∀ n, node_attr (g s) n K = node_attr (g st) n K));
    [done| |done].
  intros s [k l] s' _ Hstep Hs n.
  apply assemble_atom_spec in Hstep as (n0 & new & _ & Hnode & Hkeep & _).
  rewrite (node_attr_insert _ _ _ _ _ _ Hnode). case_decide as Hn; [|done].
  subst n0. rewrite Hkeep; [|done|].
  - rewrite default_lookup. apply Hs.
  - destruct (cda !! k) eqn:Hk; simpl; [eauto|done].
Qed.

Lemma atoms_loop_s_flag (mapping : gmap Z Z) (cda : gmap Z attrs)
    (xs : list (Z * atom)) (st st' : asm) :
  for_each (assemble_atom mapping cda) xs st = Ok st' →
  mdl_s_stereo st = false
  ∨ (∃ k l, (k, l) ∈ xs ∧ PrimFloat.eqb (a_z l) 0%float = false) →
  mdl_s_stereo st' = false.
Proof.
  revert st. induction xs as [|[k l] xs IH]; simpl; intros st Hrun Hwhy.
  - injection Hrun as <-. destruct Hwhy as [?|(? & ? & Hin & _)]; [done|].
    by apply elem_of_nil in Hin.
  - apply bind_Ok in Hrun as (st1 & Hstep & Hrun).
    apply (IH _ Hrun).
    apply assemble_atom_spec in Hstep as (_ & _ & _ & _ & _ & _ & Hs & _).
    rewrite Hs. destruct Hwhy as [->|(k' & l' & Hin & Hz)].
    + left. by destruct (negb _).
    + apply elem_of_cons in Hin as [[= -> ->]|Hin]; [left; by rewrite Hz|eauto].
Qed.

Lemma atoms_loop_p_flag (mapping : gmap Z Z) (cda : gmap Z attrs)
    (xs : list (Z * atom)) (st st' : asm) :
  for_each (assemble_atom mapping cda) xs st = Ok st' →
  mdl_p_stereo st = false
  ∨ (∃ k l z, (k, l) ∈ xs ∧ recorded_product_z cda k l = Some z
              ∧ PrimFloat.ltb z z_threshold = true) →
  mdl_p_stereo st' = false.
Proof.
  revert st. induction xs as [|[k l] xs IH]; simpl; intros st Hrun Hwhy.
  - injection Hrun as <-. destruct Hwhy as [?|(? & ? & ? & Hin & _)]; [done|].
    by apply elem_of_nil in Hin.
  - apply bind_Ok in Hrun as (st1 & Hstep & Hrun).
    apply (IH _ Hrun).
    apply assemble_atom_spec in Hstep as (_ & _ & _ & _ & _ & _ & _ & Hp).
    rewrite Hp. destruct Hwhy as [->|(k' & l' & z & Hin & Hz & Hlt)].
    + left. destruct (recorded_product_z cda k l); [|done]. by destruct (PrimFloat.ltb _ _).
    + apply elem_of_cons in Hin as [[= -> ->]|Hin]; [left; by rewrite Hz, Hlt|eauto 10].
Qed.

Lemma set_node_attr_other (n : Z) (key : string) (v : value) (gr gr' : graph)
    (n' : Z) (K : string) :
  set_node_attr n key v gr = Ok gr' → K ≠ key → node_attr gr' n' K = node_attr gr n' K.
Proof.
  intros Hrun HK. apply set_node_attr_lookup in Hrun as (old & Hold & Hnode).
  rewrite (node_attr_insert _ _ _ _ _ _ Hnode). case_decide as Hn; [|done].
  subst. unfold node_attr. rewrite Hold. simpl. by rewrite lookup_insert_ne.
Qed.

Lemma add_edge_attr (u v : Z) (attr : attrs) (gr : graph) (n : Z) (K : string) :
  node_attr (add_edge u v attr gr) n K = node_attr gr n K.
Proof.
  unfold node_attr. rewrite add_edge_lookup.
  destruct (node gr !! n); [done|]. by case_decide.
Qed.

(** A bond writes a depth mark of a side only while the flag of the side
    is up; no other attribute of a node changes. *)
Lemma assemble_bond_attr (mapping : gmap Z Z) (cdb : gmap Z (gmap Z attrs))
    (st : asm) (gr gr' : graph) (b : Z * Z * Z * Z) (n : Z) (K : string) :
  assemble_bond mapping cdb st gr b = Ok gr' →
  (K = "s_dz" → mdl_s_stereo st = false) →
  (K = "p_dz" → mdl_p_stereo st = false) →
  node_attr gr' n K = node_attr gr n K.
Proof.
  unfold assemble_bond. destruct b as [[[k l] m] s]. intros Hrun Hs Hp.
  apply bind_Ok in Hrun as (mk & _ & Hrun).
  apply bind_Ok in Hrun as (ml & _ & Hrun).
  set (gr1 := match cdb !! k ≫= _ with Some d => _ | None => _ end) in Hrun.
  assert (Hgr1 : node_attr gr1 n K = node_attr gr n K).
  { subst gr1. destruct (cdb !! k ≫= _); apply add_edge_attr. }
  rewrite <- Hgr1. clearbody gr1. case_bool_decide; [|by injection Hrun as <-].
  apply bind_Ok in Hrun as (gr2 & Hgr2 & Hrun).
  assert (Hgr2' : node_attr gr2 n K = node_attr gr1 n K).
  { destruct (mdl_s_stereo st) eqn:Hflag.
    - eapply set_node_attr_other; [done|]. intros ->. by specialize (Hs eq_refl).
    - by injection Hgr2 as <-. }
  rewrite <- Hgr2'. destruct (mdl_p_stereo st) eqn:Hflag; simpl in Hrun.
  - case_bool_decide; [|by injection Hrun as <-].
    eapply set_node_attr_other; [done|]. intros ->. by specialize (Hp eq_refl).
  - by injection Hrun as <-.
Qed.

Lemma bonds_loop_attr (mapping : gmap Z Z) (cdb : gmap Z (gmap Z attrs))
    (st : asm) (bs : list (Z * Z * Z * Z)) (gr gr' : graph) (n : Z) (K : string) :
  for_each (assemble_bond mapping cdb st) bs gr = Ok gr' →
  (K = "s_dz" → mdl_s_stereo st = false) →
  (K = "p_dz" → mdl_p_stereo st = false) →
  node_attr gr' n K = node_attr gr n K.
Proof.
  intros Hrun Hs Hp.
  eapply (for_each_inv _ (λ s, node_attr s n K = node_attr gr n K)); [done| |done].
  intros s b s' _ Hstep <-. by eapply assemble_bond_attr.
Qed.

Lemma dz_loop_attr (dzs : list (Z * value)) (gr gr' : graph) (n : Z) (K : string) :
  for_each apply_dz dzs gr = Ok gr' → K ≠ "p_dz" → node_attr gr' n K = node_attr gr n K.
Proof.
  intros Hrun HK.
  eapply (for_each_inv _ (λ s, node_attr s n K = node_attr gr n K)); [done| |done].
  intros s e s' _ Hstep <-. unfold apply_dz in Hstep.
  destruct (truthy e.2); [by eapply set_node_attr_other|by injection Hstep as <-].
Qed.

(** The four stages of a successful run. *)
Lemma parse_molecule_run (m : molecule) (mapping : gmap Z Z) (gr : graph) :
  parse_molecule m mapping = Ok gr →
  ∃ cda cdb st gr1,
    dat_tables m = Ok (cda, cdb)
    ∧ for_each (assemble_atom mapping cda) (enumerate1 (atoms m))
        {| g := empty_graph; atom_dz := []; mdl_s_stereo := true; mdl_p_stereo := true |}
      = Ok st
    ∧ for_each (assemble_bond mapping cdb st) (bonds m) (g st) = Ok gr1
    ∧ (if mdl_p_stereo st then for_each apply_dz (atom_dz st) gr1 = Ok gr else gr1 = gr).
Proof.
  unfold parse_molecule. intros Hrun.
  apply bind_Ok in Hrun as ([cda cdb] & Htab & Hrun).
  apply bind_Ok in Hrun as (st & Hst & Hrun).
  apply bind_Ok in Hrun as (gr1 & Hgr1 & Hrun).
  exists cda, cdb, st, gr1. repeat split; try done.
  destruct (mdl_p_stereo st); [done|congruence].
Qed.

Lemma enumerate1_elem {T} (xs : list T) (x : T) :
  x ∈ xs → ∃ k, (k, x) ∈ enumerate1 xs.
Proof.
  intros Hx. apply list_elem_of_lookup in Hx as [i Hi].
  exists (1 + Z.of_nat i). apply list_elem_of_lookup. exists i.
  unfold enumerate1. apply lookup_zip_with_Some. eexists _, _. repeat split; [|done].
  apply lookup_seqZ. split; [lia|]. apply lookup_lt_Some in Hi. lia.
Qed.

Lemma enumerate1_NoDup {T} (xs : list T) : NoDup (enumerate1 xs).*1.
Proof.
  unfold enumerate1. rewrite fst_zip; [apply NoDup_seqZ|].
  rewrite length_seqZ. lia.
Qed.


(** **** The order of the floats *)






(** **** Stereo inference (C8) *)

Lemma dz_keys_unwritten (K : string) :
  K ∈ ["s_dz"; "p_dz"] →
  (K ∉ assembled_keys) ∧ (∀ type, K ∉ record_keys type).
Proof.
  intros HK. split.
  - repeat (apply elem_of_cons in HK as [->|HK]); [| |by apply elem_of_nil in HK];
      in_list.
  - intros type. unfold record_keys.
    repeat (apply elem_of_cons in HK as [->|HK]); [| |by apply elem_of_nil in HK];
      repeat case_bool_decide; in_list.
Qed.

(** After the loop over the atoms no node has a depth mark. *)
Lemma atoms_loop_no_dz (m : molecule) (mapping : gmap Z Z)
    (cda : gmap Z attrs) (cdb : gmap Z (gmap Z attrs)) (st : asm) (K : string) (n : Z) :
  dat_tables m = Ok (cda, cdb) →
  for_each (assemble_atom mapping cda) (enumerate1 (atoms m))
    {| g := empty_graph; atom_dz := []; mdl_s_stereo := true; mdl_p_stereo := true |}
  = Ok st →
  K ∈ ["s_dz"; "p_dz"] →
  node_attr (g st) n K = None.
Proof.
  intros Htab Hst HK. apply dz_keys_unwritten in HK as [HK Hrec].
  rewrite (atoms_loop_attr _ _ _ _ _ K Hst HK); [done|].
  intros k d Hd. eapply (dat_tables_lacks m K k); [done| | |done].
  - intros Hin. apply HK. unfold assembled_keys. apply elem_of_app. by left.
  - apply Forall_forall. intros rec _ Hin. by destruct (Hrec (d_type rec)).
Qed.

(** C8 (amended): in the assembly of one molecule block, a nonzero legacy
    z-coordinate at any atom switches the reagent-side stereo inference
    off for the whole block, and a derived product-side z under the
    threshold at any atom that has an atom record switches the
    product-side inference off; with a side switched off no wedge code
    (nor, on the product side, a recorded depth mark) leaves a depth mark
    of that side at any node. *)
Theorem C8_stereo_inference_invalidation (m : molecule) (mapping : gmap Z Z)
    (cda : gmap Z attrs) (cdb : gmap Z (gmap Z attrs)) (gr : graph) :
  dat_tables m = Ok (cda, cdb) →
  parse_molecule m mapping = Ok gr →
  ((∃ l, l ∈ atoms m ∧ PrimFloat.eqb (a_z l) 0%float = false) →
   ∀ n, node_attr gr n "s_dz" = None)
  ∧ ((∃ k l z, (k, l) ∈ enumerate1 (atoms m) ∧ recorded_product_z cda k l = Some z
               ∧ PrimFloat.ltb z z_threshold = true) →
     ∀ n, node_attr gr n "p_dz" = None).
Proof.
  intros Htab Hrun.
  apply parse_molecule_run in Hrun as (cda' & cdb' & st & gr1 & Htab' & Hst & Hgr1 & Hgr).
  assert (cda' = cda ∧ cdb' = cdb) as [-> ->] by (split; congruence).
  split.
  - intros (l & Hl & Hz) n. apply enumerate1_elem in Hl as [k Hk].
    assert (Hflag : mdl_s_stereo st = false).
    { eapply atoms_loop_s_flag; [done|]. right. eauto. }
    assert (Hgr1' : node_attr gr1 n "s_dz" = None).
    { rewrite (bonds_loop_attr _ _ _ _ _ _ n "s_dz" Hgr1); [|done|done].
      eapply atoms_loop_no_dz; [done|done|in_list]. }
    destruct (mdl_p_stereo st); [|by subst].
    by rewrite (dz_loop_attr _ _ _ n "s_dz" Hgr).
  - intros Hwhy n.
    assert (Hflag : mdl_p_stereo st = false).
    { eapply atoms_loop_p_flag; [done|]. by right. }
    rewrite Hflag in Hgr. subst gr1.
    rewrite (bonds_loop_attr _ _ _ _ _ _ n "p_dz" Hgr1); [|done|done].
    eapply atoms_loop_no_dz; [done|done|in_list].
Qed.

(** **** The legacy isotope field (C9) *)



End assembler.

(** ** Part V. Properties of the container *)

Import CGR.

(** *** Classification (C6) *)

Section classification.

Lemma hyb_step_range (h o : Z) : 1 ≤ h ≤ 4 → h ≤ hyb_step h o ≤ 4.
Proof.
  intros Hh. unfold hyb_step.
  repeat case_bool_decide; rewrite ?elem_of_cons, ?elem_of_nil in *; lia.
Qed.

Lemma hyb_step_frozen (h o : Z) : h ∈ [3; 4] → hyb_step h o = h.
Proof. intros Hh. unfold hyb_step. by rewrite bool_decide_false by (intros Hn; by apply Hn). Qed.

Lemma classify_snoc (l : list Z) (o : Z) : classify (l ++ [o]) = hyb_step (classify l) o.
Proof. unfold classify. by rewrite foldl_app. Qed.

Lemma classify_range (l : list Z) : 1 ≤ classify l ≤ 4.
Proof.
  induction l as [|o l IH] using rev_ind; [done|].
  rewrite classify_snoc. pose proof (hyb_step_range (classify l) o IH). lia.
Qed.

Lemma classify_frozen (l rest : list Z) :
  classify l ∈ [3; 4] → classify (l ++ rest) = classify l.
Proof.
  intros Hl. induction rest as [|o rest IH] using rev_ind.
  - by rewrite app_nil_r.
  - rewrite app_assoc, classify_snoc, IH. by apply hyb_step_frozen.
Qed.

(** The inner loop, one side at a time, is the scan of the orders that
    count for the side. *)
Lemma scan_bonds_hyb (gr : CGRContainer) (nbrs : list (Z * DynBond))
    (st st' : (Z * Z) * (Z * Z)) :
  for_each (scan_bond gr) nbrs st = Ok st' →
  st'.1.2 = foldl hyb_step st.1.2 (side_orders reagent nbrs)
  ∧ st'.2.2 = foldl hyb_step st.2.2 (side_orders product nbrs).
Proof.
  revert st. induction nbrs as [|[j b] nbrs IH]; simpl; intros st Hrun.
  - by injection Hrun as <-.
  - apply bind_Ok in Hrun as (st1 & Hstep & Hrun).
    apply IH in Hrun as [-> ->]. unfold scan_bond in Hstep.
    apply bind_Ok in Hstep as (other & _ & Hstep). injection Hstep as <-. simpl.
    unfold side_orders, side_step. simpl.
    split.
    + destruct (order (reagent b)) as [z|]; simpl; [|done].
      by destruct (negb (z =? 0)).
    + destruct (order (product b)) as [z|]; simpl; [|done].
      by destruct (negb (z =? 0)).
Qed.

Lemma map_result_elem {T U} (f : T → result U) (xs : list T) (ys : list U) (y : U) :
  map_result f xs = Ok ys → y ∈ ys → ∃ x, x ∈ xs ∧ f x = Ok y.
Proof.
  revert ys. induction xs as [|x xs IH]; simpl; intros ys Hrun Hy.
  - injection Hrun as <-. by apply elem_of_nil in Hy.
  - apply bind_Ok in Hrun as (y0 & Hy0 & Hrun).
    apply bind_Ok in Hrun as (ys0 & Hys0 & Hrun). injection Hrun as <-.
    apply elem_of_cons in Hy as [->|Hy].
    + exists x. split; [by left|done].
    + destruct (IH _ Hys0 Hy) as (x' & ? & ?). exists x'. split; [by right|done].
Qed.

(** C6: classification reset gives every atom, on each side, the class
    reached by scanning the orders of its bonds that are not zero on that
    side, in adjacency order, from sp3 (1). The class never goes down
    along the scan; a triple (3) or aromatic (4) order met below sp takes
    the class to 3 or 4 at once, and from 3 or 4 no later order changes it;
    a double order (2) takes sp3 to sp2 and sp2 to sp (3) and does nothing
    to 3 or 4. Two double bonds give sp (3), not sp2. *)
Theorem C6_classification (gr gr' : CGRContainer) (i : Z) (atom' : DynAtom)
    (l rest : list Z) (o : Z) :
  (reset_marks gr = Ok gr' →
   (i, atom') ∈ _node gr' →
   ∃ atom0 nbrs,
      (i, atom0) ∈ _node gr ∧ dict_get i (_adj gr) = Some nbrs
      ∧ hybridization (reagent atom') = Some (classify (side_orders reagent nbrs))
      ∧ hybridization (product atom') = Some (classify (side_orders product nbrs)))
  ∧ classify [] = 1
  ∧ classify l ≤ classify (l ++ [o]) ≤ 4
  ∧ (o ∈ [3; 4] → classify (l ++ [o]) ∈ [3; 4]
                  ∧ classify (l ++ o :: rest) = classify (l ++ [o])
                  ∧ (classify l ∈ [1; 2] → classify (l ++ [o]) = o))
  ∧ (classify l = 1 → classify (l ++ [2]) = 2)
  ∧ (classify l = 2 → classify (l ++ [2]) = 3)
  ∧ (classify l ∈ [3; 4] → classify (l ++ [2]) = classify l)
  ∧ classify [2; 2] = 3.
Proof.
  split; [|split; [|split; [|split; [|split; [|split; [|split]]]]]].
  - intros Hrun Hin. unfold reset_marks in Hrun. apply bind_Ok in Hrun as (nodes & Hnodes & Hrun).
    injection Hrun as <-. simpl in Hin.
    destruct (map_result_elem _ _ _ _ Hnodes Hin) as ([i0 atom0] & Hin0 & Hatom).
    unfold reset_atom in Hatom. simpl in Hatom.
    apply bind_Ok in Hatom as (nbrs & Hnbrs & Hatom). apply of_option_Ok in Hnbrs.
    apply bind_Ok in Hatom as (st & Hst & Hatom). injection Hatom as -> <-.
    apply scan_bonds_hyb in Hst as [Hs Hp]. simpl in Hs, Hp.
    exists atom0, nbrs. simpl. rewrite Hs, Hp. done.
  - done.
  - rewrite classify_snoc. pose proof (classify_range l).
    pose proof (hyb_step_range (classify l) o). lia.
  - intros Ho.
    assert (Hsat : classify (l ++ [o]) ∈ [3; 4]).
    { rewrite classify_snoc. pose proof (classify_range l) as Hr.
      unfold hyb_step. case_bool_decide as Hc.
      - repeat (apply elem_of_cons in Ho as [->|Ho]); [| |by apply elem_of_nil in Ho];
          simpl; in_list.
      - destruct (decide (classify l ∈ [3; 4])); done. }
    split; [done|]. split.
    + by rewrite (cons_middle o l rest), app_assoc, classify_frozen.
    + intros Hlow. rewrite classify_snoc. unfold hyb_step.
      rewrite bool_decide_true.
      * repeat (apply elem_of_cons in Ho as [->|Ho]); [| |by apply elem_of_nil in Ho]; done.
      * repeat (apply elem_of_cons in Hlow as [->|Hlow]);
          [| |by apply elem_of_nil in Hlow]; in_list.
  - intros Hl. rewrite classify_snoc, Hl. done.
  - intros Hl. rewrite classify_snoc, Hl. done.
  - intros Hl. by apply classify_frozen.
  - done.
Qed.

End classification.

(** *** Ordered dictionaries and the edge view *)

Section dicts.
Context {V : Type}.
Implicit Types d : list (Z * V).

Lemma dict_get_elem d (k : Z) (v : V) : dict_get k d = Some v → (k, v) ∈ d.
Proof.
  induction d as [|[k' v'] d IH]; simpl; [done|].
  case_bool_decide as Hk.
  - intros [= ->]. subst. by left.
  - intros Hget. right. by apply IH.
Qed.

Lemma dict_get_None d (k : Z) : dict_get k d = None ↔ k ∉ d.*1.
Proof.
  induction d as [|[k' v'] d IH]; simpl.
  - split; [intros _; apply not_elem_of_nil|done].
  - rewrite not_elem_of_cons. case_bool_decide as Hk.
    + split; [done|]. intros [Hne _]. by destruct Hne.
    + rewrite IH. split; [|by intros [_ ?]]. intros Hd. split; [|done]. by intros ->.
Qed.

Lemma dict_get_NoDup d (k : Z) (v : V) : NoDup d.*1 → (k, v) ∈ d → dict_get k d = Some v.
Proof.
  induction d as [|[k' v'] d IH]; simpl; intros Hnd Hin.
  - by apply elem_of_nil in Hin.
  - apply NoDup_cons in Hnd as [Hk' Hnd].
    apply elem_of_cons in Hin as [[= -> ->]|Hin].
    + by rewrite bool_decide_true.
    + rewrite bool_decide_false; [by apply IH|].
      intros ->. apply Hk'. apply list_elem_of_fmap. by exists (k, v).
Qed.

Lemma dict_get_set d (k k' : Z) (v : V) :
  dict_get k' (dict_set k v d) = if decide (k = k') then Some v else dict_get k' d.
Proof.
  induction d as [|[k0 v0] d IH]; simpl.
  - case_decide; [by rewrite bool_decide_true|by rewrite bool_decide_false].
  - destruct (decide (k0 = k)) as [->|Hk0].
    + rewrite bool_decide_true by done. simpl.
      case_decide; [by rewrite bool_decide_true|by rewrite !bool_decide_false].
    + rewrite (bool_decide_false (k0 = k)) by done. simpl. rewrite IH.
      case_bool_decide as Hk'; [|done]. subst. by rewrite decide_False.
Qed.

Lemma dict_set_fresh d (k : Z) (v : V) : k ∉ d.*1 → dict_set k v d = d ++ [(k, v)].
Proof.
  induction d as [|[k0 v0] d IH]; simpl; [done|].
  rewrite not_elem_of_cons. intros [Hne Hk].
  rewrite bool_decide_false by done. by rewrite IH.
Qed.

Lemma dict_set_keys d (k : Z) (v : V) : k ∈ d.*1 → (dict_set k v d).*1 = d.*1.
Proof.
  induction d as [|[k0 v0] d IH]; simpl; intros Hk.
  - by apply elem_of_nil in Hk.
  - case_bool_decide as Hk0; simpl; [by subst|].
    f_equal. apply IH. apply elem_of_cons in Hk as [?|?]; [by subst|done].
Qed.

Lemma dict_get_default (o : option (list (Z * V))) (k : Z) :
  dict_get k (default [] o) = o ≫= dict_get k.
Proof. by destruct o. Qed.

End dicts.

Section edge_view.
Context {A B : Type} `{EqDecision B}.
Implicit Types gr : Graph A B.

(** What [well_formed] says, as propositions. *)
Lemma well_formed_spec gr :
  well_formed gr = true →
  NoDup (_node gr).*1
  ∧ (_adj gr).*1 = (_node gr).*1
  ∧ ∀ u nbrs, (u, nbrs) ∈ _adj gr →
      NoDup nbrs.*1
      ∧ ∀ v b, (v, b) ∈ nbrs → v ∈ (_node gr).*1 ∧ adj_get gr v u = Some b.
Proof.
  unfold well_formed. rewrite !andb_true_iff, !bool_decide_eq_true.
  intros [[Hnd Hkeys] Hall]. split; [done|]. split; [done|].
  intros u nbrs Hin. rewrite forallb_forall in Hall.
  apply list_elem_of_In in Hin. specialize (Hall _ Hin). simpl in Hall.
  apply andb_true_iff in Hall as [Hnbrs Hall]. apply bool_decide_eq_true in Hnbrs.
  split; [done|]. intros v b Hvb. rewrite forallb_forall in Hall.
  apply list_elem_of_In in Hvb. specialize (Hall _ Hvb). simpl in Hall.
  apply andb_true_iff in Hall as [Hv Hsym].
  by apply bool_decide_eq_true in Hv, Hsym.
Qed.

Lemma elem_of_edges_from (adj : list (Z * list (Z * B))) (seen : list Z)
    (u v : Z) (b : B) :
  (u, v, b) ∈ edges_from adj seen
  ↔ ∃ pre nbrs post, adj = pre ++ (u, nbrs) :: post
                     ∧ (v, b) ∈ nbrs ∧ (v ∉ seen) ∧ (v ∉ pre.*1).
Proof.
  revert seen. induction adj as [|[n nbrs] adj IH]; simpl; intros seen.
  - split; [intros Hin; by apply elem_of_nil in Hin|].
    intros (pre & ? & ? & Heq & _). by destruct pre.
  - rewrite elem_of_app, IH, list_elem_of_fmap. split.
    + intros [([v' b'] & [= -> -> ->] & Hin)|(pre & nbrs' & post & -> & Hin & Hseen & Hpre)].
      * apply list_elem_of_filter in Hin as [Hseen Hin]. simpl in Hseen.
        exists [], nbrs, adj. repeat split; [done|done|]. apply not_elem_of_nil.
      * apply not_elem_of_cons in Hseen as [Hn Hseen].
        exists ((n, nbrs) :: pre), nbrs', post. repeat split; [done|done|].
        simpl. by apply not_elem_of_cons.
    + intros (pre & nbrs' & post & Heq & Hin & Hseen & Hpre).
      destruct pre as [|[n0 nbrs0] pre]; simpl in Heq.
      * injection Heq as -> -> ->. left. exists (v, b). split; [done|].
        apply list_elem_of_filter. by split.
      * injection Heq as -> -> ->. right. simpl in Hpre.
        apply not_elem_of_cons in Hpre as [Hn Hpre].
        exists pre, nbrs', post. repeat split; [done| |done].
        by apply not_elem_of_cons.
Qed.

Lemma adj_get_elem gr (u v : Z) (b : B) :
  adj_get gr u v = Some b → ∃ nbrs, (u, nbrs) ∈ _adj gr ∧ (v, b) ∈ nbrs.
Proof.
  unfold adj_get. destruct (dict_get u (_adj gr)) as [nbrs|] eqn:Hu; simpl; [|done].
  intros Hv. exists nbrs. split; by apply dict_get_elem.
Qed.

Lemma elem_adj_get gr (u v : Z) (nbrs : list (Z * B)) (b : B) :
  well_formed gr = true → (u, nbrs) ∈ _adj gr → (v, b) ∈ nbrs → adj_get gr u v = Some b.
Proof.
  intros Hwf Hu Hv. apply well_formed_spec in Hwf as (Hnd & Hkeys & Hnbrs).
  unfold adj_get. rewrite (dict_get_NoDup _ u nbrs); [|by rewrite Hkeys|done]. simpl.
  apply dict_get_NoDup; [|done]. by apply (Hnbrs u nbrs).
Qed.

(** In a well-formed graph the edge view shows the bonds of the
    adjacency index, each under one of its two orientations. *)
Lemma edges_sound gr (u v : Z) (b : B) :
  well_formed gr = true → (u, v, b) ∈ edges gr → adj_get gr u v = Some b.
Proof.
  intros Hwf Hin. apply elem_of_edges_from in Hin as (pre & nbrs & post & Heq & Hv & _).
  eapply elem_adj_get; [done| |done]. rewrite Heq. apply elem_of_app. right. by left.
Qed.

Lemma edges_complete gr (u v : Z) (b : B) :
  well_formed gr = true → adj_get gr u v = Some b →
  (u, v, b) ∈ edges gr ∨ (v, u, b) ∈ edges gr.
Proof.
  intros Hwf Hget. pose proof (well_formed_spec _ Hwf) as (Hnd & Hkeys & Hnbrs).
  rewrite <- Hkeys in Hnd.
  apply adj_get_elem in Hget as (nbrs & Hu & Hv).
  apply list_elem_of_split in Hu as (pre & post & Heq).
  destruct (decide (v ∈ pre.*1)) as [Hpre|Hpre].
  - right. apply list_elem_of_fmap in Hpre as ([v' nbrs_v] & [= <-] & Hpre).
    apply list_elem_of_split in Hpre as (p1 & p2 & ->).
    apply elem_of_edges_from.
    exists p1, nbrs_v, (p2 ++ (u, nbrs) :: post).
    split; [by rewrite Heq, <- app_assoc|]. split; [|split; [apply not_elem_of_nil|]].
    + assert (adj_get gr v u = Some b) as Hsym.
      { apply (Hnbrs u nbrs); [|done]. rewrite Heq. apply elem_of_app. right. by left. }
      apply adj_get_elem in Hsym as (nbrs' & Hv' & Hu').
      assert (nbrs' = nbrs_v) as ->; [|done].
      assert (dict_get v (_adj gr) = Some nbrs') as H1 by (by apply dict_get_NoDup).
      assert (dict_get v (_adj gr) = Some nbrs_v) as H2.
      { apply dict_get_NoDup; [done|]. rewrite Heq. apply elem_of_app. left.
        apply elem_of_app. right. by left. }
      congruence.
    + rewrite Heq, <- app_assoc, fmap_app in Hnd. apply NoDup_app in Hnd as (_ & Hdis & _).
      intros Hu1. apply (Hdis u Hu1). simpl. right. rewrite fmap_app.
      apply elem_of_app. right. by left.
  - left. apply elem_of_edges_from. exists pre, nbrs, post.
    repeat split; [done|done|apply not_elem_of_nil|done].
Qed.

End edge_view.

(** *** Reaction centre (C4) *)

Section centre.
Variable atom_ne : Atom → Atom → bool.
Variable bond_ne : Bond → Bond → bool.

(** Membership in a set built by a loop that adds [f x] for the [x] that
    pass the test [p]. *)
Lemma elem_of_foldl_union {T} (p : T → bool) (f : T → gset Z) (xs : list T)
    (acc : gset Z) (n : Z) :
  n ∈ foldl (λ acc x, if p x then acc ∪ f x else acc) acc xs
  ↔ n ∈ acc ∨ ∃ x, x ∈ xs ∧ p x = true ∧ n ∈ f x.
Proof.
  revert acc. induction xs as [|x xs IH]; simpl; intros acc.
  - split; [by left|]. intros [?|(? & Hin & _)]; [done|]. by apply elem_of_nil in Hin.
  - rewrite IH. split.
    + intros [Hacc|(y & Hy & Hp & Hn)].
      * destruct (p x) eqn:Hpx; [|by left].
        apply elem_of_union in Hacc as [?|?]; [by left|].
        right. exists x. split; [by left|done].
      * right. exists y. split; [by right|done].
    + intros [Hacc|(y & Hy & Hp & Hn)].
      * left. destruct (p x); [|done]. apply elem_of_union. by left.
      * apply elem_of_cons in Hy as [->|Hy].
        -- left. rewrite Hp. apply elem_of_union. by right.
        -- right. by exists y.
Qed.

(** C4: centre extraction returns, without repetition, exactly the atoms
    whose two views differ and both ends of every bond whose two views
    differ, the stereo marks being compared as well only when that is
    asked for; the result is empty exactly when no atom and no bond
    differs. *)
Theorem C4_center_atoms (with_stereo : bool) (self : CGRContainer) (n : Z) :
  (n ∈ get_center_atoms atom_ne bond_ne with_stereo self
   ↔ (∃ atom, (n, atom) ∈ _node self ∧ dynamic_atom atom_ne with_stereo atom = true)
     ∨ (∃ u v bond, (u, v, bond) ∈ edges self
                    ∧ dynamic_bond bond_ne with_stereo bond = true ∧ (n = u ∨ n = v)))
  ∧ NoDup (get_center_atoms atom_ne bond_ne with_stereo self)
  ∧ (get_center_atoms atom_ne bond_ne with_stereo self = []
     ↔ (∀ m atom, (m, atom) ∈ _node self → dynamic_atom atom_ne with_stereo atom = false)
       ∧ (∀ u v bond, (u, v, bond) ∈ edges self →
                      dynamic_bond bond_ne with_stereo bond = false))
  ∧ (∀ atom, dynamic_atom atom_ne false atom = atom_ne (reagent atom) (product atom))
  ∧ (∀ bond, dynamic_bond bond_ne false bond = bond_ne (reagent bond) (product bond))
  ∧ (∀ atom, dynamic_atom atom_ne true atom = true
             ↔ atom_ne (reagent atom) (product atom) = true
               ∨ stereo (reagent atom) ≠ stereo (product atom))
  ∧ (∀ bond, dynamic_bond bond_ne true bond = true
             ↔ bond_ne (reagent bond) (product bond) = true
               ∨ bond_stereo (reagent bond) ≠ bond_stereo (product bond))
  ∧ (well_formed self = true →
     ∀ u v bond, adj_get self u v = Some bond →
                 dynamic_bond bond_ne with_stereo bond = true →
                 u ∈ get_center_atoms atom_ne bond_ne with_stereo self
                 ∧ v ∈ get_center_atoms atom_ne bond_ne with_stereo self).
Proof.
  assert (Hmem : ∀ m, m ∈ get_center_atoms atom_ne bond_ne with_stereo self
     ↔ (∃ atom, (m, atom) ∈ _node self ∧ dynamic_atom atom_ne with_stereo atom = true)
       ∨ (∃ u v bond, (u, v, bond) ∈ edges self
                      ∧ dynamic_bond bond_ne with_stereo bond = true ∧ (m = u ∨ m = v))).
  { intros m. unfold get_center_atoms. rewrite elem_of_elements.
    rewrite (elem_of_foldl_union (λ nmb, dynamic_bond bond_ne with_stereo nmb.2)
               (λ nmb, {[nmb.1.1; nmb.1.2]})).
    rewrite (elem_of_foldl_union (λ na, dynamic_atom atom_ne with_stereo na.2)
               (λ na, {[na.1]})).
    split.
    - intros [[Hempty|([m' atom] & Hin & Hdyn & Hm)]|([[u v] bond] & Hin & Hdyn & Hm)].
      + by apply elem_of_empty in Hempty.
      + left. simpl in *. apply elem_of_singleton in Hm as ->. eauto.
      + right. simpl in *. exists u, v, bond. repeat split; [done|done|].
        apply elem_of_union in Hm as [Hm|Hm]; apply elem_of_singleton in Hm; auto.
    - intros [(atom & Hin & Hdyn)|(u & v & bond & Hin & Hdyn & Hm)].
      + left. right. exists (m, atom). simpl. repeat split; [done|done|].
        by apply elem_of_singleton.
      + right. exists (u, v, bond). simpl. repeat split; [done|done|].
        apply elem_of_union. destruct Hm as [->| ->]; [left|right]; by apply elem_of_singleton. }
  split; [apply Hmem|]. split; [apply NoDup_elements|].
  split; [|split; [|split; [|split; [|split]]]].
  - split.
    + intros Hnil. split.
      * intros m atom Hin. destruct (dynamic_atom _ _ _) eqn:Hdyn; [|done].
        assert (m ∈ get_center_atoms atom_ne bond_ne with_stereo self) as Hm
          by (apply Hmem; eauto).
        rewrite Hnil in Hm. by apply elem_of_nil in Hm.
      * intros u v bond Hin. destruct (dynamic_bond _ _ _) eqn:Hdyn; [|done].
        assert (u ∈ get_center_atoms atom_ne bond_ne with_stereo self) as Hm
          by (apply Hmem; right; eauto 10).
        rewrite Hnil in Hm. by apply elem_of_nil in Hm.
    + intros [Hatoms Hbonds].
      destruct (get_center_atoms atom_ne bond_ne with_stereo self) as [|m ms] eqn:Hc; [done|].
      assert (m ∈ m :: ms) as Hm by (by left).
      apply Hmem in Hm as [(atom & Hin & Hdyn)|(u & v & bond & Hin & Hdyn & _)].
      * by rewrite (Hatoms _ _ Hin) in Hdyn.
      * by rewrite (Hbonds _ _ _ Hin) in Hdyn.
  - intros atom. unfold dynamic_atom. simpl. by rewrite orb_false_r.
  - intros bond. unfold dynamic_bond. simpl. by rewrite orb_false_r.
  - intros atom. unfold dynamic_atom. simpl.
    rewrite orb_true_iff, bool_decide_eq_true. done.
  - intros bond. unfold dynamic_bond. simpl.
    rewrite orb_true_iff, bool_decide_eq_true. done.
  - intros Hwf u v bond Hget Hdyn.
    destruct (edges_complete _ _ _ _ Hwf Hget) as [Hin|Hin];
      split; apply Hmem; right; eauto 10.
Qed.

End centre.

(** *** Decomposition (C5) *)

Section decomposition.
Context {A B : Type}.
Implicit Types gr : Graph A B.

Lemma add_nodes_fold {T} (f : T → A) (xs : list (Z * T)) gr :
  NoDup xs.*1 →
  (∀ k, k ∈ xs.*1 → (k ∉ (_node gr).*1) ∧ (k ∉ (_adj gr).*1)) →
  foldl (λ gr na, add_node na.1 (f na.2) gr) gr xs
  = {| _node := _node gr ++ ((λ na, (na.1, f na.2)) <$> xs);
       _adj := _adj gr ++ ((λ na, (na.1, [])) <$> xs);
       cache := cache gr |}.
Proof.
  revert gr. induction xs as [|[k a] xs IH]; simpl; intros gr Hnd Hfresh.
  - rewrite !app_nil_r. by destruct gr.
  - apply NoDup_cons in Hnd as [Hk Hnd].
    destruct (Hfresh k) as [Hkn Hka]; [by left|].
    rewrite IH; [|done|].
    + unfold add_node. simpl.
      rewrite (proj2 (dict_get_None _ k) Hka).
      rewrite !dict_set_fresh by done. by rewrite <- !app_assoc.
    + intros k' Hk'. destruct (Hfresh k') as [Hkn' Hka']; [by right|].
      unfold add_node. simpl. rewrite (proj2 (dict_get_None _ k) Hka).
      rewrite !dict_set_fresh by done. rewrite !fmap_app. simpl.
      rewrite !not_elem_of_app, !not_elem_of_cons.
      assert (k' ≠ k) by (by intros ->).
      repeat split; try done; apply not_elem_of_nil.
Qed.

Lemma add_node_adj_get (n : Z) (a : A) gr (x y : Z) :
  adj_get (add_node n a gr) x y = adj_get gr x y.
Proof.
  unfold add_node, adj_get. simpl.
  destruct (dict_get n (_adj gr)) as [nbrs|] eqn:Hn; [done|].
  rewrite dict_get_set. case_decide as Hx; [|done]. subst. by rewrite Hn.
Qed.

(** Entering an edge under both of its endpoints. *)
Lemma enter_edge (adj : list (Z * list (Z * B))) (u v : Z) (b : B) (x y : Z) :
  let adj1 := dict_set u (dict_set v b (default [] (dict_get u adj))) adj in
  let adj2 := dict_set v (dict_set u b (default [] (dict_get v adj1))) adj1 in
  dict_get x adj2 ≫= dict_get y
  = if decide ((x = u ∧ y = v) ∨ (x = v ∧ y = u)) then Some b
    else dict_get x adj ≫= dict_get y.
Proof.
  intros adj1 adj2. subst adj1 adj2.
  destruct (decide (x = u)) as [Hxu|Hxu]; destruct (decide (x = v)) as [Hxv|Hxv];
    destruct (decide (y = u)) as [Hyu|Hyu]; destruct (decide (y = v)) as [Hyv|Hyv];
    subst;
    repeat first [ rewrite dict_get_set | rewrite dict_get_default
                 | rewrite decide_True by done | rewrite decide_False by done
                 | progress simpl ];
    try (rewrite decide_True by tauto); try (rewrite decide_False by tauto);
    try done.
Qed.

Lemma ensure_adj_get (fresh : A) (n : Z) gr (x y : Z) :
  adj_get match dict_get n (_node gr) with
          | Some _ => gr
          | None => add_node n fresh gr
          end x y
  = adj_get gr x y.
Proof. destruct (dict_get n (_node gr)); [done|]. apply add_node_adj_get. Qed.

Lemma add_edge_adj_get (fresh : A) (u v : Z) (b : B) gr (x y : Z) :
  adj_get (add_edge fresh u v b gr) x y
  = if decide ((x = u ∧ y = v) ∨ (x = v ∧ y = u)) then Some b else adj_get gr x y.
Proof.
  pose (g0 := match dict_get u (_node gr) with
              | Some _ => gr
              | None => add_node u fresh gr
              end).
  pose (g1 := match dict_get v (_node g0) with
              | Some _ => g0
              | None => add_node v fresh g0
              end).
  transitivity (if decide ((x = u ∧ y = v) ∨ (x = v ∧ y = u)) then Some b
                else adj_get g1 x y).
  - unfold add_edge. cbv zeta. fold g0. fold g1. clearbody g1.
    unfold adj_get. cbn [_adj]. apply enter_edge.
  - subst g1 g0. by rewrite !ensure_adj_get.
Qed.

Lemma add_edge_node (fresh : A) (u v : Z) (b : B) gr :
  u ∈ (_node gr).*1 → v ∈ (_node gr).*1 → _node (add_edge fresh u v b gr) = _node gr.
Proof.
  intros Hu Hv. unfold add_edge. cbn [_node].
  destruct (dict_get u (_node gr)) eqn:Hgu; [|by apply dict_get_None in Hgu].
  destruct (dict_get v (_node gr)) eqn:Hgv; [|by apply dict_get_None in Hgv].
  done.
Qed.

Lemma add_edges_node {T} (fresh : A) (f : T → B) (es : list (Z * Z * T)) gr :
  (∀ e, e ∈ es → e.1.1 ∈ (_node gr).*1 ∧ e.1.2 ∈ (_node gr).*1) →
  _node (foldl (λ gr e, add_edge fresh e.1.1 e.1.2 (f e.2) gr) gr es) = _node gr.
Proof.
  revert gr. induction es as [|e es IH]; cbn [foldl]; intros gr Hnodes; [done|].
  destruct (Hnodes e) as [Hu Hv]; [by left|].
  rewrite IH; [by apply add_edge_node|].
  intros e' He'. rewrite add_edge_node by done. apply Hnodes. by right.
Qed.

(** The adjacency after a batch of edges, when the edges that join [x]
    and [y] all carry [b0]. *)
Lemma add_edges_fold {T} `{EqDecision T} (fresh : A) (f : T → B)
    (es : list (Z * Z * T)) gr (x y : Z) (b0 : B) :
  (∀ e, e ∈ es → e.1.1 ∈ (_node gr).*1 ∧ e.1.2 ∈ (_node gr).*1) →
  (∀ e, e ∈ es → joins e x y → f e.2 = b0) →
  let gr' := foldl (λ gr e, add_edge fresh e.1.1 e.1.2 (f e.2) gr) gr es in
  _node gr' = _node gr
  ∧ adj_get gr' x y
    = if decide (Exists (λ e, joins e x y) es) then Some b0 else adj_get gr x y.
Proof.
  revert gr. induction es as [|e es IH]; cbn [foldl]; intros gr Hnodes Hsame.
  - split; [done|]. rewrite decide_False; [done|]. by intros ?%Exists_nil.
  - destruct (Hnodes e) as [Hu Hv]; [by left|].
    destruct (IH (add_edge fresh e.1.1 e.1.2 (f e.2) gr)) as [Hn Ha].
    + intros e' He'. rewrite add_edge_node by done. apply Hnodes. by right.
    + intros e' He'. apply Hsame. by right.
    + rewrite Hn, Ha, add_edge_node by done. split; [done|].
      rewrite add_edge_adj_get.
      destruct (decide (Exists (λ e0, joins e0 x y) es)) as [Hex|Hex].
      * rewrite decide_True; [done|]. by right.
      * case_decide as Hj.
        -- rewrite decide_True; [|left; unfold joins; intuition congruence].
           rewrite (Hsame e); [done|by left|unfold joins; intuition congruence].
        -- rewrite decide_False; [done|].
           intros [Hj'|?]%Exists_cons; [|done]. apply Hj.
           destruct Hj' as [[<- <-]|[<- <-]]; [by left|by right].
Qed.

End decomposition.

Section decompose.
Variable fresh_atom : Atom.

Lemma adj_get_sym {A B} `{EqDecision B} (gr : Graph A B) (u v : Z) (b : B) :
  well_formed gr = true → adj_get gr u v = Some b → adj_get gr v u = Some b.
Proof.
  intros Hwf Hget. apply well_formed_spec in Hwf as (_ & _ & Hnbrs).
  apply adj_get_elem in Hget as (nbrs & Hu & Hv). by apply (proj2 (Hnbrs u nbrs Hu)).
Qed.

(** One side of the decomposition of a well-formed graph: the atoms of
    the graph under their view, and the bonds whose order counts on that
    side under theirs. *)
Lemma side_molecule_spec (va : DynAtom → Atom) (vb : DynBond → Bond)
    (self : CGRContainer) :
  well_formed self = true →
  _node (side_molecule fresh_atom va vb self) = (λ na, (na.1, va na.2)) <$> _node self
  ∧ ∀ x y b,
      adj_get (side_molecule fresh_atom va vb self) x y = Some b
      ↔ ∃ bond, adj_get self x y = Some bond
                ∧ nonzero (order (vb bond)) = true ∧ b = vb bond.
Proof.
  intros Hwf. pose proof (well_formed_spec _ Hwf) as (Hnd & Hkeys & Hnbrs).
  unfold side_molecule.
  rewrite add_nodes_fold; [|done|intros k _; split; apply not_elem_of_nil].
  set (R0 := {| _node := _; _adj := _; cache := _ |}).
  set (es := filter _ (edges self)).
  assert (Hids : (_node R0).*1 = (_node self).*1).
  { subst R0. simpl. rewrite <- list_fmap_compose. by apply list_fmap_ext. }
  assert (Hends : ∀ e, e ∈ es → e.1.1 ∈ (_node R0).*1 ∧ e.1.2 ∈ (_node R0).*1).
  { intros [[u v] bond] [_ Hin]%list_elem_of_filter. rewrite Hids. simpl.
    apply elem_of_edges_from in Hin as (pre & nbrs & post & Heq & Hv & _).
    assert ((u, nbrs) ∈ _adj self) as Hu.
    { rewrite Heq. apply elem_of_app. right. by left. }
    split.
    - rewrite <- Hkeys. apply list_elem_of_fmap. by exists (u, nbrs).
    - by apply (proj2 (Hnbrs u nbrs Hu) v bond). }
  assert (Hempty : ∀ x y, adj_get R0 x y = None).
  { intros x y. unfold adj_get. subst R0. simpl.
    destruct (dict_get x _) as [nbrs|] eqn:Hx; [|done]. simpl.
    apply dict_get_elem, list_elem_of_fmap in Hx as (na & [= _ ->] & _). done. }
  assert (Hone : ∀ x y e bond, adj_get self x y = Some bond → e ∈ edges self →
                   joins e x y → e.2 = bond).
  { intros x y [[u v] bond'] bond Hget Hin [[Hu Hv]|[Hu Hv]]; simpl in *; subst.
    - apply (edges_sound _ _ _ _ Hwf) in Hin. congruence.
    - apply (edges_sound _ _ _ _ Hwf), (adj_get_sym _ _ _ _ Hwf) in Hin. congruence. }
  split; [by rewrite add_edges_node|].
  intros x y b. destruct (adj_get self x y) as [bond|] eqn:Hget.
  - destruct (add_edges_fold fresh_atom vb es R0 x y (vb bond)) as [_ ->]; [done| |].
    { intros e [_ Hin]%list_elem_of_filter Hj. by rewrite (Hone x y e bond). }
    rewrite Hempty. case_decide as Hex.
    + apply Exists_exists in Hex as (e & [Hnz Hin]%list_elem_of_filter & Hj).
      rewrite (Hone x y e bond) in Hnz by done.
      split; [intros [= <-]; eauto|]. by intros (? & [= <-] & _ & ->).
    + split; [done|]. intros (? & [= <-] & Hnz & _). destruct Hex.
      apply Exists_exists.
      destruct (edges_complete _ _ _ _ Hwf Hget) as [Hin|Hin].
      * exists (x, y, bond). split; [by apply list_elem_of_filter|]. by left.
      * exists (y, x, bond). split; [by apply list_elem_of_filter|]. by right.
  - destruct (add_edges_fold fresh_atom vb es R0 x y (vb (Examples.bond None None)))
      as [_ ->]; [done| |].
    { intros [[u v] bond] [_ Hin]%list_elem_of_filter [[Hu Hv]|[Hu Hv]];
        simpl in *; subst.
      - apply (edges_sound _ _ _ _ Hwf) in Hin. congruence.
      - apply (edges_sound _ _ _ _ Hwf), (adj_get_sym _ _ _ _ Hwf) in Hin. congruence. }
    rewrite Hempty, decide_False.
    + split; [done|]. by intros (? & ? & _).
    + intros (e & [_ Hin]%list_elem_of_filter & Hj)%Exists_exists.
      destruct e as [[u v] bond]. destruct Hj as [[Hu Hv]|[Hu Hv]]; simpl in *; subst.
      * apply (edges_sound _ _ _ _ Hwf) in Hin. congruence.
      * apply (edges_sound _ _ _ _ Hwf), (adj_get_sym _ _ _ _ Hwf) in Hin. congruence.
Qed.

(** C5: for a well-formed graph, [decompose] returns two molecules that
    hold the atoms of the graph, under the same identifiers and in the
    same order, each atom with the attributes of its side; the reagent
    molecule has exactly the edges of the graph whose reagent order is not
    zero, the product molecule exactly those whose product order is not
    zero, each with the attributes of its side. *)
Theorem C5_decompose (self : CGRContainer) :
  well_formed self = true →
  let reagents := (decompose fresh_atom self).1 in
  let products := (decompose fresh_atom self).2 in
  _node reagents = (λ na, (na.1, reagent na.2)) <$> _node self
  ∧ _node products = (λ na, (na.1, product na.2)) <$> _node self
  ∧ (_node reagents).*1 = (_node self).*1
  ∧ (_node products).*1 = (_node self).*1
  ∧ (∀ u v b, adj_get reagents u v = Some b
              ↔ ∃ bond, adj_get self u v = Some bond
                        ∧ nonzero (order (reagent bond)) = true ∧ b = reagent bond)
  ∧ (∀ u v b, adj_get products u v = Some b
              ↔ ∃ bond, adj_get self u v = Some bond
                        ∧ nonzero (order (product bond)) = true ∧ b = product bond).
Proof.
  intros Hwf reagents products.
  assert (reagents = side_molecule fresh_atom reagent reagent self) as -> by done.
  assert (products = side_molecule fresh_atom product product self) as -> by done.
  destruct (side_molecule_spec reagent reagent self Hwf) as [Hrn Hra].
  destruct (side_molecule_spec product product self Hwf) as [Hpn Hpa].
  repeat split; try done.
  - rewrite Hrn, <- list_fmap_compose. by apply list_fmap_ext.
  - rewrite Hpn, <- list_fmap_compose. by apply list_fmap_ext.
  - by apply Hra.
  - by apply Hra.
  - by apply Hpa.
  - by apply Hpa.
Qed.

End decompose.

(** *** The copy flag (C2) *)

Section copy_flag.
Variable get_implicit_h : Atom → list Z → Z.
Variable fresh_dyn : DynAtom.

Lemma for_each_total {T S} (P : S → Prop) (body : S → T → result S) (xs : list T) (s : S) :
  P s →
  (∀ s x, x ∈ xs → P s → ∃ s', body s x = Ok s' ∧ P s') →
  ∃ s', for_each body xs s = Ok s'.
Proof.
  revert s. induction xs as [|x xs IH]; simpl; intros s Hs Hstep; [eauto|].
  destruct (Hstep s x) as (s1 & -> & Hs1); [by left|done|]. simpl.
  apply IH; [done|]. intros s' x' Hx'. apply Hstep. by right.
Qed.

Lemma map_result_total {T U} (f : T → result U) (xs : list T) :
  (∀ x, x ∈ xs → ∃ y, f x = Ok y) → ∃ ys, map_result f xs = Ok ys.
Proof.
  induction xs as [|x xs IH]; simpl; intros Hf; [eauto|].
  destruct (Hf x) as [y ->]; [by left|]. simpl.
  destruct IH as [ys ->]; [intros x' Hx'; apply Hf; by right|]. simpl. eauto.
Qed.

(** On a well-formed graph the classification goes through. *)
Lemma reset_marks_total (self : CGRContainer) :
  well_formed self = true → ∃ marked, reset_marks self = Ok marked.
Proof.
  intros Hwf. apply well_formed_spec in Hwf as (Hnd & Hkeys & Hnbrs).
  unfold reset_marks.
  destruct (map_result_total (reset_atom self) (_node self)) as [nodes ->]; [|simpl; eauto].
  intros [i a] Hin. unfold reset_atom. simpl.
  destruct (dict_get i (_adj self)) as [nbrs|] eqn:Hi.
  - simpl. apply dict_get_elem in Hi.
    destruct (for_each_total (λ _, True) (scan_bond self) nbrs (0, 1, (0, 1)))
      as [st ->]; [done| |simpl; eauto].
    intros st [j b] Hj _. unfold scan_bond. simpl.
    destruct (dict_get j (_node self)) as [other|] eqn:Hother; [simpl; eauto|].
    apply dict_get_None in Hother. destruct Hother.
    by apply (proj2 (Hnbrs i nbrs Hi) j b).
  - apply dict_get_None in Hi. destruct Hi. rewrite Hkeys.
    apply list_elem_of_fmap. by exists (i, a).
Qed.

(** The classification reads the nodes and the adjacency index, not the
    cache. *)
Lemma reset_marks_copy (self marked : CGRContainer) :
  reset_marks self = Ok marked → reset_marks (copy self) = Ok (copy marked).
Proof.
  unfold reset_marks. intros Hrun. apply bind_Ok in Hrun as (nodes & Hnodes & Hrun).
  injection Hrun as <-.
  assert (Hsame : ∀ xs, map_result (reset_atom (copy self)) xs = map_result (reset_atom self) xs).
  { induction xs as [|x xs IH]; simpl; [done|]. by rewrite IH. }
  cbn [_node copy]. rewrite Hsame, Hnodes. done.
Qed.

(** C2 (amended): classification reset takes a copy flag. With the flag
    set it works on a clone and returns it, and the receiver, its cache
    included, is as it was; with the flag unset it returns nothing and
    the receiver itself carries the new marks and an emptied cache.
    Implicify and explicify take no copy flag (a call that passes one is
    refused): they work on the receiver, whose cache is emptied by the
    time they return. *)
Theorem C2_copy_flag (self : CGRContainer) :
  well_formed self = true →
  (∃ marked,
      reset_marks self = Ok marked
      ∧ reset_query_marks true self = Ok (Some (copy marked), self)
      ∧ reset_query_marks false self = Ok (None, flush_cache marked)
      ∧ cache (flush_cache marked) = ∅
      ∧ _adj marked = _adj self
      ∧ call get_implicit_h fresh_dyn ResetQueryMarks (Some true) self
        = Ok (RGraph (copy marked), self)
      ∧ call get_implicit_h fresh_dyn ResetQueryMarks (Some false) self
        = Ok (RNone, flush_cache marked)
      ∧ call get_implicit_h fresh_dyn ResetQueryMarks None self
        = Ok (RNone, flush_cache marked))
  ∧ (∀ m flag, m ≠ ResetQueryMarks →
       call get_implicit_h fresh_dyn m (Some flag) self = Raise TypeError)
  ∧ (∀ r self', call get_implicit_h fresh_dyn ImplicifyHydrogens None self = Ok (r, self') →
       cache self' = ∅ ∧ ∃ c, r = RCount c)
  ∧ (∀ r self', call get_implicit_h fresh_dyn ExplicifyHydrogens None self = Ok (r, self') →
       cache self' = ∅ ∧ ∃ c, r = RCount c).
Proof.
  intros Hwf. split; [|split; [|split]].
  - destruct (reset_marks_total self Hwf) as [marked Hmarked].
    exists marked.
    assert (Htrue : reset_query_marks true self = Ok (Some (copy marked), self)).
    { unfold reset_query_marks. by rewrite (reset_marks_copy _ _ Hmarked). }
    assert (Hfalse : reset_query_marks false self = Ok (None, flush_cache marked)).
    { unfold reset_query_marks. by rewrite Hmarked. }
    repeat split; try done.
    + unfold reset_marks in Hmarked. apply bind_Ok in Hmarked as (? & _ & Hmarked).
      by injection Hmarked as <-.
    + unfold call. simpl. by rewrite Htrue.
    + unfold call. simpl. by rewrite Hfalse.
    + unfold call. simpl. by rewrite Hfalse.
  - intros [] flag Hm; done.
  - intros r self' Hrun. unfold call in Hrun.
    apply bind_Ok in Hrun as ([c s] & Hrun & Hret). injection Hret as <- <-.
    unfold implicify_hydrogens in Hrun.
    apply bind_Ok in Hrun as ([explicit hydrogens] & _ & Hrun).
    apply bind_Ok in Hrun as ([hydrogens' for_remove] & _ & Hrun).
    apply bind_Ok in Hrun as ([gr c'] & _ & Hrun). injection Hrun as <- <-.
    split; [done|eauto].
  - intros r self' Hrun. unfold call in Hrun.
    apply bind_Ok in Hrun as ([c s] & Hrun & Hret). injection Hret as <- <-.
    unfold explicify_hydrogens in Hrun.
    apply bind_Ok in Hrun as (tmp & _ & Hrun). injection Hrun as <- <-.
    split; [done|eauto].
Qed.

End copy_flag.

(** The inputs at which the theorems above are used, and at which the
    claims as first stated fail. *)

Lemma C7_charge_delta_witness :
  (∃ legacy, encode_charge true (CInt 0) (CInt 2)
             = Ok (legacy, Some (String "c" (fmt_plus_d (2 - 0)), "dynatom")))
  ∧ @cgr_atom_dat Examples.small_world "c 2" 0
    = Ok (Some (charge_dict (VInt 0) (VInt 2) (VTuple [VInt 0; VInt 2]))).
Proof.
  pose proof (@C7_charge_delta Examples.small_world true 0 2 2 " 2") as H.
  destruct H as (H1 & H2 & _).
  - lia.
  - lia.
  - repeat constructor; done.
  - reflexivity.
  - split; [exact H1|exact H2].
Defined.

(** C7, as the claim states it, fails at the delta zero: the record [c+0]
    against base 0 does not decode to a product charge 0 + 0; it decodes
    to nothing. *)
Lemma C7_zero_delta_decodes_to_nothing :
  @cgr_atom_dat Examples.small_world (String "c" (fmt_plus_d 0)) 0 = Ok None
  ∧ ¬ ∃ d, @cgr_atom_dat Examples.small_world (String "c" (fmt_plus_d 0)) 0 = Ok (Some d)
           ∧ d !! "p_charge" = Some (VInt (0 + 0)).
Proof. split; [reflexivity|]. intros (d & Hd & _). vm_compute in Hd. congruence. Qed.

Lemma C10_tokens_without_change_dropped_witness :
  @parsedyn "bond" "1>1,2>2" = Ok None
  ∧ @collect_dat Examples.small_world (Examples.block [1; 2]) (∅, ∅)
      {| d_atoms := [1; 2]; d_type := "dynbond"; d_value := DStr "1>1,2>2" |}
    = Ok (∅, ∅).
Proof.
  pose proof (@C10_tokens_without_change_dropped Examples.small_world
                "bond" "1>1,2>2" (Examples.block [1; 2]) (∅, ∅) [1; 2]) as H.
  destruct H as (_ & H2 & H3).
  - repeat constructor; eexists; reflexivity.
  - split; [apply H2|apply H3]; in_list.
Defined.

(** C8, as the claim states it, fails for an atom without a record: both
    carbons have the product-side z [0], which is under the threshold,
    and the wedge still leaves a product-side depth mark at the second. *)
Lemma C8_unrecorded_atom_is_not_tested :
  ∃ gr, @parse_molecule Examples.small_world (Examples.wedge []) (remapped [1; 2]) = Ok gr
        ∧ node_attr gr 1 "p_z" = Some (VFloat 0)
        ∧ PrimFloat.ltb 0 z_threshold = true
        ∧ node_attr gr 2 "p_dz" = Some (VInt 1).
Proof.
  destruct (@parse_molecule Examples.small_world (Examples.wedge []) (remapped [1; 2]))
    as [gr|e] eqn:Hrun; [|vm_compute in Hrun; congruence].
  exists gr. split; [done|].
  assert (Ok gr = @parse_molecule Examples.small_world (Examples.wedge []) (remapped [1; 2]))
    as Hgr by done.
  vm_compute in Hgr. injection Hgr as ->. vm_compute. done.
Qed.

Lemma C8_stereo_inference_invalidation_witness :
  (∃ gr, @parse_molecule Examples.small_world Examples.raised_wedge (remapped [1; 2]) = Ok gr
         ∧ ∀ n, node_attr gr n "s_dz" = None)
  ∧ (∃ gr, @parse_molecule Examples.small_world
             (Examples.wedge [Examples.charge_record 1]) (remapped [1; 2]) = Ok gr
           ∧ ∀ n, node_attr gr n "p_dz" = None).
Proof.
  split.
  - destruct (@parse_molecule Examples.small_world Examples.raised_wedge (remapped [1; 2]))
      as [gr|e] eqn:Hrun; [|vm_compute in Hrun; congruence].
    exists gr. split; [done|].
    destruct (@dat_tables Examples.small_world Examples.raised_wedge)
      as [[cda cdb]|e] eqn:Htab; [|vm_compute in Htab; congruence].
    apply (@C8_stereo_inference_invalidation Examples.small_world _ _ _ _ _ Htab Hrun).
    eexists. split; [by left|reflexivity].
  - destruct (@parse_molecule Examples.small_world
                (Examples.wedge [Examples.charge_record 1]) (remapped [1; 2]))
      as [gr|e] eqn:Hrun; [|vm_compute in Hrun; congruence].
    exists gr. split; [done|].
    destruct (@dat_tables Examples.small_world (Examples.wedge [Examples.charge_record 1]))
      as [[cda cdb]|e] eqn:Htab; [|vm_compute in Htab; congruence].
    apply (@C8_stereo_inference_invalidation Examples.small_world _ _ _ _ _ Htab Hrun).
    exists 1, (Examples.carbon 1), 0%float. split; [by left|].
    split; [|reflexivity].
    assert (Ok (cda, cdb)
            = @dat_tables Examples.small_world (Examples.wedge [Examples.charge_record 1]))
      as Heq by done.
    vm_compute in Heq. injection Heq as -> ->. vm_compute. done.
Defined.


(** C2, as the claim states it, fails: implicify hydrogens has no copy
    flag, so a call that sets one returns no clone. *)
Lemma C2_hydrogen_algorithms_take_no_copy_flag :
  ¬ ∀ m : algorithm,
      ∃ clone, call Examples.carbon_valence (Examples.plain "A") m (Some true) Examples.allene
               = Ok (RGraph clone, Examples.allene).
Proof. intros Hall. destruct (Hall ImplicifyHydrogens) as [clone Hclone]. done. Qed.

Lemma C2_copy_flag_witness :
  ∃ marked,
    reset_query_marks true Examples.allene = Ok (Some (copy marked), Examples.allene)
    ∧ reset_query_marks false Examples.allene = Ok (None, flush_cache marked).
Proof.
  destruct (C2_copy_flag Examples.carbon_valence (Examples.plain "A") Examples.allene)
    as [(marked & _ & Htrue & Hfalse & _) _].
  - reflexivity.
  - by exists marked.
Defined.

Lemma C5_decompose_witness :
  (_node (decompose (Examples.plain "A").(reagent) Examples.changing).1).*1 = [1; 2; 3]
  ∧ adj_get (decompose (Examples.plain "A").(reagent) Examples.changing).2 2 3 = None.
Proof.
  destruct (C5_decompose (Examples.plain "A").(reagent) Examples.changing)
    as (_ & _ & Hids & _ & _ & Hprod).
  - reflexivity.
  - split; [exact Hids|].
    destruct (adj_get _ 2 3) as [b|] eqn:Hb; [|done].
    apply Hprod in Hb as (bond & Hbond & Hnz & _).
    vm_compute in Hbond. injection Hbond as <-. done.
Defined.

Lemma C6_classification_witness :
  ∃ marked central,
    reset_marks Examples.allene = Ok marked
    ∧ (2, central) ∈ _node marked
    ∧ hybridization (reagent central) = Some 3.
Proof.
  destruct (reset_marks Examples.allene) as [marked|e] eqn:Hrun;
    [|vm_compute in Hrun; congruence].
  assert (Hnode : ∃ central, (2, central) ∈ _node marked) .
  { assert (Ok marked = reset_marks Examples.allene) as Heq by done.
    vm_compute in Heq. injection Heq as ->. eexists. right. by left. }
  destruct Hnode as [central Hcentral]. exists marked, central.
  split; [done|]. split; [done|].
  destruct (C6_classification Examples.allene marked 2 central [] [] 0) as [Hmarks _].
  destruct (Hmarks Hrun Hcentral) as (atom0 & nbrs & _ & Hnbrs & Hs & _).
  vm_compute in Hnbrs. injection Hnbrs as <-. exact Hs.
Defined.

Lemma C4_center_atoms_witness :
  3 ∈ get_center_atoms Examples.core_ne Examples.order_ne false Examples.changing
  ∧ get_center_atoms Examples.core_ne Examples.order_ne false Examples.allene = [].
Proof.
  split.
  - destruct (C4_center_atoms Examples.core_ne Examples.order_ne false Examples.changing 3)
      as (_ & _ & _ & _ & _ & _ & _ & Hbond).
    apply (Hbond eq_refl 2 3 (Examples.bond (Some 1) None)); reflexivity.
  - apply (C4_center_atoms Examples.core_ne Examples.order_ne false Examples.allene 0).
    split.
    + intros m atom Hin. unfold Examples.allene in Hin. cbn [_node] in Hin.
      repeat (apply elem_of_cons in Hin as [[= -> ->]|Hin]); try done.
      by apply elem_of_nil in Hin.
    + intros u v bond Hin. change (edges Examples.allene) with
        [(1, 2, Examples.bond (Some 2) (Some 2)); (2, 3, Examples.bond (Some 2) (Some 2))]
        in Hin.
      repeat (apply elem_of_cons in Hin as [[= -> -> ->]|Hin]); try done.
      by apply elem_of_nil in Hin.
Defined.

(** ** Part VI. Further properties of the code *)

(** *** Atom-map resolution *)

Section map_resolution.

Lemma foldl_max_ub (a : Z) (r : list Z) :
  a ≤ foldl Z.max a r ∧ ∀ x, x ∈ r → x ≤ foldl Z.max a r.
Proof.
  revert a. induction r as [|y r IH]; intros a; simpl.
  - split; [lia|]. intros x Hx. by apply elem_of_nil in Hx.
  - destruct (IH (Z.max a y)) as [Ha Hr]. split; [lia|].
    intros x [->|Hx]%elem_of_cons; [lia|by apply Hr].
Qed.

Lemma max_default0_ub (l : list Z) (x : Z) : x ∈ l → x ≤ max_default0 l.
Proof.
  destruct l as [|a r]; [by intros ?%elem_of_nil|]. simpl.
  destruct (foldl_max_ub a r) as [Ha Hr].
  intros [->|Hx]%elem_of_cons; [done|by apply Hr].
Qed.

Lemma length_remove_dups_NoDup (l : list Z) :
  length l ≠ length (remove_dups l) ↔ ¬ NoDup l.
Proof.
  assert (Hle : ∀ l : list Z, (length (remove_dups l) ≤ length l)%nat).
  { clear. induction l as [|x l IH]; simpl; [lia|]. case_decide; simpl; lia. }
  induction l as [|x l IH]; simpl.
  - split; [done|]. intros Hn. destruct Hn. constructor.
  - rewrite NoDup_cons. case_decide as Hx; simpl.
    + split; [tauto|]. intros _. specialize (Hle l). lia.
    + split.
      * intros Hne [_ Hnd]. destruct IH as [IH _]. apply IH; [lia|done].
      * intros Hn Heq. apply Hn. split; [done|].
        destruct (decide (NoDup l)) as [|Hnn]; [done|]. destruct IH as [_ IH].
        apply IH in Hnn. lia.
Qed.

(** The numbers a filled role holds: the mapped numbers it had, and the
    run the counter went through. *)
Lemma fill_maps_elem (maps : list Z) (c x : Z) :
  x ∈ (fill_maps maps c).1 ↔ (x ∈ maps ∧ x ≠ 0) ∨ c ≤ x < (fill_maps maps c).2.
Proof.
  revert c. induction maps as [|j maps IH]; intros c; simpl.
  - rewrite elem_of_nil. split; [tauto|]. intros [[[] _]|?]; lia.
  - case_bool_decide as Hj.
    + specialize (IH c). destruct (fill_maps maps c) as [r c']. simpl in *.
      rewrite !elem_of_cons, IH. split; [|intuition congruence].
      intros [->|[[? ?]|?]]; tauto.
    + specialize (IH (c + 1)). pose proof (fill_maps_spec maps (c + 1)) as [Hc _].
      destruct (fill_maps maps (c + 1)) as [r c']. simpl in *.
      assert (j = 0) as -> by (destruct (decide (j = 0)); [done|by destruct Hj]).
      rewrite !elem_of_cons, IH. split.
      * intros [->|[[? ?]|?]]; [right; lia|tauto|right; lia].
      * intros [[[->|?] ?]|?]; [done|tauto|].
        destruct (decide (x = c)); [by left|right; right; lia].
Qed.

(** Filling a role below the counter brings no repeated number in. *)
Lemma fill_maps_NoDup (maps : list Z) (c : Z) :
  (∀ x, x ∈ maps → x < c) →
  NoDup (fill_maps maps c).1 ↔ NoDup (filter (λ j, j ≠ 0) maps).
Proof.
  revert c. induction maps as [|j maps IH]; intros c Hlt; simpl.
  - done.
  - assert (Hlt' : ∀ x, x ∈ maps → x < c) by (intros x Hx; apply Hlt; by right).
    case_bool_decide as Hj.
    + pose proof (fill_maps_elem maps c j) as Hel. specialize (IH c Hlt').
      destruct (fill_maps maps c) as [r c']. simpl in *.
      rewrite filter_cons_True by done. rewrite !NoDup_cons, IH, Hel.
      rewrite list_elem_of_filter.
      assert (j < c) by (apply Hlt; by left). split; intros [Hn ?]; (split; [|done]).
      * intros [? ?]. apply Hn. by left.
      * intros [?|?]; [apply Hn; tauto|lia].
    + pose proof (fill_maps_elem maps (c + 1) c) as Hel.
      assert (Hlt1 : ∀ x, x ∈ maps → x < c + 1) by (intros x Hx; specialize (Hlt' x Hx); lia).
      specialize (IH (c + 1) Hlt1).
      destruct (fill_maps maps (c + 1)) as [r c']. simpl in *.
      rewrite filter_cons_False by (intros Hne; by apply Hne).
      rewrite NoDup_cons, IH, Hel. split; [tauto|].
      intros ?. split; [|done]. intros [[Hc _]|?]; [|lia]. specialize (Hlt' c Hc). lia.
Qed.

Lemma assigned_cons (j j' : Z) (l l' : list Z) :
  assigned (j :: l) (j' :: l') = (if bool_decide (j = 0) then [j'] else []) ++ assigned l l'.
Proof. done. Qed.

(** The unmapped atoms take a run of consecutive numbers, in their order. *)
Lemma fill_maps_run (maps : list Z) (c : Z) :
  let zeros := Z.of_nat (length (filter (λ j, j = 0) maps)) in
  (fill_maps maps c).2 = c + zeros
  ∧ assigned maps (fill_maps maps c).1 = seqZ c zeros
  ∧ Forall2 (λ j j', j ≠ 0 → j' = j) maps (fill_maps maps c).1.
Proof.
  revert c. induction maps as [|j maps IH]; intros c; simpl.
  - split; [lia|]. split; [done|constructor].
  - case_bool_decide as Hj.
    + destruct (IH c) as (Hc & Hrun & Hkept). destruct (fill_maps maps c) as [r c'].
      simpl in *. rewrite filter_cons_False by (intros ?; by apply Hj).
      rewrite assigned_cons, bool_decide_false by done.
      split; [done|]. split; [done|]. by constructor.
    + destruct (IH (c + 1)) as (Hc & Hrun & Hkept).
      destruct (fill_maps maps (c + 1)) as [r c']. simpl in *. subst j.
      rewrite filter_cons_True by done.
      rewrite assigned_cons, bool_decide_true by done.
      rewrite Hrun. cbn [length]. split; [lia|]. split.
      * rewrite (seqZ_cons c) by lia. simpl. f_equal. f_equal; lia.
      * constructor; [done|done].
Qed.

Lemma fill_maps_id (maps : list Z) (c : Z) : 0 ∉ maps → fill_maps maps c = (maps, c).
Proof.
  induction maps as [|j maps IH]; intros Hz; simpl; [done|].
  apply not_elem_of_cons in Hz as [Hj Hz]. rewrite bool_decide_true by done.
  by rewrite IH.
Qed.

(** One round of the loop: the role is filled, and rejected when a number
    then occurs twice. *)
Lemma map_role_eq (maps : list Z) (c : Z) :
  map_role maps c
  = if bool_decide (NoDup (fill_maps maps c).1) then Ok (fill_maps maps c) else Raise MapError.
Proof.
  unfold map_role.
  assert (Hfill : (if bool_decide (0 ∈ maps) then fill_maps maps c else (maps, c))
                  = fill_maps maps c).
  { case_bool_decide; [done|]. by rewrite fill_maps_id. }
  rewrite Hfill. destruct (fill_maps maps c) as [r c']. simpl.
  pose proof (length_remove_dups_NoDup r) as Hd.
  destruct (decide (NoDup r)) as [Hnd|Hnd].
  - rewrite (bool_decide_true (NoDup r)) by done.
    rewrite bool_decide_false; [done|]. intros Hne. by apply Hd in Hne.
  - rewrite (bool_decide_false (NoDup r)) by done.
    rewrite bool_decide_true; [done|]. by apply Hd.
Qed.

Lemma role_below_counter (l l' : list Z) (x : Z) :
  x ∈ l → x < Z.max (max_default0 l') (max_default0 l) + 1.
Proof. intros Hx%max_default0_ub. lia. Qed.

Lemma role_below_counter' (l l' : list Z) (x : Z) :
  x ∈ l' → x < Z.max (max_default0 l') (max_default0 l) + 1.
Proof. intros Hx%max_default0_ub. lia. Qed.

(** What [_get_reaction] makes of the map numbers of the two roles: the
    roles filled one after the other from one counter, unless a mapped
    number occurs twice in a role. *)
Lemma resolve_maps_eq (substrats products : list molecule) :
  let ms := role_maps substrats in
  let mp := role_maps products in
  let c := Z.max (max_default0 mp) (max_default0 ms) + 1 in
  let fs := fill_maps ms c in
  let fp := fill_maps mp fs.2 in
  resolve_maps false substrats products
  = if bool_decide (NoDup (filter (λ j, j ≠ 0) ms) ∧ NoDup (filter (λ j, j ≠ 0) mp))
    then Ok (fs.1, fp.1) else Raise MapError.
Proof.
  intros ms mp c fs fp. unfold resolve_maps. fold ms mp c.
  rewrite map_role_eq. fold fs.
  assert (Hs : NoDup fs.1 ↔ NoDup (filter (λ j, j ≠ 0) ms)).
  { apply fill_maps_NoDup. intros x Hx. by apply role_below_counter. }
  assert (Hc : c ≤ fs.2) by apply fill_maps_spec.
  assert (Hp : NoDup fp.1 ↔ NoDup (filter (λ j, j ≠ 0) mp)).
  { apply fill_maps_NoDup. intros x Hx.
    pose proof (role_below_counter' ms mp x Hx). fold c in H. lia. }
  case_bool_decide as Hnd.
  - destruct fs as [r c'] eqn:Hfs. cbn [bind fst snd] in *. rewrite map_role_eq. fold fp.
    case_bool_decide as Hnd'.
    + destruct fp as [r' c'']. cbn [bind fst snd] in *.
      rewrite bool_decide_true by tauto. done.
    + rewrite bool_decide_false by tauto. done.
  - rewrite bool_decide_false by tauto. done.
Qed.

(** X1. [_get_reaction] raises the map error exactly when a mapped
    (nonzero) number occurs twice among the atoms of the reactants, or
    twice among the atoms of the products; the numbers it gives to the
    unmapped atoms never bring a repetition about, and it raises nothing
    else while it settles the numbers. *)
Theorem X1_map_error_iff_repeated_number
  (remap : bool) (substrats products : list molecule) :
  (resolve_maps remap substrats products = Raise MapError
   ↔ ¬ NoDup (filter (λ j, j ≠ 0) (role_maps substrats))
     ∨ ¬ NoDup (filter (λ j, j ≠ 0) (role_maps products)))
  ∧ (∀ e, resolve_maps remap substrats products = Raise e → e = MapError).
Proof.
  pose proof (resolve_maps_eq substrats products) as Heq. cbv zeta in Heq.
  assert (Hremap : ∀ e, resolve_maps remap substrats products = Raise e
                        ↔ resolve_maps false substrats products = Raise e).
  { intros e. unfold resolve_maps.
    destruct (map_role _ _) as [[r c]|e1]; [|done]. cbn [bind].
    destruct (map_role _ _) as [[r' c']|e2]; [|done]. cbn [bind]. by destruct remap. }
  split.
  - rewrite Hremap, Heq. case_bool_decide as Hnd.
    + split; [done|]. tauto.
    + split; [|done]. intros _.
      destruct (decide (NoDup (filter (λ j, j ≠ 0) (role_maps substrats)))); [|by left].
      right. tauto.
  - intros e. rewrite Hremap, Heq. case_bool_decide; congruence.
Qed.

(** X2. Without renumbering, every mapped atom keeps its number, and the
    unmapped atoms, those of the reactants first and then those of the
    products, each in their order, are numbered M + 1, M + 2, ... with M
    the largest map number of the reaction (0 when it has no atom). *)
Theorem X2_unmapped_atoms_numbered_above_the_largest
  (substrats products : list molecule) (ms mp : list Z) :
  resolve_maps false substrats products = Ok (ms, mp) →
  let M := Z.max (max_default0 (role_maps products)) (max_default0 (role_maps substrats)) in
  Forall2 (λ j j', j ≠ 0 → j' = j) (role_maps substrats) ms
  ∧ Forall2 (λ j j', j ≠ 0 → j' = j) (role_maps products) mp
  ∧ assigned (role_maps substrats) ms ++ assigned (role_maps products) mp
    = seqZ (M + 1)
        (Z.of_nat (length (filter (λ j, j = 0) (role_maps substrats ++ role_maps products)))).
Proof.
  intros Hrun M. pose proof (resolve_maps_eq substrats products) as Heq. cbv zeta in Heq.
  rewrite Hrun in Heq. case_bool_decide; [|done]. injection Heq as -> ->. fold M.
  destruct (fill_maps_run (role_maps substrats) (M + 1)) as (Hc & Hrun1 & Hkept1).
  destruct (fill_maps_run (role_maps products) (fill_maps (role_maps substrats) (M + 1)).2)
    as (_ & Hrun2 & Hkept2).
  split; [done|]. split; [done|].
  rewrite Hrun1, Hrun2, Hc, filter_app, length_app, Nat2Z.inj_add.
  by rewrite seqZ_app by lia.
Qed.

Lemma X2_unmapped_atoms_numbered_above_the_largest_witness :
  assigned [1; 0; 5; 0] [1; 6; 5; 7] ++ assigned [0; 5] [8; 5] = seqZ 6 3.
Proof.
  apply (X2_unmapped_atoms_numbered_above_the_largest
           [Examples.block [1; 0; 5; 0]] [Examples.block [0; 5]] [1; 6; 5; 7] [8; 5]).
  reflexivity.
Defined.

(** **** Closing the gaps *)

Lemma close_gaps_shifted (lose maps : list Z) :
  close_gaps lose maps = shifted lose <$> maps.
Proof.
  unfold close_gaps, shifted. revert maps.
  induction lose as [|i lose IH]; intros maps; simpl.
  - by rewrite list_fmap_id.
  - rewrite IH, <- list_fmap_compose. done.
Qed.

Lemma shifted_app (l l' : list Z) (j : Z) : shifted (l ++ l') j = shifted l' (shifted l j).
Proof. unfold shifted. by rewrite foldl_app. Qed.

Section lost.
Variable P : Z → Prop.
Context `{!∀ i, Decision (P i)}.

Lemma lost_S (len : nat) :
  reverse (filter P (seqZ 1 (Z.of_nat (S len))))
  = (if decide (P (1 + Z.of_nat len)) then [1 + Z.of_nat len] else [])
    ++ reverse (filter P (seqZ 1 (Z.of_nat len))).
Proof.
  rewrite seqZ_S, filter_app, reverse_app. f_equal.
  rewrite filter_cons, filter_nil. by case_decide.
Qed.

Lemma filter_S (len : nat) :
  length (filter P (seqZ 1 (Z.of_nat (S len))))
  = ((if decide (P (1 + Z.of_nat len)) then 1 else 0)
     + length (filter P (seqZ 1 (Z.of_nat len))))%nat.
Proof.
  rewrite seqZ_S, filter_app, length_app, filter_cons, filter_nil.
  case_decide; simpl; lia.
Qed.

(** A number above every lost one comes down by one for each of them. *)
Lemma shifted_above (len : nat) (v : Z) :
  Z.of_nat len < v →
  shifted (reverse (filter P (seqZ 1 (Z.of_nat len)))) v
  = v - Z.of_nat (length (filter P (seqZ 1 (Z.of_nat len)))).
Proof.
  revert v. induction len as [|len IH]; intros v Hv.
  - simpl. unfold shifted. simpl. lia.
  - rewrite lost_S, filter_S, shifted_app. case_decide.
    + unfold shifted at 2. cbn [foldl]. rewrite bool_decide_false by lia.
      rewrite IH by lia. lia.
    + unfold shifted at 2. cbn [foldl]. rewrite IH by lia. lia.
Qed.

(** A number that is not lost comes down by one for each lost number
    below it. *)
Lemma shifted_kept (len : nat) (j : Z) :
  ¬ P j → 1 ≤ j ≤ Z.of_nat len →
  shifted (reverse (filter P (seqZ 1 (Z.of_nat len)))) j
  = j - Z.of_nat (length (filter P (seqZ 1 (j - 1)))).
Proof.
  intros Hj. induction len as [|len IH]; intros Hr; [lia|].
  rewrite lost_S, shifted_app.
  destruct (decide (j = 1 + Z.of_nat len)) as [->|Hne].
  - rewrite decide_False by done. unfold shifted at 2. cbn [foldl].
    rewrite shifted_above by lia.
    by replace (1 + Z.of_nat len - 1) with (Z.of_nat len) by lia.
  - assert (shifted (if decide (P (1 + Z.of_nat len)) then [1 + Z.of_nat len] else []) j = j)
      as ->.
    { case_decide; [|done]. unfold shifted. cbn [foldl]. by rewrite bool_decide_true by lia. }
    apply IH. lia.
Qed.

End lost.

Lemma filter_complement_length (P Q : Z → Prop)
  `{!∀ i, Decision (P i)} `{!∀ i, Decision (Q i)} (l : list Z) :
  (∀ x, P x ↔ ¬ Q x) →
  (length (filter P l) + length (filter Q l))%nat = length l.
Proof.
  intros HPQ. induction l as [|x l IH]; [done|].
  rewrite !filter_cons. specialize (HPQ x).
  destruct (decide (P x)), (decide (Q x)); simpl; try tauto; lia.
Qed.

(** The rank of a number in use, counted through the numbers that are
    not. *)
Lemma rank_by_complement (used : list Z) (j : Z) :
  j ∈ used → 1 ≤ j →
  rank used j = j - Z.of_nat (length (filter (λ i, i ∉ used) (seqZ 1 (j - 1)))).
Proof.
  intros Hj Hpos. unfold rank.
  assert (seqZ 1 j = seqZ 1 (j - 1) ++ [j]) as ->.
  { replace j with ((j - 1) + 1) at 1 by lia. rewrite seqZ_app by lia.
    rewrite (seqZ_cons _ 1), (seqZ_nil _ (Z.pred 1)) by lia. do 2 f_equal. lia. }
  rewrite filter_app, length_app.
  rewrite filter_cons_True, filter_nil by done. simpl.
  pose proof (filter_complement_length (λ i, i ∉ used) (λ i, i ∈ used) (seqZ 1 (j - 1))) as Hc.
  rewrite length_seqZ in Hc. specialize (Hc (λ x, reflexivity _)). lia.
Qed.

(** Ranks keep the order of the numbers in use. *)
Lemma rank_strict_mono (used : list Z) (j j' : Z) :
  j' ∈ used → 0 ≤ j < j' → rank used j < rank used j'.
Proof.
  intros Hj' Hlt. unfold rank.
  assert (seqZ 1 j' = seqZ 1 j ++ seqZ (1 + j) (j' - j)) as ->.
  { rewrite <- seqZ_app by lia. f_equal. lia. }
  rewrite filter_app, length_app.
  assert (j' ∈ filter (λ i, i ∈ used) (seqZ (1 + j) (j' - j))) as Hin.
  { apply list_elem_of_filter. split; [done|]. apply elem_of_seqZ. lia. }
  destruct (filter _ (seqZ (1 + j) _)); [by apply elem_of_nil in Hin|]. simpl. lia.
Qed.

Lemma rank_bounds (used : list Z) (j : Z) :
  j ∈ used → 1 ≤ j → 1 ≤ rank used j ≤ Z.of_nat (length (remove_dups used)).
Proof.
  intros Hj Hpos. split.
  - pose proof (rank_strict_mono used 0 j Hj). unfold rank in *. simpl in *. lia.
  - unfold rank. apply inj_le, submseteq_length, NoDup_submseteq.
    + apply NoDup_filter, NoDup_seqZ.
    + intros x [Hx _]%list_elem_of_filter. by apply elem_of_remove_dups.
Qed.

Lemma max_default0_nonneg (l : list Z) : Forall (λ j, 0 ≤ j) l → 0 ≤ max_default0 l.
Proof.
  destruct l as [|a r]; [done|]. intros [Ha _]%Forall_cons. simpl.
  pose proof (foldl_max_ub a r) as [? _]. lia.
Qed.

(** With renumbering, every number is replaced by its rank among the
    numbers that the two roles hold once the unmapped atoms are
    numbered. *)
Lemma resolve_maps_remap (substrats products : list molecule) (fs fp : list Z) :
  Forall (λ j, 0 ≤ j) (role_maps substrats ++ role_maps products) →
  resolve_maps false substrats products = Ok (fs, fp) →
  resolve_maps true substrats products
  = Ok (rank (fs ++ fp) <$> fs, rank (fs ++ fp) <$> fp)
  ∧ Forall (λ j, 1 ≤ j) (fs ++ fp).
Proof.
  intros [Hs Hp]%Forall_app Hrun.
  pose proof (resolve_maps_eq substrats products) as Heq. cbv zeta in Heq.
  rewrite Hrun in Heq. case_bool_decide as Hnd; [|done]. injection Heq as Hfs Hfp.
  set (ms := role_maps substrats) in *. set (mp := role_maps products) in *.
  set (c := Z.max (max_default0 mp) (max_default0 ms) + 1) in *.
  set (n := (fill_maps mp (fill_maps ms c).2).2).
  assert (Hc : 1 ≤ c).
  { pose proof (max_default0_nonneg ms Hs). pose proof (max_default0_nonneg mp Hp). lia. }
  assert (Hc1 : c ≤ (fill_maps ms c).2) by apply fill_maps_spec.
  assert (Hn : (fill_maps ms c).2 ≤ n) by apply fill_maps_spec.
  assert (Hrange : ∀ j, j ∈ fs ++ fp → 1 ≤ j < n).
  { intros j [Hj|Hj]%elem_of_app.
    - rewrite Hfs in Hj. apply fill_maps_elem in Hj as [[Hj Hnz]|Hj]; [|lia].
      rewrite Forall_forall in Hs. specialize (Hs j Hj).
      pose proof (role_below_counter ms mp j Hj). fold c in H. lia.
    - rewrite Hfp in Hj. apply fill_maps_elem in Hj as [[Hj Hnz]|Hj]; [|fold n in Hj; lia].
      rewrite Forall_forall in Hp. specialize (Hp j Hj).
      pose proof (role_below_counter' ms mp j Hj). fold c in H. lia. }
  split; [|apply Forall_forall; intros j Hj; apply Hrange in Hj; lia].
  assert (Hrun' : resolve_maps true substrats products
                  = Ok (close_gaps (lost_maps n fs fp) fs, close_gaps (lost_maps n fs fp) fp)).
  { unfold resolve_maps in *. fold ms mp c in Hrun |- *.
    rewrite map_role_eq in Hrun |- *. rewrite <- Hfs in *.
    case_bool_decide; [|done]. destruct (fill_maps ms c) as [r c1] eqn:Hfill.
    cbn [bind fst snd] in *. rewrite map_role_eq in Hrun |- *. rewrite <- Hfp in *.
    case_bool_decide; [|done]. subst n. destruct (fill_maps mp c1) as [r' c2].
    cbn [bind fst snd] in *. by subst. }
  rewrite Hrun', !close_gaps_shifted. do 2 f_equal.
  all: apply list_fmap_ext; intros _ j Hj%list_elem_of_lookup_2.
  all: assert (Hin : j ∈ fs ++ fp) by (apply elem_of_app; tauto).
  all: pose proof (Hrange j Hin) as Hjr.
  all: unfold lost_maps; rewrite <- (Z2Nat.id (n - 1)) by lia.
  all: rewrite shifted_kept;
    [|intros [H1 H2]; apply elem_of_app in Hin as [?|?]; tauto|lia].
  all: rewrite rank_by_complement by (done || lia).
  all: do 3 f_equal; apply list_filter_iff; intros i; rewrite elem_of_app; tauto.
Qed.

(** X3. With renumbering, [_get_reaction] replaces every map number by
    its rank among the numbers in use (those the two roles hold once the
    unmapped atoms are numbered), provided no map number of the input is
    negative; the renumbering keeps the order of the numbers, so atoms
    that shared a number still do, and atoms that did not still do not. *)
Theorem X3_gap_closure_renumbers_by_rank
  (substrats products : list molecule) (fs fp : list Z) :
  Forall (λ j, 0 ≤ j) (role_maps substrats ++ role_maps products) →
  resolve_maps false substrats products = Ok (fs, fp) →
  resolve_maps true substrats products
  = Ok (rank (fs ++ fp) <$> fs, rank (fs ++ fp) <$> fp)
  ∧ ∀ j j', j ∈ fs ++ fp → j' ∈ fs ++ fp → j < j' →
            rank (fs ++ fp) j < rank (fs ++ fp) j'.
Proof.
  intros Hpos Hrun. destruct (resolve_maps_remap _ _ _ _ Hpos Hrun) as [Hremap Hone].
  split; [done|]. intros j j' Hj Hj' Hlt. apply rank_strict_mono; [done|].
  rewrite Forall_forall in Hone. specialize (Hone j Hj). lia.
Qed.

Lemma X3_gap_closure_renumbers_by_rank_witness :
  resolve_maps true [Examples.block [1; 5; 0]] [Examples.block [5; 9]]
  = Ok (rank [1; 5; 10; 5; 9] <$> [1; 5; 10], rank [1; 5; 10; 5; 9] <$> [5; 9])
  ∧ rank [1; 5; 10; 5; 9] 5 < rank [1; 5; 10; 5; 9] 9.
Proof.
  destruct (X3_gap_closure_renumbers_by_rank
              [Examples.block [1; 5; 0]] [Examples.block [5; 9]] [1; 5; 10] [5; 9])
    as [Hrun Hord].
  - change (Forall (λ j, 0 ≤ j) [1; 5; 0; 5; 9]). repeat (constructor; [lia|]). constructor.
  - reflexivity.
  - split; [exact Hrun|]. apply Hord; [in_list|in_list|lia].
Defined.

(** X4. With renumbering, and no negative map number in the input, the
    map numbers of the reaction are left without a gap: the numbers in
    use are exactly 1, 2, ..., D, with D the number of different numbers
    in use. *)
Theorem X4_gap_closure_leaves_no_gap
  (substrats products : list molecule) (ms mp : list Z) :
  Forall (λ j, 0 ≤ j) (role_maps substrats ++ role_maps products) →
  resolve_maps true substrats products = Ok (ms, mp) →
  ∀ k, k ∈ ms ++ mp ↔ 1 ≤ k ≤ Z.of_nat (length (remove_dups (ms ++ mp))).
Proof.
  intros Hpos Hrun.
  assert (∃ fs fp, resolve_maps false substrats products = Ok (fs, fp)) as (fs & fp & Hfalse).
  { unfold resolve_maps in *.
    destruct (map_role _ _) as [[r c]|e1]; [|done]. cbn [bind] in *.
    destruct (map_role _ _) as [[r' c']|e2]; [|done]. cbn [bind] in *. by eexists _, _. }
  destruct (resolve_maps_remap _ _ _ _ Hpos Hfalse) as [Hremap Hone].
  rewrite Hrun in Hremap. injection Hremap as -> ->. rewrite <- fmap_app.
  set (used := fs ++ fp) in *. rewrite Forall_forall in Hone.
  set (U := remove_dups used).
  assert (HU : ∀ x, x ∈ U ↔ x ∈ used) by apply elem_of_remove_dups.
  assert (Hnd : NoDup (rank used <$> U)).
  { apply NoDup_fmap_2_strong; [|apply NoDup_remove_dups].
    intros x y Hx%HU Hy%HU Heq.
    destruct (Z.lt_trichotomy x y) as [Hlt|[?|Hlt]]; [|done|].
    - pose proof (rank_strict_mono used x y Hy). specialize (Hone x Hx). lia.
    - pose proof (rank_strict_mono used y x Hx). specialize (Hone y Hy). lia. }
  assert (Hperm : rank used <$> U ≡ₚ seqZ 1 (Z.of_nat (length U))).
  { apply submseteq_length_Permutation.
    - apply NoDup_submseteq; [done|]. intros k (x & -> & Hx%HU)%list_elem_of_fmap.
      apply elem_of_seqZ. pose proof (rank_bounds used x Hx (Hone x Hx)). fold U in H. lia.
    - rewrite length_seqZ, length_fmap. lia. }
  assert (Hsame : ∀ k, k ∈ rank used <$> used ↔ k ∈ rank used <$> U).
  { intros k. rewrite !list_elem_of_fmap. by setoid_rewrite HU. }
  assert (Hlen : length (remove_dups (rank used <$> used)) = length U).
  { rewrite <- (length_fmap (rank used) U). apply Permutation_length, NoDup_Permutation.
    - apply NoDup_remove_dups.
    - done.
    - intros k. by rewrite elem_of_remove_dups. }
  intros k. rewrite Hlen, Hsame, Hperm, elem_of_seqZ. lia.
Qed.

Lemma X4_gap_closure_leaves_no_gap_witness :
  3 ∈ [1; 2; 4] ++ [2; 3]
  ↔ 1 ≤ 3 ≤ Z.of_nat (length (remove_dups ([1; 2; 4] ++ [2; 3]))).
Proof.
  apply (X4_gap_closure_leaves_no_gap
           [Examples.block [1; 5; 0]] [Examples.block [5; 9]] [1; 2; 4] [2; 3]).
  - change (Forall (λ j, 0 ≤ j) [1; 5; 0; 5; 9]). repeat (constructor; [lia|]). constructor.
  - reflexivity.
Defined.

End map_resolution.

(** *** The encoder and the decoder, one after the other *)

Section round_trips.
Context `{!Externals}.

(** X5. Every bond whose two orders are among no bond, 1, 2, 3, 4 and 9
    is read back as it was written: when the orders differ, or are both
    9, the writer gives bond code 8 and one record, and the decoder turns
    that record into the edge attributes of these orders (no key for a
    side without a bond); otherwise the writer gives no record and the
    order as the bond code. *)
Theorem X5_bond_orders_round_trip (i l : Z) (x y : option Z) :
  x ∈ proper_orders → y ∈ proper_orders →
  ∃ recs code,
    encode_bond i l x y = Ok (recs, (i, l, code))
    ∧ if bool_decide (x = y ∧ x ≠ Some 9)
      then recs = [] ∧ code = rep_str x
      else code = "8"
           ∧ ∃ rec, recs = [rec] ∧ sg_atoms rec = [i; l]
                    ∧ cgr_dat (sg_type rec) (DStr (sg_value rec)) = Ok (Some (bond_attrs x y)).
Proof.
  intros Hx Hy. unfold proper_orders in *.
  repeat (apply elem_of_cons in Hx as [->|Hx]); [..|by apply elem_of_nil in Hx].
  all: repeat (apply elem_of_cons in Hy as [->|Hy]); [..|by apply elem_of_nil in Hy].
  all: eexists _, _; split; [reflexivity|]; vm_compute bool_decide; cbv iota.
  all: first [by split | split; [done|]; eexists; split; [done|]; split; [done|];
              vm_compute; reflexivity].
Qed.

(** X6. The charge of an atom that does not change is written to the
    legacy block as its MDL code, without a record; the table [fromMDL]
    turns the code back into the charge when the charge lies between -3
    and 3, and any other charge is written as code 0, the code of charge
    0. *)
Theorem X6_static_charge_code (c : Z) :
  ∃ code,
    encode_atom_charge true 1 (CInt c) (CInt c) = Ok (Some code, [])
    ∧ fromMDL !! code = Some (if bool_decide (-3 ≤ c ≤ 3) then c else 0).
Proof.
  unfold encode_atom_charge, encode_charge. rewrite bool_decide_false by (intros Hne; by apply Hne).
  cbn [bind mbind option_bind]. eexists. split; [reflexivity|].
  case_bool_decide as Hc.
  - assert (c = -3 ∨ c = -2 ∨ c = -1 ∨ c = 0 ∨ c = 1 ∨ c = 2 ∨ c = 3) as Hcases by lia.
    destruct Hcases as [->|[->|[->|[->|[->|[->| ->]]]]]]; reflexivity.
  - assert (toMDL !! c = None) as ->; [|reflexivity].
    apply not_elem_of_list_to_map_1. cbn [fmap list_fmap fst].
    intros Hin. repeat (apply elem_of_cons in Hin as [->|Hin]; [lia|]).
    by apply elem_of_nil in Hin.
Qed.

(** **** Marks: [__get_state] against [__parsedyn] and [__parselist] *)

Lemma chars_app (a b : string) :
  list_ascii_of_string (a +:+ b) = list_ascii_of_string a ++ list_ascii_of_string b.
Proof. induction a as [|c a IH]; simpl; [done|]. by rewrite IH. Qed.

(** The text before the first separator is the first field. *)
Lemma split_first (sep : ascii) (a b : string) :
  Forall (λ c, c ≠ sep) (list_ascii_of_string a) →
  split sep (a +:+ String sep b) = a :: split sep b.
Proof.
  induction a as [|c a IH]; simpl; intros Ha.
  - by rewrite Ascii.eqb_refl.
  - apply Forall_cons in Ha as [Hc Ha]. rewrite IH by done.
    destruct (Ascii.eqb_spec c sep); done.
Qed.

(** A text that starts with a digit carries no sign. *)
Lemma unsigned_text (c : ascii) (r : string) :
  is_digit c = true →
  match String c r with
  | String "+" r' => (false, r')
  | String "-" r' => (true, r')
  | _ => (false, String c r)
  end = (false, String c r).
Proof. destruct c as [[] [] [] [] [] [] [] []]; intros Hd; try done. Qed.

(** [int(str(z)) == z] *)
Lemma int_str_int (z : Z) : int (str_int z) = Ok z.
Proof.
  unfold str_int, int. destruct z as [|p|p]; simpl Z.to_int; cbv iota.
  - reflexivity.
  - pose proof (Unsigned.to_uint_nonnil p) as Hp. simpl NilZero.string_of_int.
    rewrite nilzero_nonnil by done.
    pose proof (uint_digits (Pos.to_uint p)) as Hd.
    pose proof (string_of_uint_nonnil _ Hp) as Hne.
    pose proof (literal_of_uint _ Hp) as Hlit.
    destruct (NilEmpty.string_of_uint (Pos.to_uint p)) as [|c r]; [done|].
    apply Forall_cons in Hd as Hd'. destruct Hd' as [Hc Hr].
    assert (strip (String c r) = String c r) as ->.
    { unfold strip. simpl. rewrite digit_not_space by done.
      apply rstrip_no_space. eapply Forall_impl; [exact Hd|]. intros ?. apply digit_not_space. }
    rewrite unsigned_text by done.
    destruct (literal_digits _ _) as [ds|]; [|done]. simpl in Hlit |- *.
    destruct (NilEmpty.uint_of_string ds) as [u|]; [|done]. simpl in Hlit |- *.
    injection Hlit as ->. unfold Z.of_uint. by rewrite Unsigned.of_to.
  - pose proof (Unsigned.to_uint_nonnil p) as Hp. simpl NilZero.string_of_int.
    rewrite nilzero_nonnil by done.
    rewrite strip_signed by done.
    pose proof (literal_of_uint _ Hp) as Hlit. simpl in Hlit |- *.
    destruct (literal_digits _ _) as [ds|]; [|done]. simpl in Hlit |- *.
    destruct (NilEmpty.uint_of_string ds) as [u|]; [|done]. simpl in Hlit |- *.
    injection Hlit as ->. unfold Z.of_uint. by rewrite Unsigned.of_to.
Qed.

(** The printed form of an integer holds digits, after a minus sign at
    most. *)
Lemma str_int_chars (z : Z) :
  Forall (λ c, is_digit c = true ∨ c = "-"%char) (list_ascii_of_string (str_int z)).
Proof.
  assert (Hd : ∀ d, Forall (λ c, is_digit c = true ∨ c = "-"%char)
                      (list_ascii_of_string (NilZero.string_of_uint d))).
  { intros d. destruct d; [by repeat constructor|..].
    all: rewrite nilzero_nonnil by done.
    all: eapply Forall_impl; [apply uint_digits|]; tauto. }
  unfold str_int. destruct (Z.to_int z); simpl; [apply Hd|]. constructor; [by right|apply Hd].
Qed.

Lemma str_int_lacks (z : Z) (sep : ascii) :
  is_digit sep = false → sep ≠ "-"%char →
  Forall (λ c, c ≠ sep) (list_ascii_of_string (str_int z)).
Proof.
  intros Hsep Hminus. eapply Forall_impl; [apply str_int_chars|].
  intros c Hc Heq. subst c. destruct Hc as [Hc|Hc]; [congruence|done].
Qed.

Lemma str_int_not_n (z : Z) : str_int z ≠ "n".
Proof.
  intros Heq. pose proof (str_int_lacks z "n" eq_refl) as Hn.
  rewrite Heq in Hn. apply Forall_cons in Hn as [Hn _]; [by apply Hn|done].
Qed.

Lemma str_int_inj (z z' : Z) : str_int z = str_int z' → z = z'.
Proof.
  intros Heq. pose proof (int_str_int z) as Hz. rewrite Heq, int_str_int in Hz. congruence.
Qed.

(** A number that is not zero is read from its printed form as itself. *)
Lemma token_label_number (name : string) (z : Z) :
  name ∈ ["hyb"; "neighbors"] → z ≠ 0 → token_label name (str_int z) = Ok (LInt z).
Proof.
  intros Hname Hz. unfold token_label.
  rewrite !bool_decide_false.
  - rewrite int_str_int. simpl. by rewrite bool_decide_false.
  - apply str_int_not_n.
  - intros ->. repeat (apply elem_of_cons in Hname as [?|Hname]; [done|]).
    by apply elem_of_nil in Hname.
  - intros ->. repeat (apply elem_of_cons in Hname as [?|Hname]; [done|]).
    by apply elem_of_nil in Hname.
Qed.

Lemma label_text_number (z : Z) : z ≠ 0 → label_text (LInt z) = str_int z.
Proof.
  intros Hz. unfold label_text, label_truthy. simpl.
  destruct (Z.eqb_spec z 0); done.
Qed.

Lemma parselist_number (name : string) (z : Z) :
  name ∈ ["hyb"; "neighbors"] → z ≠ 0 →
  parselist name (str_int z)
  = Ok (Some (list_to_map [("s_" +:+ name, VInt z); ("p_" +:+ name, VInt z);
                           ("sp_" +:+ name, VInt z)])).
Proof.
  intros Hname Hz. unfold parselist.
  rewrite split_one by (by apply str_int_lacks). cbn [map_result].
  rewrite token_label_number by done. cbn [bind].
  rewrite bool_decide_true by done. unfold fromkeys_marks, marks.
  rewrite bool_decide_true; [done|].
  repeat (apply elem_of_cons in Hname as [->|Hname]; [in_list|]).
  by apply elem_of_nil in Hname.
Qed.

Lemma parsedyn_pair (name : string) (s p : Z) :
  name ∈ ["hyb"; "neighbors"] → s ≠ 0 → p ≠ 0 → s ≠ p →
  parsedyn name (str_int s +:+ ">" +:+ str_int p)
  = Ok (Some (list_to_map [("s_" +:+ name, VInt s); ("p_" +:+ name, VInt p);
                           ("sp_" +:+ name, VTuple [VInt s; VInt p])])).
Proof.
  intros Hname Hs Hp Hsp. unfold parsedyn.
  rewrite split_one.
  2:{ rewrite chars_app. apply Forall_app. split; [by apply str_int_lacks|].
      constructor; [done|]. by apply str_int_lacks. }
  cbn [for_each]. unfold parsedyn_step, token_ends.
  change (">" +:+ str_int p) with (String ">" (str_int p)).
  rewrite split_first by (by apply str_int_lacks).
  rewrite split_one by (by apply str_int_lacks). cbn [last bind].
  rewrite bool_decide_true by (intros Heq; by apply str_int_inj in Heq).
  rewrite !token_label_number by done. cbn [bind app].
  unfold marks. rewrite bool_decide_true.
  2:{ repeat (apply elem_of_cons in Hname as [->|Hname]; [in_list|]).
      by apply elem_of_nil in Hname. }
  cbn [bind index]. rewrite !bool_decide_true by done.
  repeat (apply elem_of_cons in Hname as [->|Hname]; [vm_compute; reflexivity|]).
  by apply elem_of_nil in Hname.
Qed.

(** X7. The marks [hyb] and [neighbors] of an atom are read back as they
    were written when neither side is zero: sides that differ give a
    record of the changing type whose text is the two numbers around [>],
    equal sides give a record of the fixed type holding the number, and
    the decoder turns either record into the two sides and their pair. *)
Theorem X7_mark_round_trip (name : string) (s p : Z) :
  name ∈ ["hyb"; "neighbors"] → s ≠ 0 → p ≠ 0 →
  ∃ v t,
    get_state (LInt s) (LInt p) ("atom" +:+ name) ("dynatom" +:+ name) = Some (v, t)
    ∧ cgr_dat t (DStr (state_text v))
      = Ok (Some (list_to_map
                    [("s_" +:+ name, VInt s); ("p_" +:+ name, VInt p);
                     ("sp_" +:+ name,
                      if bool_decide (s = p) then VInt s else VTuple [VInt s; VInt p])])).
Proof.
  intros Hname Hs Hp. unfold get_state. destruct (decide (s = p)) as [->|Hsp].
  - rewrite bool_decide_false by (intros Hne; by apply Hne).
    assert (state_truthy (SMark (LInt p)) = true) as ->.
    { simpl. unfold label_truthy. simpl. by destruct (Z.eqb_spec p 0). }
    eexists _, _. split; [reflexivity|]. rewrite bool_decide_true by done.
    rewrite <- parselist_number by done. cbn [state_text].
    repeat (apply elem_of_cons in Hname as [->|Hname]; [reflexivity|]).
    by apply elem_of_nil in Hname.
  - rewrite bool_decide_true by congruence. rewrite !label_text_number by done.
    assert (state_truthy (SText (str_int s +:+ ">" +:+ str_int p)) = true) as ->.
    { simpl. destruct (str_int s); done. }
    eexists _, _. split; [reflexivity|]. rewrite bool_decide_false by done.
    rewrite <- parsedyn_pair by done. cbn [state_text].
    repeat (apply elem_of_cons in Hname as [->|Hname]; [reflexivity|]).
    by apply elem_of_nil in Hname.
Qed.

(** X8. A mark [hyb] or [neighbors] that is zero is not written as a
    number: two zeros give no record at all, and a zero on the reagent
    side against a number on the product side is written as [n], which
    the decoder reads as no value, so that the decoded attributes hold
    the product side and the pair but no reagent side. *)
Theorem X8_zero_mark_is_not_read_back (name : string) (p : Z) :
  name ∈ ["hyb"; "neighbors"] → p ≠ 0 →
  get_state (LInt 0) (LInt 0) ("atom" +:+ name) ("dynatom" +:+ name) = None
  ∧ ∃ v t d,
      get_state (LInt 0) (LInt p) ("atom" +:+ name) ("dynatom" +:+ name) = Some (v, t)
      ∧ cgr_dat t (DStr (state_text v)) = Ok (Some d)
      ∧ d !! ("s_" +:+ name) = None
      ∧ d !! ("p_" +:+ name) = Some (VInt p)
      ∧ d !! ("sp_" +:+ name) = Some (VTuple [VNone; VInt p]).
Proof.
  intros Hname Hp. split; [done|]. unfold get_state.
  rewrite bool_decide_true by congruence. rewrite (label_text_number p) by done.
  change (label_text (LInt 0)) with "n".
  change (state_truthy (SText ("n" +:+ ">" +:+ str_int p))) with true. cbv iota.
  assert (Hrun : parsedyn name ("n" +:+ ">" +:+ str_int p)
                 = Ok (Some (<[ "p_" +:+ name := VInt p ]>
                               {[ "sp_" +:+ name := VTuple [VNone; VInt p] ]}))).
  { unfold parsedyn. rewrite split_one.
    2:{ repeat (constructor; [done|]). by apply str_int_lacks. }
    cbn [for_each]. unfold parsedyn_step, token_ends.
    change ("n" +:+ ">" +:+ str_int p) with ("n" +:+ String ">" (str_int p)).
    rewrite split_first by (by repeat constructor).
    rewrite split_one by (by apply str_int_lacks). cbn [last bind].
    rewrite bool_decide_true by (intros Heq; symmetry in Heq; by apply str_int_not_n in Heq).
    rewrite token_label_number by done.
    assert (token_label name "n" = Ok LNone) as ->.
    { unfold token_label.
      rewrite (bool_decide_false (name = "bond")), (bool_decide_false (name = "stereo"));
        [done|..].
      all: intros ->; repeat (apply elem_of_cons in Hname as [?|Hname]; [done|]).
      all: by apply elem_of_nil in Hname. }
    cbn [bind app]. unfold marks. rewrite bool_decide_true.
    2:{ repeat (apply elem_of_cons in Hname as [->|Hname]; [in_list|]).
        by apply elem_of_nil in Hname. }
    cbn [bind]. change (index [LInt p] 0) with (Ok (LInt p)). cbn [bind].
    by rewrite bool_decide_true by done. }
  eexists _, _, _. split; [reflexivity|]. split.
  { rewrite <- Hrun. cbn [state_text].
    repeat (apply elem_of_cons in Hname as [->|Hname]; [reflexivity|]).
    by apply elem_of_nil in Hname. }
  repeat (apply elem_of_cons in Hname as [->|Hname]; [by repeat split|]).
  by apply elem_of_nil in Hname.
Qed.

End round_trips.

Lemma X5_bond_orders_round_trip_witness :
  ∃ recs code,
    encode_bond 1 2 (Some 2) None = Ok (recs, (1, 2, code))
    ∧ code = "8"
    ∧ ∃ rec, recs = [rec] ∧ sg_atoms rec = [1; 2]
             ∧ @cgr_dat Examples.small_world (sg_type rec) (DStr (sg_value rec))
               = Ok (Some (bond_attrs (Some 2) None)).
Proof.
  destruct (@X5_bond_orders_round_trip Examples.small_world 1 2 (Some 2) None)
    as (recs & code & Hrun & Hrest); [in_list|in_list|].
  by exists recs, code.
Defined.

Lemma X7_mark_round_trip_witness :
  ∃ v t,
    get_state (LInt 1) (LInt 2) "atomhyb" "dynatomhyb" = Some (v, t)
    ∧ @cgr_dat Examples.small_world t (DStr (state_text v))
      = Ok (Some (list_to_map [("s_hyb", VInt 1); ("p_hyb", VInt 2);
                               ("sp_hyb", VTuple [VInt 1; VInt 2])])).
Proof.
  apply (@X7_mark_round_trip Examples.small_world "hyb" 1 2); [in_list|lia|lia].
Defined.

Lemma X8_zero_mark_is_not_read_back_witness :
  get_state (LInt 0) (LInt 0) "atomneighbors" "dynatomneighbors" = None
  ∧ ∃ v t d,
      get_state (LInt 0) (LInt 3) "atomneighbors" "dynatomneighbors" = Some (v, t)
      ∧ @cgr_dat Examples.small_world t (DStr (state_text v)) = Ok (Some d)
      ∧ d !! "s_neighbors" = None
      ∧ d !! "p_neighbors" = Some (VInt 3)
      ∧ d !! "sp_neighbors" = Some (VTuple [VNone; VInt 3]).
Proof.
  apply (@X8_zero_mark_is_not_read_back Examples.small_world "neighbors" 3); [in_list|lia].
Defined.

(** *** The assembled graph *)

Section assembled_graph.
Context `{!Externals}.

Lemma nbrs_lookup (m : gmap Z (gmap Z attrs)) (n v : Z) :
  default ∅ (m !! n) !! v = m !! n ≫= (λ nbrs, nbrs !! v).
Proof. by destruct (m !! n). Qed.

Lemma add_node_edges (n : Z) (attr : attrs) (gr : graph) :
  adj_in_nodes gr →
  adj_in_nodes (CGRrw.add_node n attr gr)
  ∧ ∀ a b, edge_attr (CGRrw.add_node n attr gr) a b = edge_attr gr a b.
Proof.
  intros Hin. unfold CGRrw.add_node, edge_attr.
  destruct (node gr !! n) as [old|] eqn:Hn; simpl.
  - split; [|done]. intros n' Hn'. simpl in *. apply Hin.
    destruct (decide (n = n')) as [->|Hne]; [by rewrite lookup_insert_eq in Hn'|].
    by rewrite lookup_insert_ne in Hn'.
  - split.
    + intros n' Hn'. simpl in *. destruct (decide (n = n')) as [->|Hne];
        [by rewrite lookup_insert_eq in Hn'|].
      rewrite lookup_insert_ne in Hn' by done. rewrite lookup_insert_ne by done.
      by apply Hin.
    + intros a b. destruct (decide (n = a)) as [->|Hne].
      * rewrite lookup_insert_eq, (Hin a Hn). done.
      * by rewrite lookup_insert_ne.
Qed.

Lemma touch_node_edges (n : Z) (gr : graph) :
  adj_in_nodes gr →
  adj_in_nodes (touch_node n gr)
  ∧ (∀ a b, edge_attr (touch_node n gr) a b = edge_attr gr a b)
  ∧ is_Some (node (touch_node n gr) !! n).
Proof.
  intros Hin. unfold touch_node, edge_attr.
  destruct (node gr !! n) as [old|] eqn:Hn; simpl.
  - by rewrite Hn.
  - split; [|split].
    + intros n' Hn'. simpl in *. destruct (decide (n = n')) as [->|Hne];
        [by rewrite lookup_insert_eq in Hn'|].
      rewrite lookup_insert_ne in Hn' by done. rewrite lookup_insert_ne by done.
      by apply Hin.
    + intros a b. destruct (decide (n = a)) as [->|Hne].
      * rewrite lookup_insert_eq, (Hin a Hn). done.
      * by rewrite lookup_insert_ne.
    + by rewrite lookup_insert_eq.
Qed.

Lemma set_node_attr_edges (n : Z) (key : string) (v : value) (gr gr' : graph) :
  set_node_attr n key v gr = Ok gr' →
  adj gr' = adj gr ∧ ∀ n', is_Some (node gr' !! n') ↔ is_Some (node gr !! n').
Proof.
  unfold set_node_attr. intros Hrun.
  apply bind_Ok in Hrun as (old & Hold%of_option_Ok & [= <-]). simpl. split; [done|].
  intros n'. destruct (decide (n = n')) as [->|Hne].
  - rewrite lookup_insert_eq, Hold. split; eauto.
  - by rewrite lookup_insert_ne.
Qed.

Lemma add_edge_edges (u v : Z) (attr : attrs) (gr : graph) :
  adj_in_nodes gr →
  adj_in_nodes (CGRrw.add_edge u v attr gr)
  ∧ ∀ a b, edge_attr (CGRrw.add_edge u v attr gr) a b
           = if decide ((a = u ∧ b = v) ∨ (a = v ∧ b = u))
             then Some (update (default ∅ (edge_attr gr u v)) attr)
             else edge_attr gr a b.
Proof.
  intros Hin.
  destruct (touch_node_edges u gr Hin) as (Hin1 & He1 & Hu1).
  destruct (touch_node_edges v (touch_node u gr) Hin1) as (Hin2 & He2 & Hv2).
  assert (Hu2 : is_Some (node (touch_node v (touch_node u gr)) !! u)).
  { rewrite touch_node_lookup. destruct Hu1 as [x ->]. eauto. }
  assert (He : ∀ a b, edge_attr (touch_node v (touch_node u gr)) a b = edge_attr gr a b).
  { intros a b. by rewrite He2, He1. }
  unfold CGRrw.add_edge. set (g2 := touch_node v (touch_node u gr)) in *.
  clearbody g2. clear He1 He2 Hin1 Hu1. split.
  - intros n Hn. simpl in *.
    assert (n ≠ u) by (intros ->; rewrite Hn in Hu2; by destruct Hu2).
    assert (n ≠ v) by (intros ->; rewrite Hn in Hv2; by destruct Hv2).
    rewrite !lookup_insert_ne by done. by apply Hin2.
  - intros a b. rewrite <- !He. unfold edge_attr. simpl.
    rewrite !nbrs_lookup.
    destruct (decide (a = v)) as [->|Hav].
    + rewrite lookup_insert_eq. simpl.
      destruct (decide (b = u)) as [->|Hbu].
      * rewrite lookup_insert_eq. rewrite decide_True by tauto. by rewrite ?nbrs_lookup.
      * rewrite lookup_insert_ne by done.
        destruct (decide (u = v)) as [->|Huv].
        -- rewrite lookup_insert_eq. simpl. rewrite lookup_insert_ne by done.
           rewrite decide_False by (intros [[? ?]|[? ?]]; congruence). by rewrite ?nbrs_lookup.
        -- rewrite lookup_insert_ne by done. rewrite decide_False by (intros [[? ?]|[? ?]]; congruence). by rewrite ?nbrs_lookup.
    + rewrite lookup_insert_ne by done.
      destruct (decide (a = u)) as [->|Hau].
      * rewrite lookup_insert_eq. simpl.
        destruct (decide (b = v)) as [->|Hbv].
        -- rewrite lookup_insert_eq. rewrite decide_True by tauto. by rewrite ?nbrs_lookup.
        -- rewrite lookup_insert_ne by done. rewrite decide_False by (intros [[? ?]|[? ?]]; congruence). by rewrite ?nbrs_lookup.
      * rewrite lookup_insert_ne by done. rewrite decide_False by (intros [[? ?]|[? ?]]; congruence). by rewrite ?nbrs_lookup.
Qed.

Lemma same_shape_refl (gr : graph) : same_shape gr gr.
Proof. by split. Qed.

Lemma same_shape_trans (gr gr' gr'' : graph) :
  same_shape gr gr' → same_shape gr' gr'' → same_shape gr gr''.
Proof.
  intros [Ha Hn] [Ha' Hn']. split; [congruence|]. intros n. by rewrite Hn', Hn.
Qed.

Lemma same_shape_edges (gr gr' : graph) :
  same_shape gr gr' → adj_in_nodes gr →
  adj_in_nodes gr' ∧ ∀ a b, edge_attr gr' a b = edge_attr gr a b.
Proof.
  intros [Ha Hn] Hin. split.
  - intros n Hnone. rewrite Ha. apply Hin.
    destruct (node gr !! n) eqn:Hx; [|done].
    assert (is_Some (node gr' !! n)) as [? ?] by (apply Hn; eauto). congruence.
  - intros a b. unfold edge_attr. by rewrite Ha.
Qed.

Lemma set_node_attr_shape (n : Z) (key : string) (v : value) (gr gr' : graph) :
  set_node_attr n key v gr = Ok gr' → same_shape gr gr'.
Proof. apply set_node_attr_edges. Qed.

Lemma legacy_element_shape (n : Z) (l : CGRrw.atom) (gr gr' : graph) :
  legacy_element n l gr = Ok gr' → same_shape gr gr'.
Proof.
  unfold legacy_element. intros Hrun. apply bind_Ok in Hrun as (cur & _ & Hrun).
  destruct (_ && _).
  - by apply set_node_attr_shape in Hrun.
  - injection Hrun as <-. apply same_shape_refl.
Qed.

Lemma legacy_isotope_shape (n : Z) (l : CGRrw.atom) (gr gr' : graph) :
  legacy_isotope n l gr = Ok gr' → same_shape gr gr'.
Proof.
  unfold legacy_isotope. intros Hrun. apply bind_Ok in Hrun as (cur & _ & Hrun).
  destruct (_ && _).
  - apply bind_Ok in Hrun as (base & _ & Hrun). by apply set_node_attr_shape in Hrun.
  - injection Hrun as <-. apply same_shape_refl.
Qed.

(** One atom: a node for it, and no edge. *)
Lemma assemble_atom_edges (mapping : gmap Z Z) (cda : gmap Z attrs)
    (st st' : asm) (k : Z) (l : CGRrw.atom) :
  assemble_atom mapping cda st (k, l) = Ok st' →
  adj_in_nodes (g st) →
  adj_in_nodes (g st') ∧ ∀ a b, edge_attr (g st') a b = edge_attr (g st) a b.
Proof.
  intros Hrun Hin. unfold assemble_atom in Hrun.
  apply bind_Ok in Hrun as (n & Hn & Hrun).
  apply bind_Ok in Hrun as (st1 & Hst1 & Hrun).
  apply bind_Ok in Hrun as (gr1 & Hgr1 & Hrun).
  apply bind_Ok in Hrun as (gr2 & Hgr2 & Hrun).
  injection Hrun as <-. simpl.
  assert (Hadd : ∃ attr, g st1 = CGRrw.add_node n attr (g st)).
  { destruct (cda !! k) as [d|].
    - apply bind_Ok in Hst1 as (d' & _ & Hst1).
      apply node_from_record_spec in Hst1 as (z & _ & Hg & _). eauto.
    - injection Hst1 as <-. simpl. eauto. }
  destruct Hadd as [attr Hadd].
  destruct (add_node_edges n attr (g st) Hin) as [Hin1 He1]. rewrite <- Hadd in Hin1, He1.
  pose proof (same_shape_trans _ _ _ (legacy_element_shape _ _ _ _ Hgr1)
                (legacy_isotope_shape _ _ _ _ Hgr2)) as Hshape.
  destruct (same_shape_edges _ _ Hshape Hin1) as [Hin2 He2].
  split; [done|]. intros a b. by rewrite He2, He1.
Qed.

Lemma atoms_loop_shape (mapping : gmap Z Z) (cda : gmap Z attrs)
    (xs : list (Z * CGRrw.atom)) (st st' : asm) :
  for_each (assemble_atom mapping cda) xs st = Ok st' →
  adj_in_nodes (g st) →
  adj_in_nodes (g st')
  ∧ (∀ a b, edge_attr (g st') a b = edge_attr (g st) a b)
  ∧ ∀ n, is_Some (node (g st') !! n)
         ↔ is_Some (node (g st) !! n) ∨ ∃ k l, (k, l) ∈ xs ∧ mapping !! k = Some n.
Proof.
  revert st. induction xs as [|[k l] xs IH]; intros st Hrun Hin; simpl in Hrun.
  - injection Hrun as <-. split; [done|]. split; [done|]. intros n. split; [by left|].
    intros [?|(k & l & []%elem_of_nil & _)]; done.
  - apply bind_Ok in Hrun as (st1 & Hst1 & Hrun).
    destruct (assemble_atom_edges _ _ _ _ _ _ Hst1 Hin) as [Hin1 He1].
    destruct (IH _ Hrun Hin1) as (Hin' & He' & Hn').
    apply assemble_atom_spec in Hst1 as (n0 & new & Hn0 & Hnode & _).
    split; [done|]. split; [intros a b; by rewrite He', He1|].
    intros n. rewrite Hn', Hnode. split.
    + intros [Hs|(k' & l' & Hel & Hk')].
      * destruct (decide (n0 = n)) as [->|Hne].
        -- right. exists k, l. split; [by left|done].
        -- rewrite lookup_insert_ne in Hs by done. by left.
      * right. exists k', l'. split; [by right|done].
    + intros [Hs|(k' & l' & Hel & Hk')].
      * left. destruct (decide (n0 = n)) as [->|Hne].
        -- rewrite lookup_insert_eq. eauto.
        -- by rewrite lookup_insert_ne.
      * apply elem_of_cons in Hel as [[= -> ->]|Hel].
        -- left. assert (n0 = n) as -> by congruence. rewrite lookup_insert_eq. eauto.
        -- right. eauto.
Qed.

(** One bond: an edge between the nodes of its two atoms, with the
    attributes of its record, or else its order on both sides. *)
Lemma assemble_bond_edges (mapping : gmap Z Z) (cdb : gmap Z (gmap Z attrs))
    (st : asm) (gr gr' : graph) (k l o s : Z) :
  assemble_bond mapping cdb st gr (k, l, o, s) = Ok gr' →
  ∃ mk ml,
    mapping !! k = Some mk ∧ mapping !! l = Some ml
    ∧ same_shape
        (CGRrw.add_edge mk ml
           (default (list_to_map [("s_bond", VInt o); ("p_bond", VInt o); ("sp_bond", VInt o)])
              (cdb !! k ≫= (λ d, d !! l))) gr) gr'.
Proof.
  unfold assemble_bond. intros Hrun.
  apply bind_Ok in Hrun as (mk & Hmk%of_option_Ok & Hrun).
  apply bind_Ok in Hrun as (ml & Hml%of_option_Ok & Hrun).
  exists mk, ml. split; [done|]. split; [done|].
  assert (Hd : match cdb !! k ≫= (λ d, d !! l) with
               | Some d => CGRrw.add_edge mk ml d gr
               | None => CGRrw.add_edge mk ml
                           (list_to_map [("s_bond", VInt o); ("p_bond", VInt o);
                                         ("sp_bond", VInt o)]) gr
               end
               = CGRrw.add_edge mk ml
                   (default (list_to_map [("s_bond", VInt o); ("p_bond", VInt o);
                                          ("sp_bond", VInt o)])
                      (cdb !! k ≫= (λ d, d !! l))) gr).
  { by destruct (cdb !! k ≫= _). }
  rewrite Hd in Hrun. clear Hd. set (gr1 := CGRrw.add_edge _ _ _ _) in *. clearbody gr1.
  case_bool_decide; [|injection Hrun as <-; apply same_shape_refl].
  apply bind_Ok in Hrun as (gr2 & Hgr2 & Hrun).
  assert (same_shape gr1 gr2) as H12.
  { destruct (mdl_s_stereo st); [by apply set_node_attr_shape in Hgr2|].
    injection Hgr2 as <-. apply same_shape_refl. }
  eapply same_shape_trans; [exact H12|].
  destruct (_ && _); [by apply set_node_attr_shape in Hrun|].
  injection Hrun as <-. apply same_shape_refl.
Qed.

Lemma add_edge_nodes (u v : Z) (attr : attrs) (gr : graph) (n : Z) :
  is_Some (node (CGRrw.add_edge u v attr gr) !! n) ↔ n = u ∨ n = v ∨ is_Some (node gr !! n).
Proof.
  rewrite add_edge_lookup. destruct (node gr !! n) as [a|].
  - split; eauto.
  - case_decide as Hn.
    + split; [tauto|eauto].
    + split; [by intros [? ?]|]. intros [?|[?|[? ?]]]; [tauto|tauto|done].
Qed.

Lemma bonds_loop_shape (mapping : gmap Z Z) (cdb : gmap Z (gmap Z attrs))
    (st : asm) (bs : list (Z * Z * Z * Z)) (gr gr' : graph) :
  for_each (assemble_bond mapping cdb st) bs gr = Ok gr' →
  adj_in_nodes gr →
  adj_in_nodes gr'
  ∧ (∀ a b, is_Some (edge_attr gr' a b)
            ↔ is_Some (edge_attr gr a b)
              ∨ ∃ k l o s, (k, l, o, s) ∈ bs
                  ∧ (mapping !! k = Some a ∧ mapping !! l = Some b
                     ∨ mapping !! k = Some b ∧ mapping !! l = Some a))
  ∧ ∀ n, is_Some (node gr' !! n)
         ↔ is_Some (node gr !! n)
           ∨ ∃ k l o s, (k, l, o, s) ∈ bs ∧ (mapping !! k = Some n ∨ mapping !! l = Some n).
Proof.
  revert gr. induction bs as [|[[[k l] o] s] bs IH]; intros gr Hrun Hin; simpl in Hrun.
  - injection Hrun as <-. split; [done|]. split.
    + intros a b. split; [by left|]. intros [?|(? & ? & ? & ? & []%elem_of_nil & _)]; done.
    + intros n. split; [by left|]. intros [?|(? & ? & ? & ? & []%elem_of_nil & _)]; done.
  - apply bind_Ok in Hrun as (gr1 & Hgr1 & Hrun).
    apply assemble_bond_edges in Hgr1 as (mk & ml & Hmk & Hml & Hshape).
    set (d := default _ _) in Hshape.
    destruct (add_edge_edges mk ml d gr Hin) as [Hin0 He0].
    destruct (same_shape_edges _ _ Hshape Hin0) as [Hin1 He1].
    destruct (IH _ Hrun Hin1) as (Hin' & He' & Hn'). split; [done|]. split.
    + intros a b. rewrite He', He1, He0. split.
      * intros [Hs|(k' & l' & o' & s' & Hel & Hk')].
        -- case_decide as Hab; [|by left]. right. exists k, l, o, s.
           split; [by left|]. destruct Hab as [[-> ->]|[-> ->]]; tauto.
        -- right. exists k', l', o', s'. split; [by right|done].
      * intros [Hs|(k' & l' & o' & s' & Hel & Hk')].
        -- left. case_decide; [eauto|done].
        -- apply elem_of_cons in Hel as [[= -> -> -> ->]|Hel].
           ++ left. rewrite decide_True; [eauto|].
              destruct Hk' as [[? ?]|[? ?]]; [left|right]; split; congruence.
           ++ right. eauto 10.
    + intros n. rewrite Hn'. destruct Hshape as [_ Hnodes]. rewrite Hnodes, add_edge_nodes.
      split.
      * intros [[->|[->|Hs]]|(k' & l' & o' & s' & Hel & Hk')].
        -- right. exists k, l, o, s. split; [by left|by left].
        -- right. exists k, l, o, s. split; [by left|by right].
        -- by left.
        -- right. exists k', l', o', s'. split; [by right|done].
      * intros [Hs|(k' & l' & o' & s' & Hel & Hk')].
        -- left. tauto.
        -- apply elem_of_cons in Hel as [[= -> -> -> ->]|Hel].
           ++ left. destruct Hk'; [left|right; left]; congruence.
           ++ right. eauto 10.
Qed.

Lemma bonds_loop_sym (mapping : gmap Z Z) (cdb : gmap Z (gmap Z attrs))
    (st : asm) (bs : list (Z * Z * Z * Z)) (gr gr' : graph) :
  for_each (assemble_bond mapping cdb st) bs gr = Ok gr' →
  adj_in_nodes gr →
  (∀ a b, edge_attr gr a b = edge_attr gr b a) →
  ∀ a b, edge_attr gr' a b = edge_attr gr' b a.
Proof.
  revert gr. induction bs as [|[[[k l] o] s] bs IH]; intros gr Hrun Hin Hsym; simpl in Hrun.
  - by injection Hrun as <-.
  - apply bind_Ok in Hrun as (gr1 & Hgr1 & Hrun).
    apply assemble_bond_edges in Hgr1 as (mk & ml & Hmk & Hml & Hshape).
    set (d := default _ _) in Hshape.
    destruct (add_edge_edges mk ml d gr Hin) as [Hin0 He0].
    destruct (same_shape_edges _ _ Hshape Hin0) as [Hin1 He1].
    apply (IH _ Hrun Hin1). intros a b. rewrite !He1, !He0.
    destruct (decide (a = mk ∧ b = ml ∨ a = ml ∧ b = mk)) as [Hab|Hab].
    + rewrite decide_True by tauto. done.
    + rewrite decide_False by tauto. apply Hsym.
Qed.

Lemma dz_loop_shape (dzs : list (Z * value)) (gr gr' : graph) :
  for_each apply_dz dzs gr = Ok gr' → same_shape gr gr'.
Proof.
  revert gr. induction dzs as [|e dzs IH]; intros gr Hrun; simpl in Hrun.
  - injection Hrun as <-. apply same_shape_refl.
  - apply bind_Ok in Hrun as (gr1 & Hgr1 & Hrun).
    eapply same_shape_trans; [|by apply IH]. unfold apply_dz in Hgr1.
    destruct (truthy _); [by apply set_node_attr_shape in Hgr1|].
    injection Hgr1 as <-. apply same_shape_refl.
Qed.

(** The nodes and the edges of the assembled graph. *)
Lemma parse_molecule_shape
    (m : molecule) (mapping : gmap Z Z) (gr : graph) :
  parse_molecule m mapping = Ok gr →
  (∀ n, is_Some (node gr !! n)
        ↔ (∃ k l, (k, l) ∈ enumerate1 (atoms m) ∧ mapping !! k = Some n)
          ∨ ∃ k l o s, (k, l, o, s) ∈ bonds m
                       ∧ (mapping !! k = Some n ∨ mapping !! l = Some n))
  ∧ (∀ a b, is_Some (edge_attr gr a b)
            ↔ ∃ k l o s, (k, l, o, s) ∈ bonds m
                ∧ (mapping !! k = Some a ∧ mapping !! l = Some b
                   ∨ mapping !! k = Some b ∧ mapping !! l = Some a))
  ∧ ∀ a b, edge_attr gr a b = edge_attr gr b a.
Proof.
  intros Hrun.
  apply parse_molecule_run in Hrun as (cda & cdb & st & gr1 & _ & Hatoms & Hbonds & Hdz).
  assert (Hin0 : adj_in_nodes (g {| g := empty_graph; atom_dz := [];
                                     mdl_s_stereo := true; mdl_p_stereo := true |})) by done.
  destruct (atoms_loop_shape _ _ _ _ _ Hatoms Hin0) as (Hin1 & He1 & Hn1).
  destruct (bonds_loop_shape _ _ _ _ _ _ Hbonds Hin1) as (Hin2 & He2 & Hn2).
  assert (Hshape : same_shape gr1 gr).
  { destruct (mdl_p_stereo st); [by apply dz_loop_shape in Hdz|].
    subst. apply same_shape_refl. }
  destruct (same_shape_edges _ _ Hshape Hin2) as [Hin3 He3].
  destruct Hshape as [_ Hn3].
  assert (Hedges : ∀ a b, is_Some (edge_attr gr a b)
            ↔ ∃ k l o s, (k, l, o, s) ∈ bonds m
                ∧ (mapping !! k = Some a ∧ mapping !! l = Some b
                   ∨ mapping !! k = Some b ∧ mapping !! l = Some a)).
  { intros a b. rewrite He3, He2, He1. split; [|eauto].
    intros [[? Hs]|?]; [|done]. unfold edge_attr in Hs. simpl in Hs.
    by rewrite lookup_empty in Hs. }
  split; [|split; [done|]].
  - intros n. rewrite Hn3, Hn2, Hn1. split; [|tauto].
    intros [[[? Hs]|?]|?]; [|tauto|tauto]. simpl in Hs. by rewrite lookup_empty in Hs.
  - intros a b. rewrite !He3. eapply bonds_loop_sym; [done..|].
    intros a' b'. rewrite !He1. unfold edge_attr. simpl. by rewrite !lookup_empty.
Qed.

(** X9. The graph [__parse_molecule] returns has the shape of the block
    it was given: its nodes are the identifiers that [mapping] gives to
    the atoms of the block, with those it gives to the ends of the bonds,
    and two nodes are joined exactly when a bond of the block joins two
    atoms that [mapping] sends to them, in either direction; the records
    of the block add no node and no edge. *)
Theorem X9_assembled_graph_has_the_shape_of_the_block
    (m : molecule) (mapping : gmap Z Z) (gr : graph) :
  parse_molecule m mapping = Ok gr →
  (∀ n, is_Some (node gr !! n)
        ↔ (∃ k l, (k, l) ∈ enumerate1 (atoms m) ∧ mapping !! k = Some n)
          ∨ ∃ k l o s, (k, l, o, s) ∈ bonds m
                       ∧ (mapping !! k = Some n ∨ mapping !! l = Some n))
  ∧ (∀ a b, is_Some (edge_attr gr a b)
            ↔ ∃ k l o s, (k, l, o, s) ∈ bonds m
                ∧ (mapping !! k = Some a ∧ mapping !! l = Some b
                   ∨ mapping !! k = Some b ∧ mapping !! l = Some a))
  ∧ ∀ a b, edge_attr gr a b = edge_attr gr b a.
Proof. apply parse_molecule_shape. Qed.

(** **** An atom without a record *)

(** The place of one atom in the loop over the atoms: when no other atom
    of the block has its identifier, its node is new when its turn comes,
    and the atoms after it leave the node as it made it. *)
Lemma atoms_loop_at (m : molecule) (mapping : gmap Z Z) (cda : gmap Z attrs)
    (st : asm) (k : Z) (l : CGRrw.atom) (n : Z) :
  for_each (assemble_atom mapping cda) (enumerate1 (atoms m))
    {| g := empty_graph; atom_dz := []; mdl_s_stereo := true; mdl_p_stereo := true |}
  = Ok st →
  (k, l) ∈ enumerate1 (atoms m) →
  mapping !! k = Some n →
  (∀ k' l', (k', l') ∈ enumerate1 (atoms m) → mapping !! k' = Some n → k' = k) →
  ∃ st0 st1, assemble_atom mapping cda st0 (k, l) = Ok st1
             ∧ node (g st0) !! n = None
             ∧ node (g st) !! n = node (g st1) !! n.
Proof.
  intros Hst Hkl Hn Huniq.
  pose proof (enumerate1_NoDup (atoms m)) as Hnodup.
  apply list_elem_of_split in Hkl as (pre & post & Hsplit).
  rewrite Hsplit in Hst, Huniq, Hnodup.
  rewrite fmap_app, fmap_cons in Hnodup. simpl in Hnodup.
  apply NoDup_app in Hnodup as (_ & Hpre & Hpost).
  apply NoDup_cons in Hpost as [Hpost _].
  assert (Hother : ∀ k' l' s s', (k', l') ∈ pre ++ post →
            assemble_atom mapping cda s (k', l') = Ok s' →
            node (g s') !! n = node (g s) !! n).
  { intros k' l' s s' Hin Hstep.
    apply assemble_atom_spec in Hstep as (n' & new & Hn' & Hnode & _).
    rewrite Hnode. apply lookup_insert_ne. intros ->.
    assert (k' = k) as ->.
    { apply (Huniq k' l'); [|done]. apply elem_of_app in Hin as [?|?];
        apply elem_of_app; [by left|right; by right]. }
    apply elem_of_app in Hin as [Hin|Hin].
    - apply (Hpre k); [|by left]. apply list_elem_of_fmap. by exists (k, l').
    - apply Hpost. apply list_elem_of_fmap. by exists (k, l'). }
  rewrite for_each_app in Hst. apply bind_Ok in Hst as (st0 & Hst0 & Hst).
  simpl in Hst. apply bind_Ok in Hst as (st1 & Hst1 & Hst).
  exists st0, st1. split; [done|]. split.
  - eapply (for_each_inv _ (λ s, node (g s) !! n = None)); [exact Hst0| |done].
    intros s [k' l'] s' Hin Hstep Hs. rewrite <- Hs.
    eapply Hother; [|done]. apply elem_of_app. by left.
  - eapply (for_each_inv _ (λ s, node (g s) !! n = node (g st1) !! n)); [exact Hst| |done].
    intros s [k' l'] s' Hin Hstep Hs. rewrite <- Hs.
    eapply Hother; [|done]. apply elem_of_app. by right.
Qed.

(** The node of an atom without a record, as its turn in the loop leaves
    it. *)
Lemma assemble_atom_static (mapping : gmap Z Z) (cda : gmap Z attrs)
    (st0 st1 : asm) (k : Z) (l : CGRrw.atom) (n : Z) :
  assemble_atom mapping cda st0 (k, l) = Ok st1 →
  mapping !! k = Some n → cda !! k = None → node (g st0) !! n = None →
  ∃ new,
    node (g st1) !! n = Some new
    ∧ (∀ K, K ≠ "element" → K ≠ "isotope" →
            new !! K = node_attr (g (node_from_legacy n l st0)) n K)
    ∧ new !! "element"
      = if bool_decide (a_element l ∈ ["A"; "*"]) then None else Some (VStr (a_element l)).
Proof.
  intros Hrun Hn Hcda Hfresh. unfold assemble_atom in Hrun.
  rewrite Hn, Hcda in Hrun. cbn [of_option bind] in Hrun.
  apply bind_Ok in Hrun as (gr1 & Hgr1 & Hrun).
  apply bind_Ok in Hrun as (gr2 & Hgr2 & Hrun).
  injection Hrun as <-. cbn [g].
  set (gr0 := g (node_from_legacy n l st0)) in *.
  assert (Hnode0 : ∃ A, node gr0 !! n = Some A ∧ A !! "element" = None) .
  { unfold gr0, node_from_legacy. cbn [g]. rewrite add_node_lookup, Hfresh, lookup_insert_eq.
    eexists. split; [done|]. done. }
  destruct Hnode0 as (A & HA & Hel).
  assert (Hone : ∃ new1, node gr1 !! n = Some new1
            ∧ (∀ K, K ≠ "element" → new1 !! K = A !! K)
            ∧ new1 !! "element"
              = if bool_decide (a_element l ∈ ["A"; "*"]) then None
                else Some (VStr (a_element l))).
  { unfold legacy_element in Hgr1. rewrite HA in Hgr1. cbn [of_option bind] in Hgr1.
    rewrite (bool_decide_true (A !! "element" = None)) in Hgr1 by done.
    case_bool_decide as Hwild; cbn [negb andb] in Hgr1.
    - injection Hgr1 as <-. exists A. by rewrite HA.
    - apply set_node_attr_lookup in Hgr1 as (old & Hold & ->).
      rewrite HA in Hold. injection Hold as <-. rewrite lookup_insert_eq.
      eexists. split; [done|]. split; [|by rewrite lookup_insert_eq].
      intros K HK. by rewrite lookup_insert_ne. }
  destruct Hone as (new1 & Hnew1 & Hkeep1 & Hel1).
  apply legacy_isotope_spec in Hgr2 as (old & new & Hold & -> & Hkeep & _).
  rewrite Hnew1 in Hold. injection Hold as <-.
  exists new. rewrite lookup_insert_eq. split; [done|]. split.
  - intros K HK1 HK2. rewrite Hkeep, Hkeep1 by done. unfold node_attr. simpl.
    by rewrite HA.
  - by rewrite Hkeep.
Qed.

(** What the loops over the bonds and over the depth marks leave of a
    node: everything but the two depth marks. *)
Lemma parse_molecule_node (m : molecule) (mapping : gmap Z Z) (gr : graph) :
  parse_molecule m mapping = Ok gr →
  ∃ cda cdb st,
    dat_tables m = Ok (cda, cdb)
    ∧ for_each (assemble_atom mapping cda) (enumerate1 (atoms m))
        {| g := empty_graph; atom_dz := []; mdl_s_stereo := true; mdl_p_stereo := true |}
      = Ok st
    ∧ ∀ n K, K ≠ "s_dz" → K ≠ "p_dz" → node_attr gr n K = node_attr (g st) n K.
Proof.
  intros Hrun.
  apply parse_molecule_run in Hrun as (cda & cdb & st & gr1 & Htab & Hst & Hgr1 & Hgr).
  exists cda, cdb, st. split; [done|]. split; [done|]. intros n K Hs Hp.
  rewrite <- (bonds_loop_attr _ _ _ _ _ _ n K Hgr1) by done.
  destruct (mdl_p_stereo st); [|by subst].
  by apply (dz_loop_attr _ _ _ n K Hgr).
Qed.

(** X10. An atom that no record of the block names, and whose identifier
    no other atom of the block has, is the same on both sides of the
    assembled graph: the three charge keys hold its charge, the product
    coordinates are its coordinates, its mark is kept, and its element is
    its symbol, or is left out when the symbol is one of the wildcards
    [A] and [*]. *)
Theorem X10_atom_without_record_does_not_change
    (m : molecule) (mapping : gmap Z Z) (gr : graph)
    (cda : gmap Z attrs) (cdb : gmap Z (gmap Z attrs)) (k : Z) (l : CGRrw.atom) (n : Z) :
  parse_molecule m mapping = Ok gr →
  dat_tables m = Ok (cda, cdb) →
  cda !! k = None →
  (k, l) ∈ enumerate1 (atoms m) →
  mapping !! k = Some n →
  (∀ k' l', (k', l') ∈ enumerate1 (atoms m) → mapping !! k' = Some n → k' = k) →
  Forall (λ K, node_attr gr n K = Some (VInt (a_charge l))) ["s_charge"; "p_charge"; "sp_charge"]
  ∧ Forall (λ K, node_attr gr n K = Some (VFloat (a_x l))) ["s_x"; "p_x"]
  ∧ Forall (λ K, node_attr gr n K = Some (VFloat (a_y l))) ["s_y"; "p_y"]
  ∧ Forall (λ K, node_attr gr n K = Some (VFloat (a_z l))) ["s_z"; "p_z"]
  ∧ node_attr gr n "mark" = Some (VStr (a_mark l))
  ∧ node_attr gr n "element"
    = if bool_decide (a_element l ∈ ["A"; "*"]) then None else Some (VStr (a_element l)).
Proof.
  intros Hrun Htab Hcda Hkl Hn Huniq.
  apply parse_molecule_node in Hrun as (cda' & cdb' & st & Htab' & Hst & Hframe).
  rewrite Htab in Htab'. injection Htab' as <- <-.
  destruct (atoms_loop_at _ _ _ _ _ _ _ Hst Hkl Hn Huniq) as (st0 & st1 & Hstep & Hfresh & Hsame).
  destruct (assemble_atom_static _ _ _ _ _ _ _ Hstep Hn Hcda Hfresh) as (new & Hnew & Hkeep & Hel).
  assert (Hattr : ∀ K, K ≠ "s_dz" → K ≠ "p_dz" → node_attr gr n K = new !! K).
  { intros K Hs Hp. rewrite Hframe by done. unfold node_attr. by rewrite Hsame, Hnew. }
  assert (Hval : ∀ K v, K ∈ ["s_charge"; "p_charge"; "sp_charge"; "s_x"; "p_x"; "s_y"; "p_y";
                             "s_z"; "p_z"; "mark"] →
            node_attr (g (node_from_legacy n l st0)) n K = Some v →
            node_attr gr n K = Some v).
  { intros K v HK Hv. rewrite Hattr, Hkeep, <- Hv; [done|..].
    all: intros ->; revert HK; in_list. }
  assert (Hleg : ∀ K, node_attr (g (node_from_legacy n l st0)) n K
                      = update (legacy_attrs l)
                          (list_to_map [("p_x", VFloat (a_x l)); ("p_y", VFloat (a_y l));
                                        ("p_z", VFloat (a_z l));
                                        ("s_charge", VInt (a_charge l));
                                        ("p_charge", VInt (a_charge l));
                                        ("sp_charge", VInt (a_charge l))]) !! K).
  { intros K. unfold node_attr, node_from_legacy. cbn [g].
    by rewrite add_node_lookup, Hfresh, lookup_insert_eq. }
  repeat split; repeat constructor.
  all: try (apply Hval; [in_list|]; rewrite Hleg; reflexivity).
  rewrite Hattr by done. exact Hel.
Qed.

(** **** Bonds without records *)

Lemma update_static_bond (o : Z) (old : option attrs) :
  (∀ d, old = Some d →
        ∃ o', d = list_to_map [("s_bond", VInt o'); ("p_bond", VInt o'); ("sp_bond", VInt o')]) →
  update (default ∅ old) (list_to_map [("s_bond", VInt o); ("p_bond", VInt o); ("sp_bond", VInt o)])
  = list_to_map [("s_bond", VInt o); ("p_bond", VInt o); ("sp_bond", VInt o)].
Proof.
  intros Hold. destruct old as [d|]; simpl.
  - destruct (Hold d eq_refl) as [o' ->]. by vm_compute.
  - unfold update. apply map_union_empty.
Qed.

(** X11. When no record of the block is a bond record, no bond of the
    assembled graph changes: the attributes of every edge are the order
    of a bond of the block that joins its two nodes, the same on the
    reagent side, on the product side and as the pair. *)
Theorem X11_bonds_without_records_do_not_change
    (m : molecule) (mapping : gmap Z Z) (gr : graph) (cda : gmap Z attrs) :
  parse_molecule m mapping = Ok gr →
  dat_tables m = Ok (cda, ∅) →
  ∀ a b d, edge_attr gr a b = Some d →
    ∃ k l o s, (k, l, o, s) ∈ bonds m
      ∧ (mapping !! k = Some a ∧ mapping !! l = Some b
         ∨ mapping !! k = Some b ∧ mapping !! l = Some a)
      ∧ d = list_to_map [("s_bond", VInt o); ("p_bond", VInt o); ("sp_bond", VInt o)].
Proof.
  intros Hrun Htab.
  apply parse_molecule_run in Hrun as (cda' & cdb & st & gr1 & Htab' & Hatoms & Hbonds & Hdz).
  rewrite Htab in Htab'. injection Htab' as <- <-.
  assert (Hin0 : adj_in_nodes (g {| g := empty_graph; atom_dz := [];
                                     mdl_s_stereo := true; mdl_p_stereo := true |})) by done.
  destruct (atoms_loop_shape _ _ _ _ _ Hatoms Hin0) as (Hin1 & He1 & _).
  set (P := λ gr : graph,
         adj_in_nodes gr
         ∧ ∀ a b d, edge_attr gr a b = Some d →
             ∃ k l o s, (k, l, o, s) ∈ bonds m
               ∧ (mapping !! k = Some a ∧ mapping !! l = Some b
                  ∨ mapping !! k = Some b ∧ mapping !! l = Some a)
               ∧ d = list_to_map [("s_bond", VInt o); ("p_bond", VInt o);
                                  ("sp_bond", VInt o)]).
  assert (HP : P gr1).
  { eapply (for_each_inv _ P); [exact Hbonds| |].
    - intros gr0 [[[k l] o] s] gr0' Hel Hstep [Hin HP0].
      apply assemble_bond_edges in Hstep as (mk & ml & Hmk & Hml & Hshape).
      rewrite lookup_empty in Hshape. cbn [mbind option_bind default] in Hshape.
      set (d0 := list_to_map _) in Hshape.
      destruct (add_edge_edges mk ml d0 gr0 Hin) as [Hin' He'].
      destruct (same_shape_edges _ _ Hshape Hin') as [Hin'' He''].
      split; [done|]. intros a b d. rewrite He'', He'. case_decide as Hab.
      + intros [= <-]. exists k, l, o, s. split; [done|]. split.
        { destruct Hab as [[-> ->]|[-> ->]]; tauto. }
        apply update_static_bond. intros d' Hd'.
        destruct (HP0 _ _ _ Hd') as (? & ? & o' & ? & _ & _ & ->). eauto.
      + apply HP0.
    - split; [done|]. intros a b d. rewrite He1. unfold edge_attr. simpl.
      by rewrite lookup_empty. }
  assert (Hshape : same_shape gr1 gr).
  { destruct (mdl_p_stereo st); [by apply dz_loop_shape in Hdz|].
    subst. apply same_shape_refl. }
  destruct HP as [Hin HP].
  destruct (same_shape_edges _ _ Hshape Hin) as [_ He].
  intros a b d. rewrite He. apply HP.
Qed.

(** **** A record that decodes to nothing *)

(** X12. A [dynatom] record whose value decodes to nothing makes
    [__parse_molecule] fail with a [TypeError], whatever else the block
    holds: this is so for a charge record whose only delta is zero, and
    for a value whose first letter is none of [c], [x] and [z]. The
    records before it are taken to have been read without an error. *)
Theorem X12_empty_dynatom_record_is_a_type_error
    (m : molecule) (mapping : gmap Z Z) (pre post : list dat) (rec : dat)
    (acc : gmap Z attrs * gmap Z (gmap Z attrs)) (a0 : Z) (l : CGRrw.atom)
    (key : ascii) (t : string) :
  CGR_DAT m = pre ++ rec :: post →
  for_each (collect_dat m) pre (∅, ∅) = Ok acc →
  d_type rec = "dynatom" →
  d_value rec = DStr (String key t) →
  index (d_atoms rec) 0 = Ok a0 →
  index (atoms m) (a0 - 1) = Ok l →
  (key = "c"%char ∧ Forall (λ c, c ≠ ","%char) (list_ascii_of_string t) ∧ int t = Ok 0)
  ∨ key ∉ ["c"%char; "x"%char; "z"%char] →
  parse_molecule m mapping = Raise TypeError.
Proof.
  intros Hdat Hpre Htype Hvalue Ha0 Hl Hnothing.
  assert (Hnone : cgr_atom_dat (String key t) (a_charge l) = Ok None).
  { unfold cgr_atom_dat. destruct Hnothing as [(-> & Hcomma & Hint)|Hkey].
    - change (Ascii.eqb "c" "c") with true. cbv iota.
      rewrite split_one by done. cbn [map_result]. rewrite Hint. done.
    - destruct (Ascii.eqb_spec key "c") as [->|_]; [exfalso; apply Hkey; in_list|].
      destruct (Ascii.eqb_spec key "x") as [->|_]; [exfalso; apply Hkey; in_list|].
      destruct (Ascii.eqb_spec key "z") as [->|_]; [exfalso; apply Hkey; in_list|].
      done. }
  unfold parse_molecule, dat_tables. rewrite Hdat, for_each_app, Hpre.
  cbn [bind for_each]. unfold collect_dat at 1. destruct acc as [cda cdb].
  rewrite bool_decide_true by done. rewrite Ha0. cbn [bind]. rewrite Hl. cbn [bind].
  rewrite Hvalue. cbn [cgr_atom_dat_value]. rewrite Hnone. done.
Qed.

(** **** [_get_molecule] *)

Lemma enumerate1_lookup {T} (l : list T) (k : Z) (x : T) :
  (k, x) ∈ enumerate1 l ↔ 1 ≤ k ∧ l !! Z.to_nat (k - 1) = Some x.
Proof.
  unfold enumerate1. rewrite list_elem_of_lookup. split.
  - intros (i & Hi). apply lookup_zip_with_Some in Hi as (k' & x' & [= <- <-] & Hk & Hx).
    apply lookup_seqZ in Hk as [-> _].
    replace (Z.to_nat (1 + Z.of_nat i - 1)) with i by lia. split; [lia|done].
  - intros [Hk Hx]. exists (Z.to_nat (k - 1)).
    apply lookup_zip_with_Some. exists k, x. split; [done|]. split; [|done].
    apply lookup_seqZ. apply lookup_lt_Some in Hx. lia.
Qed.

Lemma remapped_lookup (l : list Z) (k n : Z) :
  remapped l !! k = Some n ↔ 1 ≤ k ∧ l !! Z.to_nat (k - 1) = Some n.
Proof.
  unfold remapped. rewrite <- elem_of_list_to_map by apply enumerate1_NoDup.
  apply enumerate1_lookup.
Qed.

(** The nodes of a molecule assembled under the identifiers [ids], one
    for each atom. *)
Lemma parse_molecule_nodes (m : molecule) (ids : list Z) (gr : graph) :
  parse_molecule m (remapped ids) = Ok gr →
  length ids = length (atoms m) →
  ∀ n, is_Some (node gr !! n) ↔ n ∈ ids.
Proof.
  intros Hrun Hlen n. apply parse_molecule_shape in Hrun as (Hnodes & _).
  rewrite Hnodes. split.
  - intros [(k & l & _ & Hk)|(k & l & o & s & _ & [Hk|Hk])];
      apply remapped_lookup in Hk as [_ Hk]; by apply list_elem_of_lookup_2 in Hk.
  - intros (i & Hi)%list_elem_of_lookup. left.
    destruct (lookup_lt_is_Some_2 (atoms m) i) as [l Hl].
    { rewrite <- Hlen. by apply lookup_lt_Some in Hi. }
    exists (Z.of_nat i + 1), l. split.
    + apply enumerate1_lookup. split; [lia|].
      by replace (Z.to_nat (Z.of_nat i + 1 - 1)) with i by lia.
    + apply remapped_lookup. split; [lia|].
      by replace (Z.to_nat (Z.of_nat i + 1 - 1)) with i by lia.
Qed.

Lemma fill_maps_length (maps : list Z) (c : Z) : length (fill_maps maps c).1 = length maps.
Proof.
  destruct (fill_maps_run maps c) as (_ & _ & Hkept). symmetry. by eapply Forall2_length.
Qed.

(** X20. [_get_molecule] raises [ValueError] on a molecule without
    atoms. Otherwise the nodes of the graph it returns are the
    identifiers it gave the atoms: with renumbering these are the places
    1, ..., N of the atoms; without, every mapped atom keeps its map
    number and the unmapped atoms are numbered M + 1, M + 2, ... in
    their order, M being the largest map number. Unlike [_get_reaction]
    it rejects no repeated map number: the identifiers are pairwise
    different only when the mapped numbers are, and atoms that share a
    number share a node. *)
Theorem X20_get_molecule_identifiers (remap : bool) (m : molecule) :
  (atoms m = [] → get_molecule remap m = Raise ValueError)
  ∧ ∀ gr, get_molecule remap m = Ok gr →
      ∃ ids,
        molecule_maps remap m = Ok ids
        ∧ length ids = length (atoms m)
        ∧ (∀ n, is_Some (node gr !! n) ↔ n ∈ ids)
        ∧ (remap = true → ids = seqZ 1 (Z.of_nat (length (atoms m))))
        ∧ (remap = false →
           let maps := a_map <$> atoms m in
           Forall2 (λ j j', j ≠ 0 → j' = j) maps ids
           ∧ assigned maps ids
             = seqZ (max_default0 maps + 1)
                 (Z.of_nat (length (filter (λ j, j = 0) maps)))
           ∧ (NoDup ids ↔ NoDup (filter (λ j, j ≠ 0) maps))).
Proof.
  split.
  - intros Hnil. unfold get_molecule, molecule_maps. by rewrite Hnil.
  - intros gr Hrun. unfold get_molecule in Hrun.
    apply bind_Ok in Hrun as (ids & Hids & Hrun). exists ids. split; [done|].
    unfold molecule_maps in Hids.
    destruct (a_map <$> atoms m) as [|x r] eqn:Hmaps; [done|]. injection Hids as <-.
    assert (Hlen : length (if remap then seqZ 1 (Z.of_nat (length (atoms m)))
                           else (fill_maps (x :: r) (foldl Z.max x r + 1)).1)
                   = length (atoms m)).
    { destruct remap.
      - rewrite length_seqZ. lia.
      - rewrite fill_maps_length, <- Hmaps. apply length_fmap. }
    split; [done|]. split; [exact (parse_molecule_nodes m _ gr Hrun Hlen)|].
    split; [by intros ->|]. intros ->. cbv zeta.
    destruct (fill_maps_run (x :: r) (foldl Z.max x r + 1)) as (_ & Hrun' & Hkept).
    split; [done|]. split; [done|].
    apply (fill_maps_NoDup (x :: r) (foldl Z.max x r + 1)).
    intros y Hy%max_default0_ub. simpl in Hy. lia.
Qed.

End assembled_graph.

Lemma X9_assembled_graph_has_the_shape_of_the_block_witness :
  ∃ gr, @parse_molecule Examples.small_world (Examples.wedge []) (remapped [10; 20]) = Ok gr
        ∧ is_Some (edge_attr gr 20 10)
        ∧ ¬ is_Some (node gr !! 1).
Proof.
  destruct (@parse_molecule Examples.small_world (Examples.wedge []) (remapped [10; 20]))
    as [gr|e] eqn:Hrun; [|vm_compute in Hrun; congruence].
  exists gr. split; [done|].
  destruct (@X9_assembled_graph_has_the_shape_of_the_block Examples.small_world
              (Examples.wedge []) (remapped [10; 20]) gr Hrun) as (Hnodes & Hedges & _).
  split.
  - apply Hedges. exists 1, 2, 1, 1. split; [by left|]. right. split; reflexivity.
  - intros Hn. apply Hnodes in Hn as [(k & l & Hin & Hk)|(k & l & o & s & Hin & Hk)].
    + change (enumerate1 (atoms (Examples.wedge [])))
        with [(1, Examples.carbon 1); (2, Examples.carbon 2)] in Hin.
      repeat (apply elem_of_cons in Hin as [[= -> ->]|Hin]; [by vm_compute in Hk|]).
      by apply elem_of_nil in Hin.
    + apply list_elem_of_singleton in Hin. injection Hin as -> -> -> ->.
      destruct Hk as [Hk|Hk]; by vm_compute in Hk.
Defined.

Lemma X10_atom_without_record_does_not_change_witness :
  ∃ gr, @parse_molecule Examples.small_world (Examples.wedge []) (remapped [10; 20]) = Ok gr
        ∧ Forall (λ K, node_attr gr 10 K = Some (VInt 0)) ["s_charge"; "p_charge"; "sp_charge"]
        ∧ node_attr gr 10 "element" = Some (VStr "C").
Proof.
  destruct (@parse_molecule Examples.small_world (Examples.wedge []) (remapped [10; 20]))
    as [gr|e] eqn:Hrun; [|vm_compute in Hrun; congruence].
  exists gr. split; [done|].
  destruct (@X10_atom_without_record_does_not_change Examples.small_world
              (Examples.wedge []) (remapped [10; 20]) gr ∅ ∅ 1 (Examples.carbon 1) 10 Hrun)
    as (Hcharge & _ & _ & _ & _ & Helement).
  - reflexivity.
  - reflexivity.
  - by left.
  - reflexivity.
  - intros k' l' Hin Hk.
    change (enumerate1 (atoms (Examples.wedge [])))
      with [(1, Examples.carbon 1); (2, Examples.carbon 2)] in Hin.
    apply elem_of_cons in Hin as [[= -> ->]|Hin]; [done|].
    apply list_elem_of_singleton in Hin. injection Hin as -> ->. by vm_compute in Hk.
  - split; [exact Hcharge|exact Helement].
Defined.

Lemma X11_bonds_without_records_do_not_change_witness :
  ∃ gr, @parse_molecule Examples.small_world (Examples.wedge []) (remapped [10; 20]) = Ok gr
        ∧ ∀ d, edge_attr gr 10 20 = Some d → d !! "s_bond" = d !! "p_bond".
Proof.
  destruct (@parse_molecule Examples.small_world (Examples.wedge []) (remapped [10; 20]))
    as [gr|e] eqn:Hrun; [|vm_compute in Hrun; congruence].
  exists gr. split; [done|]. intros d Hd.
  destruct (@X11_bonds_without_records_do_not_change Examples.small_world
              (Examples.wedge []) (remapped [10; 20]) gr ∅ Hrun eq_refl 10 20 d Hd)
    as (k & l & o & s & _ & _ & ->).
  reflexivity.
Defined.

Lemma X12_empty_dynatom_record_is_a_type_error_witness :
  @parse_molecule Examples.small_world
    (Examples.wedge [{| d_atoms := [1]; d_type := "dynatom"; d_value := DStr "c0" |}])
    (remapped [1; 2])
  = Raise TypeError.
Proof.
  apply (@X12_empty_dynatom_record_is_a_type_error Examples.small_world
           (Examples.wedge [{| d_atoms := [1]; d_type := "dynatom"; d_value := DStr "c0" |}])
           (remapped [1; 2]) [] []
           {| d_atoms := [1]; d_type := "dynatom"; d_value := DStr "c0" |}
           (∅, ∅) 1 (Examples.carbon 1) "c" "0").
  - reflexivity.
  - reflexivity.
  - reflexivity.
  - reflexivity.
  - reflexivity.
  - reflexivity.
  - left. split; [done|]. split; [by repeat constructor|reflexivity].
Defined.

Lemma X20_get_molecule_identifiers_witness :
  ∃ gr, @get_molecule Examples.small_world false (Examples.block [3; 0; 3]) = Ok gr
        ∧ (∀ n, is_Some (node gr !! n) ↔ n ∈ [3; 4; 3])
        ∧ ¬ NoDup [3; 4; 3].
Proof.
  destruct (@get_molecule Examples.small_world false (Examples.block [3; 0; 3]))
    as [gr|e] eqn:Hrun; [|vm_compute in Hrun; congruence].
  exists gr. split; [done|].
  destruct (@X20_get_molecule_identifiers Examples.small_world false (Examples.block [3; 0; 3]))
    as [_ Hids].
  destruct (Hids gr Hrun) as (ids & Hmaps & _ & Hnodes & _ & Hkept).
  vm_compute in Hmaps. injection Hmaps as <-. split; [exact Hnodes|].
  destruct (Hkept eq_refl) as (_ & _ & Hdup). rewrite Hdup.
  change (¬ NoDup [3; 3]). intros Hno. apply NoDup_cons in Hno as [Hno _].
  apply Hno. by left.
Defined.

(** *** The marks of [reset_query_marks] *)

Section marks.

Lemma map_result_Forall2 {T U} (f : T → result U) (xs : list T) (ys : list U) :
  map_result f xs = Ok ys → Forall2 (λ x y, f x = Ok y) xs ys.
Proof.
  revert ys. induction xs as [|x xs IH]; intros ys Hrun; simpl in Hrun.
  - injection Hrun as <-. constructor.
  - apply bind_Ok in Hrun as (y & Hy & Hrun).
    apply bind_Ok in Hrun as (ys0 & Hys0 & Hrun). injection Hrun as <-.
    constructor; [done|by apply IH].
Qed.



(** **** Doing it again *)

Lemma for_each_ext {T S} (f f' : S → T → result S) (xs : list T) (s : S) :
  (∀ s x, f s x = f' s x) → for_each f xs s = for_each f' xs s.
Proof.
  intros Hext. revert s. induction xs as [|x xs IH]; intros s; simpl; [done|].
  rewrite Hext. destruct (f' s x); simpl; [apply IH|done].
Qed.

(** The marking keeps the nodes, and what the test on a neighbour finds. *)
Lemma marked_nodes_hydrogen (gr : CGRContainer) (nodes nodes' : list (Z * DynAtom)) (j : Z) :
  Forall2 (λ x y, reset_atom gr x = Ok y) nodes nodes' →
  not_hydrogen <$> dict_get j nodes' = not_hydrogen <$> dict_get j nodes.
Proof.
  induction 1 as [|[i a] [i' a'] nodes nodes' Hatom _ IH]; [done|].
  unfold reset_atom in Hatom. simpl in Hatom.
  apply bind_Ok in Hatom as (nbrs & _ & Hatom).
  apply bind_Ok in Hatom as (st & _ & Hatom). injection Hatom as <- <-.
  simpl. case_bool_decide; [done|exact IH].
Qed.

Lemma scan_bond_hydrogen (gr gr' : CGRContainer) (st : (Z * Z) * (Z * Z)) (jb : Z * DynBond) :
  not_hydrogen <$> dict_get jb.1 (_node gr') = not_hydrogen <$> dict_get jb.1 (_node gr) →
  scan_bond gr' st jb = scan_bond gr st jb.
Proof.
  unfold scan_bond. intros Heq.
  destruct (dict_get jb.1 (_node gr')) as [o'|], (dict_get jb.1 (_node gr)) as [o|];
    simpl in *; done.
Qed.

Lemma set_marks_twice (a : DynAtom) (st : (Z * Z) * (Z * Z)) :
  set_marks (set_marks a st) st = set_marks a st.
Proof. done. Qed.

Lemma reset_atom_again (gr gr' : CGRContainer) (x y : Z * DynAtom) :
  _adj gr' = _adj gr →
  (∀ st jb, scan_bond gr' st jb = scan_bond gr st jb) →
  reset_atom gr x = Ok y → reset_atom gr' y = Ok y.
Proof.
  intros Hadj Hscan Hatom. unfold reset_atom in *.
  apply bind_Ok in Hatom as (nbrs & Hnbrs & Hatom).
  apply bind_Ok in Hatom as (st & Hst & Hatom). injection Hatom as <-. cbn [fst snd].
  rewrite Hadj, Hnbrs. cbn [bind].
  rewrite (for_each_ext (scan_bond gr') (scan_bond gr)) by done.
  rewrite Hst. cbn [bind]. by rewrite set_marks_twice.
Qed.

(** X14. Classification reset is idempotent: on a graph it has marked
    it succeeds again and changes nothing. *)
Theorem X14_reset_marks_is_idempotent (gr gr' : CGRContainer) :
  reset_marks gr = Ok gr' → reset_marks gr' = Ok gr'.
Proof.
  unfold reset_marks. intros Hrun. apply bind_Ok in Hrun as (nodes & Hnodes & Hrun).
  injection Hrun as <-. cbn [_node _adj cache].
  apply map_result_Forall2 in Hnodes.
  set (gr' := {| _node := nodes; _adj := _adj gr; cache := cache gr |}).
  assert (Hscan : ∀ st jb, scan_bond gr' st jb = scan_bond gr st jb).
  { intros st jb. apply scan_bond_hydrogen. by apply (marked_nodes_hydrogen gr). }
  assert (Hagain : ∀ xs ys, Forall2 (λ x y, reset_atom gr x = Ok y) xs ys →
                            map_result (reset_atom gr') ys = Ok ys).
  { induction 1 as [|x y xs ys Hatom _ IH]; [done|]. simpl.
    rewrite (reset_atom_again gr gr' x y) by done. cbn [bind]. by rewrite IH. }
  by rewrite (Hagain _ _ Hnodes).
Qed.

(** **** The marks and the explicit hydrogens *)



End marks.

(** *** Explicit and implicit hydrogens *)

Section hydrogens.
Variable get_implicit_h : Atom → list Z → Z.
Variable fresh_dyn : DynAtom.

Lemma dict_set_elem {V} (d : list (Z * V)) (k k' : Z) (v v' : V) :
  (k', v') ∈ dict_set k v d → (k', v') = (k, v) ∨ (k', v') ∈ d.
Proof.
  induction d as [|[k0 v0] d IH]; simpl.
  - intros Hin%list_elem_of_singleton. by left.
  - case_bool_decide.
    + intros [?|?]%elem_of_cons; [by left|right; by right].
    + intros [->|Hin]%elem_of_cons; [right; by left|].
      destruct (IH Hin); [by left|right; by right].
Qed.

Lemma dict_del_fmap {V W} (x : Z) (F : Z * V → Z * W) (l : list (Z * V)) :
  (∀ e, (F e).1 = e.1) → dict_del x (F <$> l) = F <$> dict_del x l.
Proof.
  intros HF. unfold dict_del. induction l as [|e l IH]; [done|].
  rewrite fmap_cons, !filter_cons, HF, IH. by case_decide.
Qed.

Lemma dict_del_without {V} (x : Z) (removed : list Z) (l : list (Z * V)) :
  dict_del x (filter (λ e, e.1 ∉ removed) l) = filter (λ e, e.1 ∉ x :: removed) l.
Proof.
  unfold dict_del. induction l as [|e l IH]; [done|].
  rewrite !(filter_cons _ e).
  destruct (decide (e.1 ∉ removed)) as [Hr|Hr], (decide (e.1 ∉ x :: removed)) as [Hx|Hx];
    rewrite ?filter_cons, ?IH.
  - rewrite decide_True; [done|]. by apply not_elem_of_cons in Hx as [? _].
  - rewrite decide_False; [done|]. intros Hne. apply Hx. by apply not_elem_of_cons.
  - by apply not_elem_of_cons in Hx as [_ ?].
  - done.
Qed.

Lemma without_nil {A B} (gr : Graph A B) : without [] gr = gr.
Proof.
  assert (Hall : ∀ V (l : list (Z * V)), filter (λ e, e.1 ∉ []) l = l).
  { intros V l. induction l as [|e l IH]; [done|].
    rewrite filter_cons, decide_True by apply not_elem_of_nil. by rewrite IH. }
  destruct gr as [nodes adjs c]. unfold without. cbn [_node _adj cache].
  rewrite !Hall. f_equal.
  induction adjs as [|[u nbrs] adjs IH]; [done|].
  rewrite fmap_cons, IH. cbn [fst snd]. by rewrite Hall.
Qed.

(** Removing one more node. *)
Lemma remove_node_without {A B} (x : Z) (removed : list Z) (gr gr1 : Graph A B) :
  remove_node x (without removed gr) = Ok gr1 →
  gr1 = without (x :: removed) gr ∧ (x ∉ removed) ∧ x ∈ (_node gr).*1.
Proof.
  unfold remove_node. destruct (dict_get x (_node (without removed gr))) as [a|] eqn:Hx;
    [|done].
  intros [= <-]. apply dict_get_elem in Hx. simpl in Hx.
  apply list_elem_of_filter in Hx as [Hx Hin]. simpl in Hx. split; [|split; [done|]].
  - unfold without. cbn [_node _adj cache]. f_equal.
    + apply dict_del_without.
    + rewrite dict_del_fmap by done. rewrite dict_del_without.
      rewrite <- list_fmap_compose. apply list_fmap_ext. intros _ [u nbrs] _.
      cbn [compose fst snd]. f_equal. apply dict_del_without.
  - apply list_elem_of_fmap. by exists (x, a).
Qed.

(** **** [implicify_hydrogens] *)

(** The first loop lists hydrogens only. *)
Lemma collect_hydrogens_inv (self : CGRContainer)
    (acc acc' : list (Z * list Z) * gset Z) (na : Z * DynAtom) :
  na ∈ _node self →
  collect_hydrogens self acc na = Ok acc' →
  (∀ m hs x, (m, hs) ∈ acc.1 → x ∈ hs → hydrogen_of self x) →
  ∀ m hs x, (m, hs) ∈ acc'.1 → x ∈ hs → hydrogen_of self x.
Proof.
  intros Hna Hrun Hacc. unfold collect_hydrogens in Hrun.
  destruct (String.eqb_spec (element (reagent na.2)) "H") as [HH|_];
    [|by injection Hrun as <-].
  apply bind_Ok in Hrun as (nbrs & _ & Hrun).
  assert (Hself : hydrogen_of self na.1).
  { exists na.2. by destruct na. }
  eapply (for_each_inv _ (λ acc, ∀ m hs x, (m, hs) ∈ acc.1 → x ∈ hs → hydrogen_of self x));
    [exact Hrun| |exact Hacc].
  clear Hrun Hacc acc acc'. intros acc m acc' _ Hstep Hacc.
  apply bind_Ok in Hstep as (other & _ & Hstep).
  destruct (negb _); injection Hstep as <-; [|exact Hacc].
  intros m' hs x Hin Hx. cbn [fst] in Hin. unfold append_to in Hin.
  apply dict_set_elem in Hin as [[= -> ->]|Hin]; [|by eapply Hacc].
  apply elem_of_app in Hx as [Hx|Hx%list_elem_of_singleton]; [|by subst].
  destruct (dict_get m acc.1) as [old|] eqn:Hold; [|by apply elem_of_nil in Hx].
  apply dict_get_elem in Hold. by eapply Hacc.
Qed.

(** One round of the second loop keeps the hydrogens of the atom, or
    lists them all for removal. *)
Lemma schedule_spec (self : CGRContainer) (acc acc' : gset Z * list Z) (n : Z) (h : list Z) :
  schedule get_implicit_h self acc (n, h) = Ok acc' →
  acc'.2 = acc.2 ∨ acc'.2 = acc.2 ++ h.
Proof.
  unfold schedule. intros Hrun.
  apply bind_Ok in Hrun as ([s_atom p_atom] & _ & Hrun).
  apply bind_Ok in Hrun as (self_n & _ & Hrun).
  apply bind_Ok in Hrun as (s_any & _ & Hrun).
  destruct s_any; [injection Hrun as <-; by left|].
  apply bind_Ok in Hrun as (p_any & _ & Hrun).
  destruct p_any; injection Hrun as <-; [by left|by right].
Qed.

(** X16. [implicify_hydrogens] cuts hydrogens out of the graph and does
    nothing else: when it returns, the receiver is the graph it was
    without the nodes of some list and without the edges at them, its
    cache emptied; the listed nodes are pairwise different hydrogens of
    the graph, and the number returned is their number. When no two
    nodes share an identifier, every atom that is no hydrogen is
    therefore still there. *)
Theorem X16_implicify_cuts_hydrogens_out (self gr' : CGRContainer) (c : Z) :
  implicify_hydrogens get_implicit_h self = Ok (c, gr') →
  ∃ removed,
    gr' = flush_cache (without removed self)
    ∧ c = Z.of_nat (length removed)
    ∧ NoDup removed
    ∧ (∀ x, x ∈ removed → hydrogen_of self x)
    ∧ (NoDup (_node self).*1 →
       ∀ n a, (n, a) ∈ _node self → element (reagent a) ≠ "H" → (n, a) ∈ _node gr').
Proof.
  unfold implicify_hydrogens. intros Hrun.
  apply bind_Ok in Hrun as ([explicit hyd0] & Hone & Hrun).
  apply bind_Ok in Hrun as ([hyd for_remove] & Htwo & Hrun).
  apply bind_Ok in Hrun as ([gr1 c1] & Hthree & Hrun). injection Hrun as -> <-.
  (* the first loop *)
  assert (Hexplicit : ∀ m hs x, (m, hs) ∈ explicit → x ∈ hs → hydrogen_of self x).
  { apply (for_each_inv _ (λ acc, ∀ m hs x, (m, hs) ∈ acc.1 → x ∈ hs → hydrogen_of self x)
             _ _ _ Hone).
    - intros acc na acc' Hna Hstep Hacc. by eapply collect_hydrogens_inv.
    - intros m hs x Hin. by apply elem_of_nil in Hin. }
  (* the second loop *)
  assert (Hremove : ∀ x, x ∈ for_remove → hydrogen_of self x).
  { apply (for_each_inv _ (λ acc, ∀ x, x ∈ acc.2 → hydrogen_of self x) _ _ _ Htwo).
    - intros acc [n h] acc' Hnh Hstep Hacc x Hx.
      apply schedule_spec in Hstep as [Heq|Heq]; rewrite Heq in Hx; [by apply Hacc|].
      apply elem_of_app in Hx as [Hx|Hx]; [by apply Hacc|]. by eapply Hexplicit.
    - intros x Hx. by apply elem_of_nil in Hx. }
  (* the third loop *)
  assert (Hcut : ∃ removed, gr1 = without removed self
                            ∧ c = Z.of_nat (length removed)
                            ∧ NoDup removed
                            ∧ ∀ x, x ∈ removed → x ∈ for_remove).
  { apply (for_each_inv _ (λ gc, ∃ removed, gc.1 = without removed self
                                            ∧ gc.2 = Z.of_nat (length removed)
                                            ∧ NoDup removed
                                            ∧ ∀ x, x ∈ removed → x ∈ for_remove)
             _ _ _ Hthree).
    - intros [gr0 c0] x [gr2 c2] Hx Hstep (removed & Hgr0 & Hc0 & Hnd & Hsub).
      simpl in *. case_bool_decide; [|injection Hstep as <- <-; by exists removed].
      apply bind_Ok in Hstep as (gr3 & Hgr3 & Hstep). injection Hstep as <- <-.
      rewrite Hgr0 in Hgr3. apply remove_node_without in Hgr3 as (-> & Hnew & _).
      exists (x :: removed). split; [done|]. split; [simpl; lia|].
      split; [by constructor|]. intros y [->|Hy]%elem_of_cons; [done|by apply Hsub].
    - exists []. split; [by rewrite without_nil|]. split; [done|].
      split; [constructor|]. intros x Hx. by apply elem_of_nil in Hx. }
  destruct Hcut as (removed & -> & Hc & Hnd & Hsub).
  exists removed. split; [done|]. split; [done|]. split; [done|].
  split; [intros x Hx; by apply Hremove, Hsub|].
  intros Hkeys n a Hin Hheavy. simpl. apply list_elem_of_filter. split; [|done].
  simpl. intros Hn. destruct (Hremove n (Hsub n Hn)) as (a' & Hin' & HH).
  assert (a' = a) as ->; [|done].
  apply (dict_get_NoDup _ _ _ Hkeys) in Hin, Hin'. congruence.
Qed.

(** X17. On a graph without a hydrogen [implicify_hydrogens] removes
    nothing: it returns 0 and only empties the cache. *)
Theorem X17_implicify_without_hydrogens (self : CGRContainer) :
  Forall (λ na, element (reagent na.2) ≠ "H") (_node self) →
  implicify_hydrogens get_implicit_h self = Ok (0, flush_cache self).
Proof.
  intros Hheavy. unfold implicify_hydrogens.
  assert (Hone : ∀ nodes acc, Forall (λ na : Z * DynAtom, element (reagent na.2) ≠ "H") nodes →
                              for_each (collect_hydrogens self) nodes acc = Ok acc).
  { induction nodes as [|na nodes IH]; intros acc Hall; [done|].
    apply Forall_cons in Hall as [Hna Hall]. simpl. unfold collect_hydrogens at 1.
    destruct (String.eqb_spec (element (reagent na.2)) "H"); [done|]. simpl. by apply IH. }
  rewrite Hone by done. done.
Qed.

(** **** [explicify_hydrogens] and the counts of hydrogens *)



End hydrogens.


Lemma X14_reset_marks_is_idempotent_witness :
  ∃ marked, reset_marks Examples.allene = Ok marked ∧ reset_marks marked = Ok marked.
Proof.
  destruct (reset_marks Examples.allene) as [marked|e] eqn:Hrun;
    [|vm_compute in Hrun; congruence].
  exists marked. split; [done|].
  exact (X14_reset_marks_is_idempotent Examples.allene marked Hrun).
Defined.


Lemma X16_implicify_cuts_hydrogens_out_witness :
  ∃ gr' removed,
    implicify_hydrogens Examples.carbon_valence Examples.hydride = Ok (1, gr')
    ∧ gr' = flush_cache (without removed Examples.hydride)
    ∧ 1 = Z.of_nat (length removed).
Proof.
  destruct (implicify_hydrogens Examples.carbon_valence Examples.hydride)
    as [[c gr']|e] eqn:Hrun; [|vm_compute in Hrun; congruence].
  assert (c = 1) as ->.
  { assert (Ok (c, gr') = implicify_hydrogens Examples.carbon_valence Examples.hydride)
      as Heq by done.
    vm_compute in Heq. by injection Heq as -> _. }
  destruct (X16_implicify_cuts_hydrogens_out Examples.carbon_valence Examples.hydride gr' 1 Hrun)
    as (removed & Hgr & Hc & _).
  by exists gr', removed.
Defined.

Lemma X17_implicify_without_hydrogens_witness :
  implicify_hydrogens Examples.carbon_valence Examples.allene
  = Ok (0, flush_cache Examples.allene).
Proof.
  apply (X17_implicify_without_hydrogens Examples.carbon_valence Examples.allene).
  by repeat constructor.
Defined.


(** *** The molecules of [decompose] *)

Section decomposed.
Variable fresh_atom : Atom.

Lemma well_formed_intro {A B} `{EqDecision B} (gr : Graph A B) :
  NoDup (_node gr).*1 →
  (_adj gr).*1 = (_node gr).*1 →
  (∀ u nbrs, (u, nbrs) ∈ _adj gr →
     NoDup nbrs.*1
     ∧ ∀ v b, (v, b) ∈ nbrs → v ∈ (_node gr).*1 ∧ adj_get gr v u = Some b) →
  well_formed gr = true.
Proof.
  intros Hnd Hkeys Hall. unfold well_formed.
  rewrite !andb_true_iff, !bool_decide_eq_true. split; [by split|].
  apply forallb_forall. intros [u nbrs] Hin%list_elem_of_In.
  destruct (Hall u nbrs Hin) as [Hnbrs Hsym]. cbn [fst snd].
  apply andb_true_iff. split; [by apply bool_decide_eq_true|].
  apply forallb_forall. intros [v b] Hvb%list_elem_of_In. cbn [fst snd].
  destruct (Hsym v b Hvb). apply andb_true_iff. by rewrite !bool_decide_eq_true.
Qed.

Lemma dict_set_NoDup {V} (d : list (Z * V)) (k : Z) (v : V) :
  NoDup d.*1 → NoDup (dict_set k v d).*1.
Proof.
  intros Hnd. destruct (decide (k ∈ d.*1)) as [Hk|Hk].
  - by rewrite dict_set_keys.
  - rewrite dict_set_fresh, fmap_app by done. apply NoDup_app. split; [done|].
    split; [|apply NoDup_singleton].
    intros x Hx [->|[]%elem_of_nil]%elem_of_cons. done.
Qed.

(** An edge between two nodes that are there keeps the shape of the
    adjacency index: its keys, and neighbours that are pairwise
    different. *)
Lemma add_edge_index {A B} (fresh : A) (u v : Z) (b : B) (gr : Graph A B) :
  u ∈ (_node gr).*1 → v ∈ (_node gr).*1 →
  (_adj gr).*1 = (_node gr).*1 →
  (∀ w nbrs, (w, nbrs) ∈ _adj gr → NoDup nbrs.*1) →
  _node (add_edge fresh u v b gr) = _node gr
  ∧ (_adj (add_edge fresh u v b gr)).*1 = (_node gr).*1
  ∧ ∀ w nbrs, (w, nbrs) ∈ _adj (add_edge fresh u v b gr) → NoDup nbrs.*1.
Proof.
  intros Hu Hv Hkeys Hnbrs. split; [by apply add_edge_node|].
  unfold add_edge.
  destruct (dict_get u (_node gr)) eqn:Hgu; [|by apply dict_get_None in Hgu].
  destruct (dict_get v (_node gr)) eqn:Hgv; [|by apply dict_get_None in Hgv].
  cbn [_adj].
  set (adj1 := dict_set u (dict_set v b (default [] (dict_get u (_adj gr)))) (_adj gr)).
  assert (Hdefault : ∀ (adj : list (Z * list (Z * B))) (w : Z),
                       (∀ w nbrs, (w, nbrs) ∈ adj → NoDup nbrs.*1) →
                       NoDup (default [] (dict_get w adj)).*1).
  { intros adj w Hadj. destruct (dict_get w adj) as [nbrs|] eqn:Hw; [|constructor].
    apply dict_get_elem in Hw. by eapply Hadj. }
  assert (Hkeys1 : adj1.*1 = (_node gr).*1).
  { unfold adj1. rewrite dict_set_keys; [done|by rewrite Hkeys]. }
  assert (Hnbrs1 : ∀ w nbrs, (w, nbrs) ∈ adj1 → NoDup nbrs.*1).
  { intros w nbrs [[= -> ->]|Hin]%dict_set_elem; [|by eapply Hnbrs].
    by apply dict_set_NoDup, Hdefault. }
  split.
  - rewrite dict_set_keys; [done|by rewrite Hkeys1].
  - intros w nbrs [[= -> ->]|Hin]%dict_set_elem; [|by eapply Hnbrs1].
    by apply dict_set_NoDup, Hdefault.
Qed.

Lemma add_edges_index {A B T} (fresh : A) (f : T → B) (es : list (Z * Z * T))
    (gr : Graph A B) :
  (∀ e, e ∈ es → e.1.1 ∈ (_node gr).*1 ∧ e.1.2 ∈ (_node gr).*1) →
  (_adj gr).*1 = (_node gr).*1 →
  (∀ w nbrs, (w, nbrs) ∈ _adj gr → NoDup nbrs.*1) →
  let gr' := foldl (λ gr e, add_edge fresh e.1.1 e.1.2 (f e.2) gr) gr es in
  (_adj gr').*1 = (_node gr).*1
  ∧ ∀ w nbrs, (w, nbrs) ∈ _adj gr' → NoDup nbrs.*1.
Proof.
  revert gr. induction es as [|e es IH]; cbn [foldl]; intros gr Hends Hkeys Hnbrs;
    [by split|].
  destruct (Hends e) as [Hu Hv]; [by left|].
  destruct (add_edge_index fresh e.1.1 e.1.2 (f e.2) gr Hu Hv Hkeys Hnbrs)
    as (Hnode & Hkeys' & Hnbrs').
  rewrite <- Hnode. apply IH.
  - intros e' He'. rewrite Hnode. apply Hends. by right.
  - by rewrite Hnode.
  - done.
Qed.

(** One side of the decomposition of a well-formed graph is well formed. *)
Lemma side_molecule_well_formed (va : DynAtom → Atom) (vb : DynBond → Bond)
    (self : CGRContainer) :
  well_formed self = true → well_formed (side_molecule fresh_atom va vb self) = true.
Proof.
  intros Hwf. pose proof (well_formed_spec _ Hwf) as (Hnd & Hkeys & Hnbrs).
  destruct (side_molecule_spec fresh_atom va vb self Hwf) as [Hnode Hadj].
  assert (Hids : (_node (side_molecule fresh_atom va vb self)).*1 = (_node self).*1).
  { rewrite Hnode, <- list_fmap_compose. by apply list_fmap_ext. }
  assert (Hindex : (_adj (side_molecule fresh_atom va vb self)).*1 = (_node self).*1
                   ∧ ∀ w nbrs, (w, nbrs) ∈ _adj (side_molecule fresh_atom va vb self) →
                               NoDup nbrs.*1).
  { unfold side_molecule.
    rewrite add_nodes_fold; [|done|intros k _; split; apply not_elem_of_nil].
    set (R0 := {| _node := _; _adj := _; cache := _ |}).
    assert (Hids0 : (_node R0).*1 = (_node self).*1).
    { subst R0. simpl. rewrite <- list_fmap_compose. by apply list_fmap_ext. }
    rewrite <- Hids0. apply add_edges_index.
    - intros [[u v] bond] [_ Hin]%list_elem_of_filter. rewrite Hids0. simpl.
      apply elem_of_edges_from in Hin as (pre & nbrs & post & Heq & Hv & _).
      assert ((u, nbrs) ∈ _adj self) as Hu.
      { rewrite Heq. apply elem_of_app. right. by left. }
      split.
      + rewrite <- Hkeys. apply list_elem_of_fmap. by exists (u, nbrs).
      + by apply (proj2 (Hnbrs u nbrs Hu) v bond).
    - subst R0. simpl. rewrite <- !list_fmap_compose. by apply list_fmap_ext.
    - subst R0. simpl. intros w nbrs (na & [= _ ->] & _)%list_elem_of_fmap. constructor. }
  destruct Hindex as [Hkeys' Hnbrs'].
  apply well_formed_intro.
  - by rewrite Hids.
  - by rewrite Hids.
  - intros u nbrs Hin. split; [by eapply Hnbrs'|]. intros v b Hvb.
    assert (Hget : adj_get (side_molecule fresh_atom va vb self) u v = Some b).
    { unfold adj_get. rewrite (dict_get_NoDup _ u nbrs); [|by rewrite Hkeys'|done].
      simpl. apply dict_get_NoDup; [by eapply Hnbrs'|done]. }
    apply Hadj in Hget as (bond & Hbond & Hnz & ->). split.
    + rewrite Hids. apply adj_get_elem in Hbond as (nbrs0 & Hu & Hv).
      by apply (proj2 (Hnbrs u nbrs0 Hu) v bond).
    + apply Hadj. exists bond. split; [by apply adj_get_sym|done].
Qed.

(** X21. For a well-formed graph both molecules of [decompose] are well
    formed: their nodes are pairwise different, the adjacency index has
    an entry for every node, the neighbours of a node are pairwise
    different nodes, and every bond is entered under both of its ends. *)
Theorem X21_decompose_gives_well_formed_molecules (self : CGRContainer) :
  well_formed self = true →
  well_formed (decompose fresh_atom self).1 = true
  ∧ well_formed (decompose fresh_atom self).2 = true.
Proof.
  intros Hwf. split.
  - apply (side_molecule_well_formed reagent reagent self Hwf).
  - apply (side_molecule_well_formed product product self Hwf).
Qed.

End decomposed.

Lemma X21_decompose_gives_well_formed_molecules_witness :
  well_formed (decompose (Examples.plain "A").(reagent) Examples.changing).1 = true
  ∧ well_formed (decompose (Examples.plain "A").(reagent) Examples.changing).2 = true.
Proof.
  apply (X21_decompose_gives_well_formed_molecules
           (Examples.plain "A").(reagent) Examples.changing).
  reflexivity.
Defined.

(** *** The property lines *)

Section text.

Lemma substring_skip (p s : string) (n m : nat) :
  String.substring (String.length p + n) m (p +:+ s) = String.substring n m s.
Proof. induction p as [|c p IH]; [done|]. simpl. exact IH. Qed.

Lemma substring_take (b s : string) : String.substring 0 (String.length b) (b +:+ s) = b.
Proof.
  induction b as [|c b IH]; simpl; [by destruct s|]. by rewrite IH.
Qed.

Lemma length_append (a b : string) :
  String.length (a +:+ b) = (String.length a + String.length b)%nat.
Proof. induction a as [|c a IH]; simpl; [done|]. by rewrite IH. Qed.

Lemma append_assoc (a b c : string) : (a +:+ b) +:+ c = a +:+ (b +:+ c).
Proof.
  induction a as [|x a IH]; [done|].
  change (String x ((a +:+ b) +:+ c) = String x (a +:+ (b +:+ c))). by rewrite IH.
Qed.

(** A field of known width in the middle of a line. *)
Lemma slice_field (p f s : string) (a b : nat) :
  String.length p = a → (a + String.length f)%nat = b → slice a b (p +:+ f +:+ s) = f.
Proof.
  intros <- <-. unfold slice.
  replace (String.length p + String.length f - String.length p)%nat
    with (String.length f) by lia.
  rewrite <- (Nat.add_0_r (String.length p)) at 1.
  rewrite substring_skip. apply substring_take.
Qed.

Lemma slice_from_skip (p s : string) : slice_from (String.length p) (p +:+ s) = s.
Proof. induction p as [|c p IH]; simpl; [by destruct s|done]. Qed.

Lemma int_space (s : string) : int (String " " s) = int s.
Proof. done. Qed.

Lemma int_spaces (n : nat) (s : string) : int (spaces n +:+ s) = int s.
Proof.
  induction n as [|n IH]; [done|].
  change (spaces (S n) +:+ s) with (String " " (spaces n +:+ s)). by rewrite int_space.
Qed.

(** ['%3d'] is read back by [int]. *)
Lemma int_fmt_3d (z : Z) : int (fmt_3d z) = Ok z.
Proof. unfold fmt_3d. rewrite int_spaces. apply int_str_int. Qed.

(** A number of at most three digits fills its three columns. *)
Lemma length_fmt_3d (z : Z) : 0 ≤ z ≤ 999 → String.length (fmt_3d z) = 3%nat.
Proof.
  intros Hz.
  assert (Hall : forallb (λ z, Nat.eqb (String.length (fmt_3d z)) 3) (seqZ 0 1000) = true)
    by (vm_compute; reflexivity).
  rewrite forallb_forall in Hall. apply Nat.eqb_eq, Hall, list_elem_of_In, elem_of_seqZ. lia.
Qed.

End text.


(** **** Words, white space and fields *)

Section fields.

Lemma words_cons (c : ascii) (r : string) :
  words (String c r)
  = if is_space c then words r
    else match r with
         | "" => [String c ""]
         | String c' _ =>
             if is_space c' then String c "" :: words r
             else match words r with
                  | h :: t => String c h :: t
                  | [] => [String c ""]
                  end
         end.
Proof. done. Qed.

Lemma words_head (c : ascii) (s : string) : is_space c = false → words (String c s) ≠ [].
Proof.
  intros Hc. rewrite words_cons, Hc. destruct s as [|c' s]; [done|].
  destruct (is_space c'); [done|]. by destruct (words (String c' s)).
Qed.

(** A space between two texts parts their words. *)
Lemma words_sep (a b : string) : words (a +:+ String " " b) = words a ++ words b.
Proof.
  induction a as [|c a IH]; [done|].
  change (String c a +:+ String " " b) with (String c (a +:+ String " " b)).
  rewrite !(words_cons c). destruct (is_space c) eqn:Hc; [exact IH|].
  destruct a as [|c' a]; [done|].
  change (String c' a +:+ String " " b) with (String c' (a +:+ String " " b)) in *.
  cbv beta iota. destruct (is_space c') eqn:Hc'.
  - by rewrite IH.
  - rewrite IH. pose proof (words_head c' a Hc') as Hne.
    by destruct (words (String c' a)).
Qed.

(** A word before white space. *)
Lemma words_word (w s : string) (c : ascii) :
  w ≠ "" → Forall (λ x, is_space x = false) (list_ascii_of_string w) → is_space c = true →
  words (w +:+ String c s) = w :: words s.
Proof.
  intros Hne Hw Hc. induction w as [|x w IH]; [done|].
  apply Forall_cons in Hw as [Hx Hw].
  change (String x w +:+ String c s) with (String x (w +:+ String c s)).
  rewrite (words_cons x), Hx. destruct w as [|y w].
  - change ("" +:+ String c s) with (String c s). cbv beta iota.
    by rewrite Hc, words_cons, Hc.
  - change (String y w +:+ String c s) with (String y (w +:+ String c s)) in *.
    pose proof Hw as Hw'. apply Forall_cons in Hw' as [Hy _]. cbv beta iota.
    rewrite Hy. by rewrite IH.
Qed.

Lemma rstrip_end (s : string) (c : ascii) :
  is_space c = true → rstrip (s +:+ String c "") = rstrip s.
Proof.
  intros Hc. induction s as [|x s IH].
  - change ("" +:+ String c "") with (String c ""). cbn [rstrip]. by rewrite Hc.
  - change (String x s +:+ String c "") with (String x (s +:+ String c "")).
    cbn [rstrip]. by rewrite IH.
Qed.

(** The text of a line, between the space before it and the line feed. *)
Lemma strip_end (s : string) (c : ascii) :
  is_space c = true → strip (s +:+ String c "") = strip s.
Proof.
  intros Hc. unfold strip. induction s as [|x s IH].
  - change ("" +:+ String c "") with (String c ""). cbn [lstrip]. by rewrite Hc.
  - change (String x s +:+ String c "") with (String x (s +:+ String c "")).
    cbn [lstrip]. destruct (is_space x); [exact IH|].
    change (String x (s +:+ String c "")) with (String x s +:+ String c "").
    by apply rstrip_end.
Qed.

Lemma prefix_app (p s : string) : String.prefix p (p +:+ s) = true.
Proof.
  induction p as [|c p IH]; [by destruct s|].
  change (String c p +:+ s) with (String c (p +:+ s)). cbn [String.prefix].
  destruct (ascii_dec c c); [exact IH|done].
Qed.

(** [sub in s] holds when [sub] is written in [s]. *)
Lemma contains_app (p sub s : string) : sub ≠ "" → contains sub (p +:+ sub +:+ s) = true.
Proof.
  intros Hne. unfold contains.
  assert (Hidx : ∃ n, String.index 0 sub (p +:+ sub +:+ s) = Some n); [|by destruct Hidx as [n ->]].
  induction p as [|c p [n IH]].
  - change ("" +:+ sub +:+ s) with (sub +:+ s). destruct sub as [|x sub]; [done|].
    exists 0%nat. change (String x sub +:+ s) with (String x (sub +:+ s)).
    cbn [String.index].
    change (String x (sub +:+ s)) with (String x sub +:+ s). by rewrite prefix_app.
  - change (String c p +:+ sub +:+ s) with (String c (p +:+ sub +:+ s)).
    cbn [String.index]. destruct (String.prefix _ _); [eauto|]. rewrite IH. eauto.
Qed.

End fields.

(** **** Lines of fields *)

Section lines.

Lemma substring_take_le (m : nat) (b s : string) :
  (m ≤ String.length b)%nat → String.substring 0 m (b +:+ s) = String.substring 0 m b.
Proof.
  revert m. induction b as [|c b IH]; intros m Hm.
  - simpl in Hm. assert (m = 0%nat) as -> by lia. by destruct s.
  - destruct m as [|m]; [done|].
    change (String c b +:+ s) with (String c (b +:+ s)). cbn [String.substring].
    f_equal. apply IH. simpl in Hm. lia.
Qed.

Lemma substring_all (b : string) : String.substring 0 (String.length b) b = b.
Proof. induction b as [|c b IH]; [done|]. cbn [String.length String.substring]. by rewrite IH. Qed.

Lemma append_nil_r (a : string) : a +:+ "" = a.
Proof.
  induction a as [|c a IH]; [done|].
  change (String c a +:+ "") with (String c (a +:+ "")). by rewrite IH.
Qed.

(** The [k]-th of the fields of one width that [' '.join] sets side by
    side. *)
Lemma join_field (w : nat) (fs : list string) (rest : string) (k m : nat) (f : string) :
  Forall (λ f, String.length f = w) fs → fs !! k = Some f → (m ≤ w)%nat →
  String.substring (k * S w) m (join " " fs +:+ rest) = String.substring 0 m f.
Proof.
  intros Hw Hk Hm. revert k Hk. induction fs as [|f0 fs IH]; intros k Hk; [done|].
  apply Forall_cons in Hw as [Hf0 Hw]. destruct k as [|k].
  - injection Hk as ->. destruct fs as [|f1 fs].
    + cbn [join]. apply substring_take_le. lia.
    + change (join " " (f :: f1 :: fs)) with (f +:+ " " +:+ join " " (f1 :: fs)).
      rewrite append_assoc. apply substring_take_le. lia.
  - cbn [lookup list_lookup] in Hk. destruct fs as [|f1 fs]; [done|].
    change (join " " (f0 :: f1 :: fs)) with (f0 +:+ " " +:+ join " " (f1 :: fs)).
    rewrite <- (append_assoc f0 " "), append_assoc.
    replace (S k * S w)%nat with (String.length (f0 +:+ " ") + k * S w)%nat.
    + rewrite substring_skip. by apply IH.
    + rewrite length_append, Hf0. simpl. lia.
Qed.

Lemma map_result_seq {T} (f : nat → result T) (l : list T) (start : nat) :
  (∀ k x, l !! k = Some x → f (start + k)%nat = Ok x) →
  map_result f (seq start (length l)) = Ok l.
Proof.
  revert start. induction l as [|x l IH]; intros start Hf; [done|].
  cbn [length seq map_result]. rewrite <- (Nat.add_0_r start) at 1.
  rewrite (Hf 0%nat x) by done. cbn [bind]. rewrite IH; [done|].
  intros k y Hk. replace (S start + k)%nat with (start + S k)%nat by lia. by apply Hf.
Qed.

Lemma for_each_seq {T St} (body : St → nat → result St) (g : St → T → St)
    (vs : list T) (start : nat) (s : St) :
  (∀ k v s', vs !! k = Some v → body s' (start + k)%nat = Ok (g s' v)) →
  for_each body (seq start (length vs)) s = Ok (foldl g s vs).
Proof.
  revert start s. induction vs as [|v vs IH]; intros start s Hbody; [done|].
  cbn [length seq for_each foldl]. rewrite <- (Nat.add_0_r start) at 1.
  rewrite (Hbody 0%nat v) by done. cbn [bind]. apply IH.
  intros k y s' Hk. replace (S start + k)%nat with (start + S k)%nat by lia. by apply Hbody.
Qed.

(** **** The table *)

Lemma prop_get_set (t : table) (k k' : pkey) (v : entry) :
  prop_get k' (prop_set k v t) = if decide (k = k') then Some v else prop_get k' t.
Proof.
  induction t as [|[k0 v0] t IH]; simpl.
  - case_decide; [by rewrite bool_decide_true|by rewrite bool_decide_false].
  - destruct (decide (k0 = k)) as [->|Hk0].
    + rewrite bool_decide_true by done. simpl. case_decide.
      * by rewrite bool_decide_true.
      * by rewrite !bool_decide_false.
    + rewrite bool_decide_false by done. simpl. rewrite IH.
      destruct (decide (k0 = k')) as [->|Hk0'].
      * rewrite bool_decide_true by done. by rewrite decide_False by congruence.
      * by rewrite bool_decide_false.
Qed.

Lemma prop_get_del (t : table) (k : pkey) : prop_get k (prop_del k t) = None.
Proof.
  unfold prop_del, table in *. induction t as [|[k0 v0] t IH]; [done|].
  rewrite filter_cons. cbn [fst]. case_decide as Hk; [|exact IH].
  simpl. by rewrite bool_decide_false.
Qed.

Lemma prop_set_twice (t : table) (k : pkey) (v v' : entry) :
  prop_set k v' (prop_set k v t) = prop_set k v' t.
Proof.
  induction t as [|[k0 v0] t IH]; simpl.
  - by rewrite bool_decide_true.
  - case_bool_decide as Hk; simpl.
    + by rewrite bool_decide_true.
    + rewrite bool_decide_false by done. by rewrite IH.
Qed.

End lines.

(** **** One line at a time *)

Section one_line.

(** The number of the group in the columns 7 to 10. *)
Lemma declared_line (tag rest : string) (i : Z) (t : table) :
  String.length tag = 7%nat → 0 ≤ i ≤ 999 →
  declared (tag +:+ fmt_3d i +:+ rest) t
  = Ok (match prop_get (KNum i) t with Some _ => Some i | None => None end).
Proof.
  intros Htag Hi. unfold declared.
  rewrite (slice_field tag (fmt_3d i) rest 7 10); [|done|by rewrite length_fmt_3d].
  by rewrite int_fmt_3d.
Qed.

Lemma collect_sal (t : table) (i : Z) (atoms : list Z) (old : entry) :
  0 ≤ i ≤ 999 → Forall (λ a, 0 ≤ a ≤ 999) atoms → (length atoms ≤ 999)%nat →
  prop_get (KNum i) t = Some old →
  collect (sal_line i atoms) t
  = Ok (prop_set (KNum i)
          {| e_atoms := Some (sorted atoms); e_type := e_type old; e_value := e_value old |} t).
Proof.
  intros Hi Hatoms Hlen Hold. unfold collect, sal_line.
  set (n := Z.of_nat (length atoms)).
  set (fields := join " " (fmt_3d <$> atoms)).
  change (startswith ("M  SAL " +:+ fmt_3d i +:+ fmt_3d n +:+ " " +:+ fields +:+ nl) "M  ALS")
    with false.
  change (startswith ("M  SAL " +:+ fmt_3d i +:+ fmt_3d n +:+ " " +:+ fields +:+ nl) "M  ISO")
    with false.
  change (startswith ("M  SAL " +:+ fmt_3d i +:+ fmt_3d n +:+ " " +:+ fields +:+ nl) "M  STY")
    with false.
  change (startswith ("M  SAL " +:+ fmt_3d i +:+ fmt_3d n +:+ " " +:+ fields +:+ nl) "M  SAL")
    with true.
  cbv iota. rewrite declared_line by done. rewrite Hold. cbn [bind].
  assert (Hn : 0 ≤ n ≤ 999) by (unfold n; lia).
  assert (Hcount : slice 10 13 ("M  SAL " +:+ fmt_3d i +:+ fmt_3d n +:+ " " +:+ fields +:+ nl)
                   = fmt_3d n).
  { rewrite <- (append_assoc "M  SAL " (fmt_3d i)).
    apply slice_field; [|by rewrite length_fmt_3d].
    rewrite length_append, length_fmt_3d by done. done. }
  rewrite Hcount, int_fmt_3d. cbn [bind].
  replace (Z.to_nat n) with (length atoms) by (unfold n; lia).
  rewrite (map_result_seq _ atoms 0); [by rewrite Hold|].
  intros k a Hk. change (0 + k)%nat with k.
  assert (Ha : 0 ≤ a ≤ 999).
  { rewrite Forall_forall in Hatoms. apply Hatoms. by eapply list_elem_of_lookup_2. }
  unfold slice. replace (17 + 4 * k - (14 + 4 * k))%nat with 3%nat by lia.
  rewrite <- (append_assoc "M  SAL " (fmt_3d i)), <- (append_assoc _ (fmt_3d n)),
    <- (append_assoc _ " ").
  replace (14 + 4 * k)%nat
    with (String.length ((("M  SAL " +:+ fmt_3d i) +:+ fmt_3d n) +:+ " ") + k * 4)%nat.
  2:{ rewrite !length_append, !length_fmt_3d by done. simpl. lia. }
  rewrite substring_skip. unfold fields.
  rewrite (join_field 3 (fmt_3d <$> atoms) nl k 3 (fmt_3d a)); [| |by rewrite list_lookup_fmap, Hk|done].
  - rewrite <- (length_fmt_3d a Ha) at 1. rewrite substring_all. by apply int_fmt_3d.
  - apply Forall_fmap. eapply Forall_impl; [exact Hatoms|]. intros x Hx. by apply length_fmt_3d.
Qed.


Lemma last_words_line (a w : string) :
  w ≠ "" → Forall (λ x, is_space x = false) (list_ascii_of_string w) →
  last (words (a +:+ " " +:+ w +:+ nl)) = Some w.
Proof.
  intros Hne Hw. change (a +:+ " " +:+ w +:+ nl) with (a +:+ String " " (w +:+ nl)).
  rewrite words_sep. unfold nl. rewrite (words_word w "" _ Hne Hw) by done.
  apply last_snoc.
Qed.

Lemma collect_sdt (t : table) (i : Z) (type : string) (old : entry) :
  0 ≤ i ≤ 999 → type ≠ "" → Forall (λ x, is_space x = false) (list_ascii_of_string type) →
  prop_get (KNum i) t = Some old →
  collect (sdt_line i type) t
  = Ok (if bool_decide (cgrkeys !! lower type = None) then prop_del (KNum i) t
        else prop_set (KNum i)
               {| e_atoms := e_atoms old; e_type := Some (lower type); e_value := e_value old |}
               t).
Proof.
  intros Hi Hne Htype Hold. unfold collect, sdt_line.
  change (startswith ("M  SDT " +:+ fmt_3d i +:+ " " +:+ type +:+ nl) "M  ALS") with false.
  change (startswith ("M  SDT " +:+ fmt_3d i +:+ " " +:+ type +:+ nl) "M  ISO") with false.
  change (startswith ("M  SDT " +:+ fmt_3d i +:+ " " +:+ type +:+ nl) "M  STY") with false.
  change (startswith ("M  SDT " +:+ fmt_3d i +:+ " " +:+ type +:+ nl) "M  SAL") with false.
  change (startswith ("M  SDT " +:+ fmt_3d i +:+ " " +:+ type +:+ nl) "M  SDT") with true.
  cbv iota. cbn [bind]. rewrite declared_line by done. rewrite Hold. cbn [bind].
  rewrite <- (append_assoc "M  SDT " (fmt_3d i)).
  rewrite last_words_line by done. cbn [of_option bind].
  case_bool_decide; [done|]. by rewrite Hold.
Qed.

Lemma strip_space (s : string) : strip (String " " s) = strip s.
Proof. done. Qed.

Lemma collect_sed (t : table) (i : Z) (value : string) (old : entry) :
  0 ≤ i ≤ 999 → prop_get (KNum i) t = Some old →
  collect (sed_line i value) t
  = Ok (prop_set (KNum i)
          {| e_atoms := e_atoms old; e_type := e_type old;
             e_value := Some (DStr (read_value value)) |} t).
Proof.
  intros Hi Hold. unfold collect, sed_line.
  change (startswith ("M  SED " +:+ fmt_3d i +:+ " " +:+ value +:+ nl) "M  ALS") with false.
  change (startswith ("M  SED " +:+ fmt_3d i +:+ " " +:+ value +:+ nl) "M  ISO") with false.
  change (startswith ("M  SED " +:+ fmt_3d i +:+ " " +:+ value +:+ nl) "M  STY") with false.
  change (startswith ("M  SED " +:+ fmt_3d i +:+ " " +:+ value +:+ nl) "M  SAL") with false.
  change (startswith ("M  SED " +:+ fmt_3d i +:+ " " +:+ value +:+ nl) "M  SDT") with false.
  change (startswith ("M  SED " +:+ fmt_3d i +:+ " " +:+ value +:+ nl) "M  SED") with true.
  cbv iota. cbn [bind]. rewrite declared_line by done. rewrite Hold. cbn [of_option bind].
  rewrite <- (append_assoc "M  SED " (fmt_3d i)).
  pose proof (slice_from_skip ("M  SED " +:+ fmt_3d i) (" " +:+ value +:+ nl)) as Hv.
  rewrite length_append, length_fmt_3d in Hv by done.
  change (String.length "M  SED " + 3)%nat with 10%nat in Hv. rewrite Hv.
  change (" " +:+ value +:+ nl) with (String " " (value +:+ nl)).
  rewrite strip_space. unfold nl. rewrite strip_end by done. by rewrite Hold.
Qed.

(** The lines of a group that the table does not hold change nothing. *)
Lemma collect_undeclared (t : table) (i : Z) (tag rest : string) :
  0 ≤ i ≤ 999 → prop_get (KNum i) t = None →
  tag = "M  SAL " ∨ tag = "M  SDT " ∨ tag = "M  SED " ∨ tag = "M  SDD " →
  collect (tag +:+ fmt_3d i +:+ rest) t = Ok t.
Proof.
  intros Hi Hnone Htag. unfold collect.
  destruct Htag as [->|[->|[->| ->]]].
  - change (startswith ("M  SAL " +:+ fmt_3d i +:+ rest) "M  ALS") with false.
    change (startswith ("M  SAL " +:+ fmt_3d i +:+ rest) "M  ISO") with false.
    change (startswith ("M  SAL " +:+ fmt_3d i +:+ rest) "M  STY") with false.
    change (startswith ("M  SAL " +:+ fmt_3d i +:+ rest) "M  SAL") with true.
    change (startswith ("M  SAL " +:+ fmt_3d i +:+ rest) "M  SDT") with false.
    change (startswith ("M  SAL " +:+ fmt_3d i +:+ rest) "M  SED") with false.
    cbv iota. rewrite declared_line by done. by rewrite Hnone.
  - change (startswith ("M  SDT " +:+ fmt_3d i +:+ rest) "M  ALS") with false.
    change (startswith ("M  SDT " +:+ fmt_3d i +:+ rest) "M  ISO") with false.
    change (startswith ("M  SDT " +:+ fmt_3d i +:+ rest) "M  STY") with false.
    change (startswith ("M  SDT " +:+ fmt_3d i +:+ rest) "M  SAL") with false.
    change (startswith ("M  SDT " +:+ fmt_3d i +:+ rest) "M  SDT") with true.
    change (startswith ("M  SDT " +:+ fmt_3d i +:+ rest) "M  SED") with false.
    cbv iota. rewrite declared_line by done. by rewrite Hnone.
  - change (startswith ("M  SED " +:+ fmt_3d i +:+ rest) "M  ALS") with false.
    change (startswith ("M  SED " +:+ fmt_3d i +:+ rest) "M  ISO") with false.
    change (startswith ("M  SED " +:+ fmt_3d i +:+ rest) "M  STY") with false.
    change (startswith ("M  SED " +:+ fmt_3d i +:+ rest) "M  SAL") with false.
    change (startswith ("M  SED " +:+ fmt_3d i +:+ rest) "M  SDT") with false.
    change (startswith ("M  SED " +:+ fmt_3d i +:+ rest) "M  SED") with true.
    cbv iota. rewrite declared_line by done. by rewrite Hnone.
  - done.
Qed.

(** An [M  SDD] line changes nothing. *)
Lemma collect_sdd (t : table) (rest : string) : collect ("M  SDD" +:+ rest) t = Ok t.
Proof. done. Qed.

End one_line.

Section declarations.

Lemma digit_text (d : Z) : 0 ≤ d ≤ 9 → ∃ c, str_int d = String c "".
Proof.
  intros Hd.
  assert (d = 0 ∨ d = 1 ∨ d = 2 ∨ d = 3 ∨ d = 4 ∨ d = 5 ∨ d = 6 ∨ d = 7 ∨ d = 8 ∨ d = 9)
    as Hcases by lia.
  repeat (destruct Hcases as [->|Hcases]; [eexists; reflexivity|]).
  subst d. eexists. reflexivity.
Qed.

Lemma collect_sty (t : table) (j sty : Z) :
  1 ≤ sty ≤ 8 → 0 ≤ j → j * 8 + sty ≤ 999 →
  collect (sty_line j sty) t
  = Ok (foldl (λ prop x, prop_set (KNum (x + j * 8)) empty_entry prop) t (seqZ 1 sty)).
Proof.
  intros Hsty Hj Hmax. unfold collect, sty_line.
  destruct (digit_text sty) as [c Hc]; [lia|].
  pose proof (int_str_int sty) as Hint. rewrite Hc in *.
  set (F := (λ x, fmt_3d (x + j * 8) +:+ " DAT") <$> seqZ 1 sty).
  change ("M  STY  " +:+ String c "" +:+ " " +:+ join " " F +:+ nl)
    with (("M  STY  " +:+ String c " ") +:+ join " " F +:+ nl).
  set (p := "M  STY  " +:+ String c " ").
  change (startswith (p +:+ join " " F +:+ nl) "M  ALS") with false.
  change (startswith (p +:+ join " " F +:+ nl) "M  ISO") with false.
  change (startswith (p +:+ join " " F +:+ nl) "M  STY") with true.
  cbv iota. change (char_at 8 (p +:+ join " " F +:+ nl)) with (Ok c).
  cbn [bind]. rewrite Hint. cbn [bind].
  replace (Z.to_nat sty) with (length (seqZ 1 sty)) by (rewrite length_seqZ; lia).
  apply for_each_seq. intros k v s' Hk. change (0 + k)%nat with k.
  apply lookup_seqZ in Hk as [-> Hk].
  assert (Hv : 0 ≤ 1 + Z.of_nat k + j * 8 ≤ 999) by lia.
  assert (HF : Forall (λ f, String.length f = 7%nat) F).
  { apply Forall_fmap, Forall_forall. intros x Hx%elem_of_seqZ. cbn.
    rewrite length_append, length_fmt_3d by lia. done. }
  assert (HFk : F !! k = Some (fmt_3d (1 + Z.of_nat k + j * 8) +:+ " DAT")).
  { unfold F. rewrite list_lookup_fmap, lookup_seqZ_lt by lia. done. }
  assert (Hfield : ∀ m, (m ≤ 7)%nat →
            String.substring (10 + 8 * k) m (p +:+ join " " F +:+ nl)
            = String.substring 0 m (fmt_3d (1 + Z.of_nat k + j * 8) +:+ " DAT")).
  { intros m Hm. replace (10 + 8 * k)%nat with (String.length p + k * 8)%nat
      by (change (String.length p) with 10%nat; lia).
    rewrite substring_skip. by apply join_field. }
  unfold slice. replace (17 + 8 * k - (10 + 8 * k))%nat with 7%nat by lia.
  replace (13 + 8 * k - (10 + 8 * k))%nat with 3%nat by lia.
  rewrite !Hfield by lia.
  replace 7%nat with (String.length (fmt_3d (1 + Z.of_nat k + j * 8) +:+ " DAT")) at 1
    by (rewrite length_append, length_fmt_3d by lia; done).
  rewrite substring_all.
  replace (fmt_3d (1 + Z.of_nat k + j * 8) +:+ " DAT")
    with ((fmt_3d (1 + Z.of_nat k + j * 8) +:+ " ") +:+ "DAT" +:+ "") at 1
    by (by rewrite append_assoc).
  rewrite contains_app by done.
  rewrite <- (length_fmt_3d (1 + Z.of_nat k + j * 8) Hv) at 1.
  rewrite substring_take, int_fmt_3d. done.
Qed.

Lemma strip_fmt_3d (z : Z) : 0 ≤ z ≤ 999 → strip (fmt_3d z) = str_int z.
Proof.
  intros Hz.
  assert (Hall : forallb (λ z, String.eqb (strip (fmt_3d z)) (str_int z)) (seqZ 0 1000) = true)
    by (vm_compute; reflexivity).
  rewrite forallb_forall in Hall. apply String.eqb_eq, Hall, list_elem_of_In, elem_of_seqZ. lia.
Qed.

Lemma collect_iso (t : table) (a v : Z) :
  0 ≤ a ≤ 999 → 0 ≤ v ≤ 999 →
  collect (iso_line a v) t
  = Ok (prop_set (KText "ISO  1 ")
          {| e_atoms := Some [a]; e_type := Some "isotope";
             e_value := Some (DStr (str_int v)) |} t).
Proof.
  intros Ha Hv. unfold collect, iso_line.
  set (line := "M  ISO  1 " +:+ fmt_3d a +:+ " " +:+ fmt_3d v +:+ nl).
  change (startswith line "M  ALS") with false.
  change (startswith line "M  ISO") with true.
  cbv iota.
  assert (Hkey : slice 3 10 line = "ISO  1 ")
    by exact (slice_field "M  " "ISO  1 " (fmt_3d a +:+ " " +:+ fmt_3d v +:+ nl) 3 10
                eq_refl eq_refl).
  assert (Hatom : slice 10 13 line = fmt_3d a).
  { unfold line. apply slice_field; [done|by rewrite length_fmt_3d]. }
  assert (Hvalue : slice 14 17 line = fmt_3d v).
  { unfold line. rewrite <- (append_assoc (fmt_3d a) " "), <- (append_assoc "M  ISO  1 ").
    apply slice_field; [|by rewrite length_fmt_3d].
    rewrite !length_append, length_fmt_3d by done. done. }
  rewrite Hkey, Hatom, Hvalue, int_fmt_3d, strip_fmt_3d by done. done.
Qed.

Lemma prop_del_set (t : table) (k : pkey) (v : entry) :
  prop_del k (prop_set k v t) = prop_del k t.
Proof.
  unfold prop_del, table in *. induction t as [|[k0 v0] t IH].
  - cbn [prop_set]. rewrite filter_cons. cbn [fst]. by rewrite decide_False by tauto.
  - cbn [prop_set]. case_bool_decide as Hk.
    + subst k0. rewrite !filter_cons. cbn [fst]. by rewrite !decide_False by tauto.
    + rewrite !(filter_cons _ (k0, v0)). cbn [fst]. by rewrite IH.
Qed.

End declarations.

Section collected.

Lemma get_collected_run (l out : list entry) :
  Forall (λ e, ∃ atoms type arity,
            e_atoms e = Some atoms ∧ e_type e = Some type ∧ cgrkeys !! type = Some arity) l →
  ∃ more,
    for_each (λ out i,
                atoms ←! of_option KeyError (e_atoms i);
                type ←! of_option KeyError (e_type i);
                arity ←! of_option KeyError (cgrkeys !! type);
                Ok (if bool_decide (Z.of_nat (List.length atoms) = arity)
                    then out ++ [i] else out)) l out
    = Ok (out ++ more)
    ∧ sublist more l
    ∧ ∀ e, e ∈ more ↔
           e ∈ l ∧ ∃ atoms type, e_atoms e = Some atoms ∧ e_type e = Some type
                                 ∧ cgrkeys !! type = Some (Z.of_nat (length atoms)).
Proof.
  intros Hl. revert out. induction Hl as [|e l (atoms & type & arity & Ha & Ht & Hk) Hl IH];
    intros out.
  - exists []. rewrite app_nil_r. split; [done|]. split; [done|].
    intros e. rewrite !elem_of_nil. tauto.
  - cbn [for_each]. rewrite Ha, Ht. cbn [of_option bind]. rewrite Hk. cbn [of_option bind].
    case_bool_decide as Hmet.
    + destruct (IH (out ++ [e])) as (more & Hrun & Hsub & Hin).
      exists (e :: more). rewrite Hrun, <- app_assoc. split; [done|].
      split; [by apply sublist_skip|]. intros e'. rewrite !elem_of_cons, Hin.
      split; [|intros [[->|?] ?]; tauto].
      intros [->|[? ?]]; [|tauto]. split; [by left|]. exists atoms, type. by rewrite Hmet.
    + destruct (IH out) as (more & Hrun & Hsub & Hin).
      exists more. split; [done|]. split; [by apply sublist_cons|].
      intros e'. rewrite elem_of_cons, Hin. split; [tauto|].
      intros [[->|?] Hmet']; [|tauto]. destruct Hmet' as (atoms' & type' & Ha' & Ht' & Hk').
      rewrite Ha in Ha'. rewrite Ht in Ht'. injection Ha' as <-. injection Ht' as <-.
      rewrite Hk in Hk'. by injection Hk'.
Qed.

Lemma get_collected_raises (l out : list entry) (e : entry) :
  e ∈ l → e_atoms e = None →
  for_each (λ out i,
              atoms ←! of_option KeyError (e_atoms i);
              type ←! of_option KeyError (e_type i);
              arity ←! of_option KeyError (cgrkeys !! type);
              Ok (if bool_decide (Z.of_nat (List.length atoms) = arity)
                  then out ++ [i] else out)) l out
  = Raise KeyError.
Proof.
  intros Hin Hnone. revert out. induction l as [|x l IH]; intros out.
  - by apply elem_of_nil in Hin.
  - cbn [for_each]. apply elem_of_cons in Hin as [<-|Hin].
    + by rewrite Hnone.
    + destruct (e_atoms x); [|done]. cbn [of_option bind].
      destruct (e_type x); [|done]. cbn [of_option bind].
      destruct (cgrkeys !! _); [|done]. cbn [of_option bind]. by apply IH.
Qed.

End collected.

Section groups.

Lemma cgrkeys_type (type : string) :
  is_Some (cgrkeys !! type) →
  type ≠ "" ∧ Forall (λ x, is_space x = false) (list_ascii_of_string type)
  ∧ lower type = type ∧ (cgrkeys !! type = Some 1 ∨ cgrkeys !! type = Some 2).
Proof.
  intros [arity Hk]. apply elem_of_list_to_map_2 in Hk.
  repeat (apply elem_of_cons in Hk as [Hk|Hk];
          [injection Hk as -> ->;
           split; [done|split; [repeat constructor|split; [done|]]];
           (by left) || (by right)|]).
  by apply elem_of_nil in Hk.
Qed.

Lemma stereo_type (type : string) :
  type ∈ stereo_types →
  type ≠ "" ∧ Forall (λ x, is_space x = false) (list_ascii_of_string type)
  ∧ cgrkeys !! lower type = None.
Proof.
  intros Hin.
  repeat (apply elem_of_cons in Hin as [->|Hin]; [split; [done|split; [repeat constructor|done]]|]).
  by apply elem_of_nil in Hin.
Qed.

Lemma length_insert_sorted (x : Z) (l : list Z) : length (insert_sorted x l) = S (length l).
Proof.
  induction l as [|y l IH]; [done|]. cbn [insert_sorted].
  case_bool_decide; [done|]. cbn [length]. by rewrite IH.
Qed.

Lemma length_sorted (l : list Z) : length (sorted l) = length l.
Proof.
  induction l as [|x l IH]; [done|].
  unfold sorted in *. cbn [foldr]. by rewrite length_insert_sorted, IH.
Qed.

Lemma group_lines (t : table) (i : Z) (rec : sgroup) (place : string) (old : entry) :
  0 ≤ i ≤ 999 → Forall (λ a, 0 ≤ a ≤ 999) (sg_atoms rec) → (length (sg_atoms rec) ≤ 999)%nat →
  is_Some (cgrkeys !! sg_type rec) →
  prop_get (KNum i) t = Some old →
  (t1 ←! collect (sal_line i (sg_atoms rec)) t;
   t2 ←! collect (sdt_line i (sg_type rec)) t1;
   t3 ←! collect ("M  SDD " +:+ fmt_3d i +:+ place) t2;
   collect (sed_line i (sg_value rec)) t3)
  = Ok (prop_set (KNum i)
          {| e_atoms := Some (sorted (sg_atoms rec)); e_type := Some (sg_type rec);
             e_value := Some (DStr (read_value (sg_value rec))) |} t).
Proof.
  intros Hi Hatoms Hlen Htype Hold.
  destruct (cgrkeys_type _ Htype) as (Hne & Hword & Hlower & Harity).
  rewrite (collect_sal t i _ old) by done. cbn [bind].
  erewrite collect_sdt; [|done..|by rewrite prop_get_set, decide_True].
  rewrite Hlower, bool_decide_false by (by destruct Harity as [-> | ->]).
  cbn [bind e_atoms e_type e_value]. rewrite prop_set_twice.
  change ("M  SDD " +:+ fmt_3d i +:+ place) with ("M  SDD" +:+ String " " (fmt_3d i +:+ place)).
  rewrite collect_sdd. cbn [bind].
  erewrite collect_sed; [|done|by rewrite prop_get_set, decide_True].
  cbn [e_atoms e_type e_value]. by rewrite prop_set_twice.
Qed.

(** X22. The four lines that [__get_mol] writes for a record of a type of
    [__cgrkeys], read by [_collect] into a table that holds the group,
    leave there the atoms in ascending order, the type, and the value
    without white space around it, without slashes and in lower case. *)
Theorem X22_group_lines_are_read_back
    (t : table) (i : Z) (rec : sgroup) (place : string) (old : entry) :
  0 ≤ i ≤ 999 → Forall (λ a, 0 ≤ a ≤ 999) (sg_atoms rec) → (length (sg_atoms rec) ≤ 999)%nat →
  is_Some (cgrkeys !! sg_type rec) →
  prop_get (KNum i) t = Some old →
  (t1 ←! collect (sal_line i (sg_atoms rec)) t;
   t2 ←! collect (sdt_line i (sg_type rec)) t1;
   t3 ←! collect ("M  SDD " +:+ fmt_3d i +:+ place) t2;
   collect (sed_line i (sg_value rec)) t3)
  = Ok (prop_set (KNum i)
          {| e_atoms := Some (sorted (sg_atoms rec)); e_type := Some (sg_type rec);
             e_value := Some (DStr (read_value (sg_value rec))) |} t).
Proof. apply group_lines. Qed.

(** X23. The lines of a record of a stereo mark, of an atom or of a bond,
    take the group out of the table: its type is none of [__cgrkeys], so
    the [M  SDT] line pops the group and the [M  SED] line finds none. *)
Theorem X23_stereo_records_are_dropped
    (t : table) (i : Z) (rec : sgroup) (place : string) (old : entry) :
  0 ≤ i ≤ 999 → Forall (λ a, 0 ≤ a ≤ 999) (sg_atoms rec) → (length (sg_atoms rec) ≤ 999)%nat →
  sg_type rec ∈ stereo_types →
  prop_get (KNum i) t = Some old →
  (t1 ←! collect (sal_line i (sg_atoms rec)) t;
   t2 ←! collect (sdt_line i (sg_type rec)) t1;
   t3 ←! collect ("M  SDD " +:+ fmt_3d i +:+ place) t2;
   collect (sed_line i (sg_value rec)) t3)
  = Ok (prop_del (KNum i) t).
Proof.
  intros Hi Hatoms Hlen Htype Hold.
  destruct (stereo_type _ Htype) as (Hne & Hword & Hnone).
  rewrite (collect_sal t i _ old) by done. cbn [bind].
  erewrite collect_sdt; [|done..|by rewrite prop_get_set, decide_True].
  rewrite bool_decide_true by done. cbn [bind]. rewrite prop_del_set.
  change ("M  SDD " +:+ fmt_3d i +:+ place) with ("M  SDD" +:+ String " " (fmt_3d i +:+ place)).
  rewrite collect_sdd. cbn [bind]. unfold sed_line.
  apply collect_undeclared; [done|apply prop_get_del|tauto].
Qed.

(** X24. The [M  STY] line that [__get_mol] writes for the [j]-th block of
    eight records declares the groups [8j + 1] to [8j + sty], each with
    nothing in it, in this order. *)
Theorem X24_sty_line_declares_its_groups (t : table) (j sty : Z) :
  1 ≤ sty ≤ 8 → 0 ≤ j → j * 8 + sty ≤ 999 →
  collect (sty_line j sty) t
  = Ok (foldl (λ prop x, prop_set (KNum (x + j * 8)) empty_entry prop) t (seqZ 1 sty)).
Proof. apply collect_sty. Qed.

(** X25. Every [M  ISO] line of [__get_mol] is kept under the one key
    [ISO  1 ]: of two such lines the table holds the second alone. *)
Theorem X25_second_isotope_line_replaces_the_first (t : table) (a1 v1 a2 v2 : Z) :
  0 ≤ a1 ≤ 999 → 0 ≤ v1 ≤ 999 → 0 ≤ a2 ≤ 999 → 0 ≤ v2 ≤ 999 →
  (t1 ←! collect (iso_line a1 v1) t; collect (iso_line a2 v2) t1)
  = Ok (prop_set (KText "ISO  1 ")
          {| e_atoms := Some [a2]; e_type := Some "isotope";
             e_value := Some (DStr (str_int v2)) |} t).
Proof.
  intros Ha1 Hv1 Ha2 Hv2. rewrite !collect_iso by done. cbn [bind].
  rewrite collect_iso by done. by rewrite prop_set_twice.
Qed.

(** X26. When every entry of the table holds its atoms and a type of
    [__cgrkeys], [_get_collected] returns, in the order of the table, the
    entries with as many atoms as the type asks for, and leaves the table
    empty. *)
Theorem X26_get_collected_keeps_the_complete_entries (t : table) :
  Forall (λ e, ∃ atoms type arity,
            e_atoms e = Some atoms ∧ e_type e = Some type ∧ cgrkeys !! type = Some arity)
         t.*2 →
  ∃ out,
    get_collected t = Ok (out, [])
    ∧ sublist out t.*2
    ∧ ∀ e, e ∈ out ↔
           e ∈ t.*2 ∧ ∃ atoms type, e_atoms e = Some atoms ∧ e_type e = Some type
                                    ∧ cgrkeys !! type = Some (Z.of_nat (length atoms)).
Proof.
  intros Hall. destruct (get_collected_run _ [] Hall) as (out & Hrun & Hrest).
  exists out. unfold get_collected. by rewrite Hrun.
Qed.

(** X27. A group that was declared and never got its atoms makes
    [_get_collected] raise [KeyError]. *)
Theorem X27_get_collected_raises_on_a_group_without_atoms (t : table) (e : entry) :
  e ∈ t.*2 → e_atoms e = None → get_collected t = Raise KeyError.
Proof.
  intros Hin Hnone. unfold get_collected.
  by rewrite (get_collected_raises _ [] e Hin Hnone).
Qed.

(** X28. The [M  SAL], [M  SDT] and [M  SED] lines of a group that the
    table does not hold leave the table as it is, whatever follows the
    number of the group. *)
Theorem X28_lines_of_an_undeclared_group_change_nothing
    (t : table) (i : Z) (tag rest : string) :
  0 ≤ i ≤ 999 → prop_get (KNum i) t = None →
  tag = "M  SAL " ∨ tag = "M  SDT " ∨ tag = "M  SED " →
  collect (tag +:+ fmt_3d i +:+ rest) t = Ok t.
Proof. intros Hi Hnone Htag. apply collect_undeclared; [done|done|tauto]. Qed.

Lemma one_group_lines (rec : sgroup) (place : string) :
  Forall (λ a, 0 ≤ a ≤ 999) (sg_atoms rec) →
  cgrkeys !! sg_type rec = Some (Z.of_nat (length (sg_atoms rec))) →
  (t0 ←! collect (sty_line 0 1) [];
   t1 ←! collect (sal_line 1 (sg_atoms rec)) t0;
   t2 ←! collect (sdt_line 1 (sg_type rec)) t1;
   t3 ←! collect ("M  SDD " +:+ fmt_3d 1 +:+ place) t2;
   t4 ←! collect (sed_line 1 (sg_value rec)) t3;
   get_collected t4)
  = Ok ([{| e_atoms := Some (sorted (sg_atoms rec)); e_type := Some (sg_type rec);
            e_value := Some (DStr (read_value (sg_value rec))) |}], []).
Proof.
  intros Hatoms Harity.
  destruct (cgrkeys_type (sg_type rec)) as (Hne & Hword & Hlower & Hsome); [by eexists|].
  assert (Hlen : (length (sg_atoms rec) ≤ 2)%nat)
    by (destruct Hsome as [H|H]; rewrite Harity in H; injection H; lia).
  rewrite collect_sty by lia.
  change (foldl _ [] (seqZ 1 1)) with [(KNum 1, empty_entry)]. cbn [bind].
  rewrite (collect_sal _ 1 _ empty_entry) by (done || lia). cbn [bind prop_set].
  rewrite bool_decide_true by done.
  erewrite collect_sdt; [|done..].
  rewrite Hlower, bool_decide_false by (by rewrite Harity).
  cbn [bind prop_set e_atoms e_type e_value]. rewrite bool_decide_true by done.
  change ("M  SDD " +:+ fmt_3d 1 +:+ place) with ("M  SDD" +:+ String " " (fmt_3d 1 +:+ place)).
  rewrite collect_sdd. cbn [bind].
  erewrite collect_sed; [|done..].
  cbn [bind prop_set e_atoms e_type e_value]. rewrite bool_decide_true by done.
  unfold get_collected. cbn [fmap list_fmap snd for_each of_option bind e_atoms e_type].
  rewrite Harity. cbn [of_option bind].
  by rewrite length_sorted, bool_decide_true.
Qed.

(** X29. One record of a type of [__cgrkeys] with as many atoms as the
    type asks for, written by [__get_mol] as the only group and read line
    by line into an empty table, is what [_get_collected] returns. *)
Theorem X29_one_group_from_its_lines (rec : sgroup) (place : string) :
  Forall (λ a, 0 ≤ a ≤ 999) (sg_atoms rec) →
  cgrkeys !! sg_type rec = Some (Z.of_nat (length (sg_atoms rec))) →
  (t0 ←! collect (sty_line 0 1) [];
   t1 ←! collect (sal_line 1 (sg_atoms rec)) t0;
   t2 ←! collect (sdt_line 1 (sg_type rec)) t1;
   t3 ←! collect ("M  SDD " +:+ fmt_3d 1 +:+ place) t2;
   t4 ←! collect (sed_line 1 (sg_value rec)) t3;
   get_collected t4)
  = Ok ([{| e_atoms := Some (sorted (sg_atoms rec)); e_type := Some (sg_type rec);
            e_value := Some (DStr (read_value (sg_value rec))) |}], []).
Proof. apply one_group_lines. Qed.

End groups.

Lemma X22_group_lines_are_read_back_witness :
  (t1 ←! collect (sal_line 1 [2; 1]) [(KNum 1, empty_entry)];
   t2 ←! collect (sdt_line 1 "dynbond") t1;
   t3 ←! collect ("M  SDD " +:+ fmt_3d 1 +:+ "    1.0000    0.5000") t2;
   collect (sed_line 1 "1>2") t3)
  = Ok [(KNum 1, {| e_atoms := Some [1; 2]; e_type := Some "dynbond";
                    e_value := Some (DStr "1>2") |})].
Proof.
  apply (X22_group_lines_are_read_back
           [(KNum 1, empty_entry)] 1
           {| sg_value := "1>2"; sg_type := "dynbond"; sg_atoms := [2; 1] |}
           "    1.0000    0.5000" empty_entry).
  - lia.
  - repeat constructor; lia.
  - simpl. lia.
  - eexists. vm_compute. reflexivity.
  - reflexivity.
Defined.

Lemma X23_stereo_records_are_dropped_witness :
  (t1 ←! collect (sal_line 1 [3]) [(KNum 1, empty_entry)];
   t2 ←! collect (sdt_line 1 "atomstereo") t1;
   t3 ←! collect ("M  SDD " +:+ fmt_3d 1 +:+ "    1.0000    0.5000") t2;
   collect (sed_line 1 "1") t3)
  = Ok [].
Proof.
  apply (X23_stereo_records_are_dropped
           [(KNum 1, empty_entry)] 1
           {| sg_value := "1"; sg_type := "atomstereo"; sg_atoms := [3] |}
           "    1.0000    0.5000" empty_entry).
  - lia.
  - repeat constructor; lia.
  - simpl. lia.
  - in_list.
  - reflexivity.
Defined.

Lemma X24_sty_line_declares_its_groups_witness :
  collect (sty_line 1 2) [] = Ok [(KNum 9, empty_entry); (KNum 10, empty_entry)].
Proof. apply (X24_sty_line_declares_its_groups [] 1 2); lia. Defined.

Lemma X25_second_isotope_line_replaces_the_first_witness :
  (t1 ←! collect (iso_line 1 13) []; collect (iso_line 2 14) t1)
  = Ok [(KText "ISO  1 ", {| e_atoms := Some [2]; e_type := Some "isotope";
                             e_value := Some (DStr "14") |})].
Proof. apply (X25_second_isotope_line_replaces_the_first [] 1 13 2 14); lia. Defined.

Lemma X26_get_collected_keeps_the_complete_entries_witness :
  ∃ out,
    get_collected
      [(KNum 1, {| e_atoms := Some [1; 2]; e_type := Some "dynbond";
                   e_value := Some (DStr "1>2") |});
       (KNum 2, {| e_atoms := Some [1; 2]; e_type := Some "dynatom";
                   e_value := Some (DStr "c+1") |})]
    = Ok (out, [])
    ∧ length out = 1%nat.
Proof.
  destruct (X26_get_collected_keeps_the_complete_entries
              [(KNum 1, {| e_atoms := Some [1; 2]; e_type := Some "dynbond";
                           e_value := Some (DStr "1>2") |});
               (KNum 2, {| e_atoms := Some [1; 2]; e_type := Some "dynatom";
                           e_value := Some (DStr "c+1") |})])
    as (out & Hrun & _).
  - repeat constructor; eexists _, _, _; (split; [reflexivity|split; [reflexivity|]]);
      vm_compute; reflexivity.
  - exists out. split; [exact Hrun|]. vm_compute in Hrun. by injection Hrun as <-.
Defined.

Lemma X27_get_collected_raises_on_a_group_without_atoms_witness :
  get_collected [(KNum 1, empty_entry)] = Raise KeyError.
Proof.
  apply (X27_get_collected_raises_on_a_group_without_atoms [(KNum 1, empty_entry)] empty_entry).
  - change (empty_entry ∈ [empty_entry]). apply list_elem_of_here.
  - reflexivity.
Defined.

Lemma X28_lines_of_an_undeclared_group_change_nothing_witness :
  collect (sal_line 5 [1; 2]) [(KNum 1, empty_entry)] = Ok [(KNum 1, empty_entry)].
Proof.
  apply (X28_lines_of_an_undeclared_group_change_nothing
           [(KNum 1, empty_entry)] 5 "M  SAL "
           (fmt_3d 2 +:+ " " +:+ join " " (fmt_3d <$> [1; 2]) +:+ nl)).
  - lia.
  - reflexivity.
  - by left.
Defined.

Lemma X29_one_group_from_its_lines_witness :
  (t0 ←! collect (sty_line 0 1) [];
   t1 ←! collect (sal_line 1 [2; 1]) t0;
   t2 ←! collect (sdt_line 1 "dynbond") t1;
   t3 ←! collect ("M  SDD " +:+ fmt_3d 1 +:+ "    1.0000    0.5000") t2;
   t4 ←! collect (sed_line 1 "1>2") t3;
   get_collected t4)
  = Ok ([{| e_atoms := Some [1; 2]; e_type := Some "dynbond";
            e_value := Some (DStr "1>2") |}], []).
Proof.
  apply (X29_one_group_from_its_lines
           {| sg_value := "1>2"; sg_type := "dynbond"; sg_atoms := [2; 1] |}
           "    1.0000    0.5000").
  - repeat constructor; lia.
  - vm_compute. reflexivity.
Defined.

(** **** A changed bond, from the graph to the text and back *)

Section bond_through_text.
Context `{Externals}.

(** X30. A bond that changes, with orders among no bond, 1, 2, 3, 4 and
    9, survives the text: the record that the writer makes of it, written
    as the only group and read line by line, comes back from
    [_get_collected] as an entry with all three keys, the two atoms in
    ascending order, whose type and value the decoder turns into the edge
    attributes of the two orders. *)
Theorem X30_changed_bond_survives_the_text (i l : Z) (x y : option Z) (place : string) :
  x ∈ proper_orders → y ∈ proper_orders → ¬ (x = y ∧ x ≠ Some 9) →
  0 ≤ i ≤ 999 → 0 ≤ l ≤ 999 →
  ∃ rec code,
    encode_bond i l x y = Ok ([rec], (i, l, code))
    ∧ ∃ e d,
        (t0 ←! collect (sty_line 0 1) [];
         t1 ←! collect (sal_line 1 (sg_atoms rec)) t0;
         t2 ←! collect (sdt_line 1 (sg_type rec)) t1;
         t3 ←! collect ("M  SDD " +:+ fmt_3d 1 +:+ place) t2;
         t4 ←! collect (sed_line 1 (sg_value rec)) t3;
         get_collected t4)
        = Ok ([e], [])
        ∧ entry_dat e = Some d
        ∧ d_atoms d = sorted [i; l]
        ∧ cgr_dat (d_type d) (d_value d) = Ok (Some (bond_attrs x y)).
Proof.
  intros Hx Hy Hchanged Hi Hl. unfold proper_orders in *.
  repeat (apply elem_of_cons in Hx as [->|Hx]); [..|by apply elem_of_nil in Hx].
  all: repeat (apply elem_of_cons in Hy as [->|Hy]); [..|by apply elem_of_nil in Hy].
  all: try (exfalso; apply Hchanged; by split).
  all: eexists _, _; split; [reflexivity|]; eexists _, _.
  all: split; [apply one_group_lines; [repeat constructor; lia|vm_compute; reflexivity]|].
  all: split; [reflexivity|]; split; [reflexivity|]; vm_compute; reflexivity.
Qed.

End bond_through_text.

Lemma X30_changed_bond_survives_the_text_witness :
  ∃ rec code,
    encode_bond 1 2 (Some 1) (Some 2) = Ok ([rec], (1, 2, code))
    ∧ ∃ e d,
        (t0 ←! collect (sty_line 0 1) [];
         t1 ←! collect (sal_line 1 (sg_atoms rec)) t0;
         t2 ←! collect (sdt_line 1 (sg_type rec)) t1;
         t3 ←! collect ("M  SDD " +:+ fmt_3d 1 +:+ "    1.0000    0.5000") t2;
         t4 ←! collect (sed_line 1 (sg_value rec)) t3;
         get_collected t4)
        = Ok ([e], [])
        ∧ entry_dat e = Some d
        ∧ d_atoms d = [1; 2]
        ∧ @cgr_dat Examples.small_world (d_type d) (d_value d)
          = Ok (Some (bond_attrs (Some 1) (Some 2))).
Proof.
  apply (@X30_changed_bond_survives_the_text Examples.small_world 1 2 (Some 1) (Some 2)
           "    1.0000    0.5000").
  - in_list.
  - in_list.
  - intros [Heq _]. discriminate Heq.
  - lia.
  - lia.
Defined.
